(** * QMC ciphers of takiyasha: a shallow embedding and its properties

    The development follows [takiyasha/algorithms/qmc/ciphers.py]:
    - [QMC_TEACipher]: the TEA block cipher (encrypt / decrypt of one block);
    - [TC_TEACipher]: the chained envelope built on TEA;
    - [QMCv1_StaticMapCipher], [QMCv2_DynamicMapCipher]: positional masks;
    - [QMCv2_RC4Cipher]: the segmented RC4 variant, whose scheduled box is
      a shared [bytearray] object and is therefore modelled in a store;
    - [QMCv1_ImprovedStaticMapCipher], [QMCv2_ImprovedDynamicMapCipher],
      [QMCv2_ImprovedRC4Cipher]: the same stream ciphers, with generators.

    Python [int] is [Z]; [bytes] and [bytearray] values are [list Z] whose
    elements lie in [range(256)]; exceptions are values of [exn]. *)

From Stdlib Require Import ZArith List Lia Bool.
From stdpp Require Import base gmap list.
Import ListNotations.
Open Scope Z_scope.

(** ** Python runtime: exceptions and results *)

Inductive decryption_failure :=
| NotMultipleOfBlockSize
| SourceTooSmall
| InvalidPadLen
| ZeroCheckFailed.

Inductive exn :=
| CipherGenerationError
| DecryptionError (why : decryption_failure)
| ZeroDivisionError
| IndexError
| ValueError
| OverflowError
| AttributeError
| ReferenceError
| struct_error
| OutOfFuel.

Inductive result (A : Type) :=
| Ok (a : A)
| Raise (e : exn).
Arguments Ok {A} a.
Arguments Raise {A} e.

Definition rbind {A B} (r : result A) (k : A -> result B) : result B :=
  match r with
  | Ok a => k a
  | Raise e => Raise e
  end.

Declare Scope result_scope.
Delimit Scope result_scope with res.
Notation "'let*' x ':=' r 'in' k" := (rbind r (fun x => k))
  (at level 10, x name, r at level 100, k at level 200) : result_scope.
Notation "'let*' ' p ':=' r 'in' k" := (rbind r (fun x => let 'p := x in k))
  (at level 10, p pattern, r at level 100, k at level 200) : result_scope.
Open Scope result_scope.

(** ** Python runtime: integers *)

(** [a % b] and [a // b]: floored, and a zero divisor raises. *)
Definition py_mod (a b : Z) : result Z :=
  if b =? 0 then Raise ZeroDivisionError else Ok (a mod b).

Definition py_floordiv (a b : Z) : result Z :=
  if b =? 0 then Raise ZeroDivisionError else Ok (a / b).

(** [for _ in range(n)]: the body runs [n] times, first iteration first. *)
Fixpoint repeat_n {S : Type} (n : nat) (body : S -> S) (s : S) : S :=
  match n with
  | O => s
  | Datatypes.S n' => repeat_n n' body (body s)
  end.

(** ** Python runtime: byte sequences *)

Definition is_byte (b : Z) : bool := (0 <=? b) && (b <? 256).
Definition bytes_ok (l : list Z) : Prop := Forall (fun b => 0 <= b < 256) l.

Definition len {A} (l : list A) : Z := Z.of_nat (length l).

(** [l[i]] with Python's negative indices; out of range raises. *)
Definition py_getitem (l : list Z) (i : Z) : result Z :=
  let i' := if i <? 0 then i + len l else i in
  if i' <? 0 then Raise IndexError
  else match l !! Z.to_nat i' with
       | Some x => Ok x
       | None => Raise IndexError
       end.

(** [l[i] = v] on a [bytearray]: the value must be in [range(256)]. *)
Definition bytearray_setitem (l : list Z) (i v : Z) : result (list Z) :=
  let i' := if i <? 0 then i + len l else i in
  if negb (is_byte v) then Raise ValueError
  else if (i' <? 0) || (len l <=? i') then Raise IndexError
  else Ok (<[Z.to_nat i' := v]> l).

(** [l[a:b]] for non-negative [a], [b] (the only slices the ciphers take). *)
Definition py_slice {A} (l : list A) (a b : Z) : list A :=
  take (Z.to_nat b - Z.to_nat a) (drop (Z.to_nat a) l).

(** [l[a:b] = v] on a [bytearray], for non-negative [a], [b]. *)
Definition py_slice_assign {A} (l : list A) (a b : Z) (v : list A) : list A :=
  take (Z.to_nat a) l ++ v ++ drop (Nat.max (Z.to_nat a) (Z.to_nat b)) l.

(** [range(a, b)] *)
Definition py_range (a b : Z) : list Z := seqZ a (b - a).

(** [bytearray(n)]: [n] zero bytes; a negative count raises. *)
Definition py_bytearray (n : Z) : result (list Z) :=
  if n <? 0 then Raise ValueError else Ok (replicate (Z.to_nat n) 0).

(** [bytes(f(i) for i in indices)]: items are produced and checked in turn. *)
Fixpoint py_bytes_of (f : Z -> result Z) (indices : list Z) : result (list Z) :=
  match indices with
  | [] => Ok []
  | i :: rest =>
      let* x := f i in
      if is_byte x then let* r := py_bytes_of f rest in Ok (x :: r)
      else Raise ValueError
  end.

(** [struct.Struct('>L').unpack(b)[0]]: exactly four bytes, big endian. *)
Definition BE_Uint32_unpack (b : list Z) : result Z :=
  match b with
  | [b0; b1; b2; b3] =>
      Ok (((b0 * 256 + b1) * 256 + b2) * 256 + b3)
  | _ => Raise struct_error
  end.

(** [Cryptodome.Util.strxor.strxor]: bytewise XOR of two strings of the
    same length; a length mismatch raises [ValueError]. *)
Fixpoint strxor (a b : list Z) : result (list Z) :=
  match a, b with
  | [], [] => Ok []
  | x :: a', y :: b' => let* r := strxor a' b' in Ok (Z.lxor x y :: r)
  | _, _ => Raise ValueError
  end.

(** ** QMC_TEACipher *)

Module QMC_TEACipher.

(** Modelled from the spec: the [Cipher] base class of [..common] keeps
    the key given to [__init__]; [key_length] is its length.  The
    instance attributes set by [__init__] follow. *)
Record t := { _key : list Z; _delta : Z; _rounds : Z }.

Definition key_length (self : t) : Z := len (_key self).

Definition __init__ (key : list Z) (rounds magic_number : Z) : result t :=
  let self := {| _key := key; _delta := magic_number; _rounds := rounds |} in
  if negb (key_length self =? 16) then Raise CipherGenerationError
  else if negb (Z.land rounds 1 =? 0) then Raise CipherGenerationError
  else Ok self.

Definition _put_uint32 (value : Z) : list Z :=
  [ (Z.shiftr value 24) mod 256;
    (Z.shiftr value 16) mod 256;
    (Z.shiftr value 8) mod 256;
    value mod 256 ].

Definition _get_values_from_src_data (self : t) (src_data : list Z)
  : result (Z * Z * Z * Z * Z * Z) :=
  let* v0 := BE_Uint32_unpack (py_slice src_data 0 4) in
  let* v1 := BE_Uint32_unpack (py_slice src_data 4 8) in
  let* k0 := BE_Uint32_unpack (py_slice (_key self) 0 4) in
  let* k1 := BE_Uint32_unpack (py_slice (_key self) 4 8) in
  let* k2 := BE_Uint32_unpack (py_slice (_key self) 8 12) in
  let* k3 := BE_Uint32_unpack (drop 12 (_key self)) in
  Ok (v0, v1, k0, k1, k2, k3).

(** The mixing term [((v << 4) + ka) ^ (v + ciphersum) ^ ((v >> 5) + kb)]. *)
Definition mix (v ka kb ciphersum : Z) : Z :=
  Z.lxor (Z.lxor (Z.shiftl v 4 + ka) (v + ciphersum)) (Z.shiftr v 5 + kb).

(** One pass of the body of the loop of [decrypt], on [(v0, v1, ciphersum)]. *)
Definition decrypt_round (k0 k1 k2 k3 delta : Z) (s : Z * Z * Z) : Z * Z * Z :=
  let '(v0, v1, ciphersum) := s in
  let v1 := Z.land (v1 - mix v0 k2 k3 ciphersum) 0xffffffff in
  let v0 := Z.land (v0 - mix v1 k0 k1 ciphersum) 0xffffffff in
  let ciphersum := Z.land (ciphersum - delta) 0xffffffff in
  (v0, v1, ciphersum).

Definition decrypt (self : t) (src_data : list Z) : result (list Z) :=
  let* '(v0, v1, k0, k1, k2, k3) := _get_values_from_src_data self src_data in
  let delta := _delta self in
  let rounds := _rounds self in
  let ciphersum := Z.land (delta * (rounds / 2)) 0xffffffff in
  let '(v0, v1, _) :=
    repeat_n (Z.to_nat (rounds / 2)) (decrypt_round k0 k1 k2 k3 delta)
             (v0, v1, ciphersum) in
  Ok (_put_uint32 v0 ++ _put_uint32 v1).

(** One pass of the body of the loop of [encrypt]. *)
Definition encrypt_round (k0 k1 k2 k3 delta : Z) (s : Z * Z * Z) : Z * Z * Z :=
  let '(v0, v1, ciphersum) := s in
  let ciphersum := Z.land (ciphersum + delta) 0xffffffff in
  let v0 := Z.land (v0 + mix v1 k0 k1 ciphersum) 0xffffffff in
  let v1 := Z.land (v1 + mix v0 k2 k3 ciphersum) 0xffffffff in
  (v0, v1, ciphersum).

Definition encrypt (self : t) (src_data : list Z) : result (list Z) :=
  let* '(v0, v1, k0, k1, k2, k3) := _get_values_from_src_data self src_data in
  let delta := _delta self in
  let rounds := _rounds self in
  let ciphersum := Z.land 0 0xffffffff in
  let '(v0, v1, _) :=
    repeat_n (Z.to_nat (rounds / 2)) (encrypt_round k0 k1 k2 k3 delta)
             (v0, v1, ciphersum) in
  Ok (_put_uint32 v0 ++ _put_uint32 v1).

End QMC_TEACipher.

(** ** TC_TEACipher *)

Module TC_TEACipher.

(** Modelled from the spec: the [BlockCipher] base class of [..common]
    keeps the key given to [__init__]; [key_length] is its length. *)
Record t := {
  _key : list Z;
  _delta : Z;
  _rounds : Z;
  _salt_len : Z;
  _zero_len : Z
}.

Definition key_length (self : t) : Z := len (_key self).

Definition __init__ (key : list Z) (rounds magic_number : Z) : result t :=
  let self := {| _key := key; _delta := magic_number; _rounds := rounds;
                 _salt_len := 2; _zero_len := 7 |} in
  if negb (key_length self =? 16) then Raise CipherGenerationError
  else if negb (Z.land rounds 1 =? 0) then Raise CipherGenerationError
  else Ok self.

Definition _put_uint32 (value : Z) : list Z :=
  [ (Z.shiftr value 24) mod 256;
    (Z.shiftr value 16) mod 256;
    (Z.shiftr value 8) mod 256;
    value mod 256 ].

Definition _get_values_from_src_data (self : t) (src : list Z)
  : result (Z * Z * Z * Z * Z * Z) :=
  let* v0 := BE_Uint32_unpack (py_slice src 0 4) in
  let* v1 := BE_Uint32_unpack (py_slice src 4 8) in
  let* k0 := BE_Uint32_unpack (py_slice (_key self) 0 4) in
  let* k1 := BE_Uint32_unpack (py_slice (_key self) 4 8) in
  let* k2 := BE_Uint32_unpack (py_slice (_key self) 8 12) in
  let* k3 := BE_Uint32_unpack (drop 12 (_key self)) in
  Ok (v0, v1, k0, k1, k2, k3).

(** The loop body is, word for word, that of [QMC_TEACipher.decrypt]. *)
Definition original_tea_decrypt (self : t) (src : list Z) : result (list Z) :=
  let* '(v0, v1, k0, k1, k2, k3) := _get_values_from_src_data self src in
  let delta := _delta self in
  let rounds := _rounds self in
  let ciphersum := Z.land (delta * (rounds / 2)) 0xffffffff in
  let '(v0, v1, _) :=
    repeat_n (Z.to_nat (rounds / 2))
             (QMC_TEACipher.decrypt_round k0 k1 k2 k3 delta)
             (v0, v1, ciphersum) in
  Ok (_put_uint32 v0 ++ _put_uint32 v1).

(** The variables of [decrypt] that the closure [crypt_block] rebinds. *)
Record locals := {
  iv_prev : list Z;
  iv_cur : list Z;
  dest_data : list Z;
  src_pos : Z;
  dest_idx : Z
}.

Definition set_dest_idx (s : locals) (d : Z) : locals :=
  {| iv_prev := iv_prev s; iv_cur := iv_cur s; dest_data := dest_data s;
     src_pos := src_pos s; dest_idx := d |}.

Definition crypt_block (self : t) (src : list Z) (s : locals) : result locals :=
  let iv_prev' := iv_cur s in
  let iv_cur' := py_slice src (src_pos s) (src_pos s + 8) in
  let* x := strxor (py_slice (dest_data s) 0 8) (py_slice iv_cur' 0 8) in
  let* dest_data' := original_tea_decrypt self x in
  Ok {| iv_prev := iv_prev'; iv_cur := iv_cur'; dest_data := dest_data';
        src_pos := src_pos s + 8; dest_idx := 0 |}.

(** [while i <= self._salt_len: ...]; a pass in which neither branch
    applies changes nothing, so the loop would spin: fuel bounds it. *)
Fixpoint salt_loop (fuel : nat) (self : t) (src : list Z) (i : Z) (s : locals)
  : result locals :=
  if i <=? _salt_len self then
    match fuel with
    | O => Raise OutOfFuel
    | S fuel' =>
        if dest_idx s <? 8 then
          salt_loop fuel' self src (i + 1) (set_dest_idx s (dest_idx s + 1))
        else if dest_idx s =? 8 then
          let* s' := crypt_block self src s in
          salt_loop fuel' self src i s'
        else salt_loop fuel' self src i s
    end
  else Ok s.

(** [while out_buffer_pos < out_buffer_len: ...] *)
Fixpoint output_loop (fuel : nat) (self : t) (src : list Z)
         (out_buffer_len : Z) (out_buffer : list Z) (out_buffer_pos : Z)
         (s : locals) : result (list Z * locals) :=
  if out_buffer_pos <? out_buffer_len then
    match fuel with
    | O => Raise OutOfFuel
    | S fuel' =>
        if dest_idx s <? 8 then
          let* a := py_getitem (dest_data s) (dest_idx s) in
          let* b := py_getitem (iv_prev s) (dest_idx s) in
          let* out_buffer' :=
            bytearray_setitem out_buffer out_buffer_pos (Z.lxor a b) in
          output_loop fuel' self src out_buffer_len out_buffer'
                      (out_buffer_pos + 1) (set_dest_idx s (dest_idx s + 1))
        else if dest_idx s =? 8 then
          let* s' := crypt_block self src s in
          output_loop fuel' self src out_buffer_len out_buffer out_buffer_pos s'
        else
          output_loop fuel' self src out_buffer_len out_buffer out_buffer_pos s
    end
  else Ok (out_buffer, s).

(** [for i in range(1, self._zero_len): if dest_data[dest_idx] !=
    iv_prev[dest_idx]: raise ...]; the body uses neither [i] nor changes
    [dest_idx]. *)
Fixpoint zero_check (indices : list Z) (s : locals) : result unit :=
  match indices with
  | [] => Ok tt
  | _ :: rest =>
      let* a := py_getitem (dest_data s) (dest_idx s) in
      let* b := py_getitem (iv_prev s) (dest_idx s) in
      if negb (a =? b) then Raise (DecryptionError ZeroCheckFailed)
      else zero_check rest s
  end.

Definition decrypt (fuel : nat) (self : t) (src : list Z) : result (list Z) :=
  let src_len := len src in
  if negb (src_len mod 8 =? 0) then
    Raise (DecryptionError NotMultipleOfBlockSize)
  else if src_len <? 16 then Raise (DecryptionError SourceTooSmall)
  else
    let* dest_data := original_tea_decrypt self src in
    let* d0 := py_getitem dest_data 0 in
    let pad_len := Z.land d0 7 in
    let out_buffer_len := src_len - pad_len - _salt_len self - _zero_len self - 1 in
    if negb (pad_len + _salt_len self =? 8) then
      Raise (DecryptionError InvalidPadLen)
    else
      let* out_buffer := py_bytearray out_buffer_len in
      let s := {| iv_prev := []; iv_cur := []; dest_data := dest_data;
                  src_pos := 8; dest_idx := pad_len + 1 |} in
      let* s := salt_loop fuel self src 1 s in
      let* '(out_buffer, s) :=
        output_loop fuel self src out_buffer_len out_buffer 0 s in
      let* _ := zero_check (py_range 1 (_zero_len self)) s in
      Ok out_buffer.

End TC_TEACipher.

(** ** The positional mask ciphers *)

Module QMCv1_StaticMapCipher.

Definition __static_cipher_box : list Z :=
  [ 0x77; 0x48; 0x32; 0x73; 0xde; 0xf2; 0xc0; 0xc8;
    0x95; 0xec; 0x30; 0xb2; 0x51; 0xc3; 0xe1; 0xa0;
    0x9e; 0xe6; 0x9d; 0xcf; 0xfa; 0x7f; 0x14; 0xd1;
    0xce; 0xb8; 0xdc; 0xc3; 0x4a; 0x67; 0x93; 0xd6;
    0x28; 0xc2; 0x91; 0x70; 0xca; 0x8d; 0xa2; 0xa4;
    0xf0; 0x08; 0x61; 0x90; 0x7e; 0x6f; 0xa2; 0xe0;
    0xeb; 0xae; 0x3e; 0xb6; 0x67; 0xc7; 0x92; 0xf4;
    0x91; 0xb5; 0xf6; 0x6c; 0x5e; 0x84; 0x40; 0xf7;
    0xf3; 0x1b; 0x02; 0x7f; 0xd5; 0xab; 0x41; 0x89;
    0x28; 0xf4; 0x25; 0xcc; 0x52; 0x11; 0xad; 0x43;
    0x68; 0xa6; 0x41; 0x8b; 0x84; 0xb5; 0xff; 0x2c;
    0x92; 0x4a; 0x26; 0xd8; 0x47; 0x6a; 0x7c; 0x95;
    0x61; 0xcc; 0xe6; 0xcb; 0xbb; 0x3f; 0x47; 0x58;
    0x89; 0x75; 0xc3; 0x75; 0xa1; 0xd9; 0xaf; 0xcc;
    0x08; 0x73; 0x17; 0xdc; 0xaa; 0x9a; 0xa2; 0x16;
    0x41; 0xd8; 0xa2; 0x06; 0xc6; 0x8b; 0xfc; 0x66;
    0x34; 0x9f; 0xcf; 0x18; 0x23; 0xa0; 0x0a; 0x74;
    0xe7; 0x2b; 0x27; 0x70; 0x92; 0xe9; 0xaf; 0x37;
    0xe6; 0x8c; 0xa7; 0xbc; 0x62; 0x65; 0x9c; 0xc2;
    0x08; 0xc9; 0x88; 0xb3; 0xf3; 0x43; 0xac; 0x74;
    0x2c; 0x0f; 0xd4; 0xaf; 0xa1; 0xc3; 0x01; 0x64;
    0x95; 0x4e; 0x48; 0x9f; 0xf4; 0x35; 0x78; 0x95;
    0x7a; 0x39; 0xd6; 0x6a; 0xa0; 0x6d; 0x40; 0xe8;
    0x4f; 0xa8; 0xef; 0x11; 0x1d; 0xf3; 0x1b; 0x3f;
    0x3f; 0x07; 0xdd; 0x6f; 0x5b; 0x19; 0x30; 0x19;
    0xfb; 0xef; 0x0e; 0x37; 0xf0; 0x0e; 0xcd; 0x16;
    0x49; 0xfe; 0x53; 0x47; 0x13; 0x1a; 0xbd; 0xa4;
    0xf1; 0x40; 0x19; 0x60; 0x0e; 0xed; 0x68; 0x09;
    0x06; 0x5f; 0x4d; 0xcf; 0x3d; 0x1a; 0xfe; 0x20;
    0x77; 0xe4; 0xd9; 0xda; 0xf9; 0xa4; 0x2b; 0x76;
    0x1c; 0x71; 0xdb; 0x00; 0xbc; 0xfd; 0x0c; 0x6c;
    0xa5; 0x47; 0xf7; 0xf6; 0x00; 0x79; 0x4a; 0x11 ].

Definition _get_mask (offset : Z) : result Z :=
  let offset := if offset >? 0x7fff then offset mod 0x7fff else offset in
  let idx := Z.land (offset ^ 2 + 27) 0xff in
  py_getitem __static_cipher_box idx.

Definition decrypt (src_data : list Z) (offset : Z) : result (list Z) :=
  py_bytes_of
    (fun i =>
       let* b := py_getitem src_data i in
       let* m := _get_mask (offset + i) in
       Ok (Z.lxor b m))
    (py_range 0 (len src_data)).

End QMCv1_StaticMapCipher.

Module QMCv2_DynamicMapCipher.

(** Modelled from the spec: the [Cipher] base class of [..common] keeps
    the key given to [__init__]; [key_length] is its length. *)
Record t := { key : list Z }.

Definition key_length (self : t) : Z := len (key self).

Definition __init__ (key : list Z) : result t := Ok {| key := key |}.

Definition _rotate (value bits : Z) : Z :=
  let rotated := (bits + 4) mod 8 in
  let left := Z.shiftl value rotated mod 256 in
  let right := Z.shiftr value rotated mod 256 in
  Z.lor left right.

Definition _get_mask (self : t) (offset : Z) : result Z :=
  let offset := if offset >? 0x7fff then offset mod 0x7fff else offset in
  let* idx := py_mod (offset ^ 2 + 71214) (key_length self) in
  let* value := py_getitem (key self) idx in
  Ok (_rotate value (Z.land idx 7)).

Definition decrypt (self : t) (src_data : list Z) (offset : Z) : result (list Z) :=
  py_bytes_of
    (fun i =>
       let* b := py_getitem src_data i in
       let* m := _get_mask self (offset + i) in
       Ok (Z.lxor b m))
    (py_range 0 (len src_data)).

End QMCv2_DynamicMapCipher.

(** ** Python runtime: floats

    [_get_segment_skip] computes [int(hash / d * 100)] in binary64.  A
    finite binary64 value is kept exactly, as [m * 2 ^ e]; an operation
    returns the representable value nearest to the exact result, ties to
    even (53 significant bits, last place no smaller than [2 ^ -1074]). *)

Inductive float :=
| Finite (m e : Z)
| Infinity (negative : bool).

(** The integer nearest to [n / d], ties to even, for [0 <= n] and [0 < d]. *)
Definition round_half_even (n d : Z) : Z :=
  let q := n / d in
  let r := n mod d in
  if 2 * r <? d then q
  else if d <? 2 * r then q + 1
  else if Z.even q then q else q + 1.

(** The binary64 value nearest to [n / d], for [0 < n] and [0 < d]. *)
Definition nearest_binary64 (n d : Z) : Z * Z :=
  let e0 := Z.log2 n - Z.log2 d in
  let l := if (if 0 <=? e0 then d * 2 ^ e0 <=? n else d <=? n * 2 ^ (- e0))
           then e0 else e0 - 1 in
  let e := Z.max (l - 52) (-1074) in
  let m := if 0 <=? e then round_half_even n (d * 2 ^ e)
           else round_half_even (n * 2 ^ (- e)) d in
  (m, e).

(** Rounding of the exact rational [n / d], [0 < d], with overflow to an
    infinity. *)
Definition float_of_ratio (n d : Z) : float :=
  if n =? 0 then Finite 0 0
  else
    let '(m, e) := nearest_binary64 (Z.abs n) d in
    if (971 <? e) || ((e =? 971) && (2 ^ 53 <=? m)) then Infinity (n <? 0)
    else Finite (Z.sgn n * m) e.

(** [a / b] on two [int]s: correctly rounded; raises on a zero divisor
    and on a quotient too large for a float. *)
Definition py_truediv (a b : Z) : result float :=
  if b =? 0 then Raise ZeroDivisionError
  else match float_of_ratio (a * Z.sgn b) (Z.abs b) with
       | Infinity _ => Raise OverflowError
       | x => Ok x
       end.

(** [x * k] for a float [x] and a positive [int] [k] below [2 ^ 53] (which
    converts to a float exactly). *)
Definition py_float_mul_int (x : float) (k : Z) : float :=
  match x with
  | Finite m e =>
      if 0 <=? e then float_of_ratio (m * k * 2 ^ e) 1
      else float_of_ratio (m * k) (2 ^ (- e))
  | Infinity s => Infinity s
  end.

(** [int(x)]: truncation towards zero. *)
Definition py_int (x : float) : result Z :=
  match x with
  | Finite m e => Ok (if 0 <=? e then m * 2 ^ e else Z.quot m (2 ^ (- e)))
  | Infinity _ => Raise OverflowError
  end.

(** ** QMCv2_RC4Cipher

    The scheduled box is a [bytearray] object that the instance keeps for
    its whole life and that [_enc_another_segment] copies; it lives in a
    store of objects, and the instance refers to it by location.  The
    other byte buffers of this class are created, used and dropped inside
    one call ([bytearray(buf)], a slice), so they are plain values. *)

Definition loc := positive.

Module QMCv2_RC4Cipher.

(** Modelled from the spec: the [Cipher] base class of [..common] keeps
    the key given to [__init__] ([key]); [key_length] is its length.
    [_box] and [_hash] are unset until [__init__] assigns them. *)
Record instance := {
  key : list Z;
  _box : option loc;
  _hash : option Z
}.

Record world := {
  self : instance;
  heap : gmap loc (list Z)
}.

Definition M (A : Type) : Type := world -> result A * world.

Definition ret {A} (a : A) : M A := fun w => (Ok a, w).
Definition raise {A} (e : exn) : M A := fun w => (Raise e, w).
Definition lift {A} (r : result A) : M A := fun w => (r, w).
Definition bind {A B} (m : M A) (k : A -> M B) : M B :=
  fun w => match m w with
           | (Ok a, w') => k a w'
           | (Raise e, w') => (Raise e, w')
           end.


Declare Scope rc4_scope.
Delimit Scope rc4_scope with rc4.
Notation "'let!' x ':=' m 'in' k" := (bind m (fun x => k))
  (at level 10, x name, m at level 100, k at level 200) : rc4_scope.
Notation "'let!' ' p ':=' m 'in' k" := (bind m (fun x => let 'p := x in k))
  (at level 10, p pattern, m at level 100, k at level 200) : rc4_scope.
Notation "m ';;' k" := (bind m (fun _ => k))
  (at level 100, k at level 200, right associativity) : rc4_scope.
Open Scope rc4_scope.

(** *** Attributes of [self] *)

Definition get_key : M (list Z) := fun w => (Ok (key (self w)), w).

Definition key_length : M Z := fun w => (Ok (len (key (self w))), w).

(** The property [box]: the stored object itself, not a copy. *)
Definition box : M loc :=
  fun w => match _box (self w) with
           | Some b => (Ok b, w)
           | None => (Raise AttributeError, w)
           end.

(** The property [hash]. *)
Definition hash : M Z :=
  fun w => match _hash (self w) with
           | Some h => (Ok h, w)
           | None => (Raise AttributeError, w)
           end.

Definition set_box (b : loc) : M unit :=
  fun w => (Ok tt, {| self := {| key := key (self w); _box := Some b;
                                 _hash := _hash (self w) |};
                      heap := heap w |}).

Definition set_hash (h : Z) : M unit :=
  fun w => (Ok tt, {| self := {| key := key (self w); _box := _box (self w);
                                 _hash := Some h |};
                      heap := heap w |}).

(** *** [bytearray] objects in the store *)

(** A new object, at a location no object has. *)
Definition new_bytearray (v : list Z) : M loc :=
  fun w => let l := fresh (dom (heap w)) in
           (Ok l, {| self := self w; heap := <[l := v]> (heap w) |}).

(** [r.copy()] *)
Definition bytearray_copy (r : loc) : M loc :=
  fun w => match heap w !! r with
           | Some v => new_bytearray v w
           | None => (Raise ReferenceError, w)
           end.

(** [r[i]] *)
Definition getitem (r : loc) (i : Z) : M Z :=
  fun w => match heap w !! r with
           | Some v => (py_getitem v i, w)
           | None => (Raise ReferenceError, w)
           end.

(** [r[i] = x] *)
Definition setitem (r : loc) (i x : Z) : M unit :=
  fun w => match heap w !! r with
           | Some v =>
               match bytearray_setitem v i x with
               | Ok v' => (Ok tt, {| self := self w; heap := <[r := v']> (heap w) |})
               | Raise e => (Raise e, w)
               end
           | None => (Raise ReferenceError, w)
           end.

(** *** Loops *)

(** [for i in indices: ...], the body acting on the local variables [s]. *)
Fixpoint for_each {S : Type} (indices : list Z) (body : Z -> S -> M S) (s : S)
  : M S :=
  match indices with
  | [] => ret s
  | i :: rest => let! s' := body i s in for_each rest body s'
  end.

(** [while cond: ...], bounded by fuel. *)
Fixpoint while {S : Type} (fuel : nat) (cond : S -> bool) (body : S -> M S)
         (s : S) : M S :=
  if cond s then
    match fuel with
    | O => raise OutOfFuel
    | Datatypes.S fuel' => let! s' := body s in while fuel' cond body s'
    end
  else ret s.

(** *** The methods *)

(** The loop of [_get_hash_base] over the bytes [self.key[i]], in order:
    [continue] on a zero byte, [break] when the product stops growing. *)
Fixpoint hash_loop (key_bytes : list Z) (hash_base : Z) : Z :=
  match key_bytes with
  | [] => hash_base
  | v :: rest =>
      if v =? 0 then hash_loop rest hash_base
      else
        let next_hash := Z.land (hash_base * v) 0xffffffff in
        if (next_hash =? 0) || (next_hash <=? hash_base) then hash_base
        else hash_loop rest next_hash
  end.

Definition _get_hash_base : M Z :=
  let! key := get_key in
  ret (hash_loop key 1).

(** The body of the key-scheduling loop of [__init__], on [j]. *)
Definition schedule_body (i : Z) (j : Z) : M Z :=
  let! b := box in
  let! bi := getitem b i in
  let! key := get_key in
  let! n := key_length in
  let! ki := lift (let* r := py_mod i n in py_getitem key r) in
  let! n := key_length in
  let! j := lift (py_mod (j + bi + ki) n) in
  let! bj := getitem b j in
  let! bi := getitem b i in
  setitem b i bj;;
  setitem b j bi;;
  ret j.

(** The body of [__init__] after [super().__init__(key)]. *)
Definition __init__ : M unit :=
  let! n := key_length in
  if n =? 0 then raise CipherGenerationError
  else
    let! b := new_bytearray ((fun i => i mod 256) <$> py_range 0 n) in
    set_box b;;
    let! n := key_length in
    let! _ := for_each (py_range 0 n) schedule_body 0 in
    let! h := _get_hash_base in
    set_hash h.

(** The object [QMCv2_RC4Cipher(key)] is run on: the base class has
    stored the key, nothing else is set. *)
Definition instantiate (key : list Z) (h : gmap loc (list Z)) : world :=
  {| self := {| key := key; _box := None; _hash := None |}; heap := h |}.

Definition _get_segment_skip (v : Z) : M Z :=
  let! key := get_key in
  let! n := key_length in
  let! seed := lift (let* r := py_mod v n in py_getitem key r) in
  let! h := hash in
  let! idx := lift (let* q := py_truediv h ((v + 1) * seed) in
                    py_int (py_float_mul_int q 100)) in
  let! n := key_length in
  lift (py_mod idx n).

(** The body of the loop of [_enc_1st_segment], on [buf]. *)
Definition first_segment_body (offset : Z) (i : Z) (buf : list Z) : M (list Z) :=
  let! a := lift (py_getitem buf i) in
  let! key := get_key in
  let! s := _get_segment_skip (offset + i) in
  let! x := lift (py_getitem key s) in
  lift (bytearray_setitem buf i (Z.lxor a x)).

Definition _enc_1st_segment (buf : list Z) (offset : Z) : M (list Z) :=
  for_each (py_range 0 (len buf)) (first_segment_body offset) buf.

(** The body of the loop of [_enc_another_segment], on [(j, k, buf)];
    [box] is the copy. *)
Definition walk_body (box : loc) (i : Z) (s : Z * Z * list Z)
  : M (Z * Z * list Z) :=
  let '(j, k, buf) := s in
  let! n := key_length in
  let! j := lift (py_mod (j + 1) n) in
  let! bj := getitem box j in
  let! n := key_length in
  let! k := lift (py_mod (bj + k) n) in
  let! bk := getitem box k in
  let! bj := getitem box j in
  setitem box j bk;;
  setitem box k bj;;
  if 0 <=? i then
    let! a := lift (py_getitem buf i) in
    let! bj := getitem box j in
    let! bk := getitem box k in
    let! n := key_length in
    let! t := lift (py_mod (bj + bk) n) in
    let! x := getitem box t in
    let! buf := lift (bytearray_setitem buf i (Z.lxor a x)) in
    ret (j, k, buf)
  else ret (j, k, buf).

Definition _enc_another_segment (buf : list Z) (offset : Z) : M (list Z) :=
  let! b := box in
  let! box := bytearray_copy b in
  let! m := lift (py_mod offset 5120) in
  let! d := lift (py_floordiv offset 5120) in
  let! s := _get_segment_skip d in
  let skip_len := m + s in
  let! '(_, _, buf) :=
    for_each (py_range (- skip_len) (len buf)) (walk_body box) (0, 0, buf) in
  ret buf.

(** The variables of [decrypt] that the closure [mark_process] rebinds,
    with the working buffer [src]. *)
Record locals := {
  src : list Z;
  offset : Z;
  pending : Z;
  done : Z
}.

Definition mark_process (p : Z) (s : locals) (src' : list Z) : locals * bool :=
  ({| src := src'; offset := offset s + p; pending := pending s - p;
      done := done s + p |},
   pending s - p =? 0).

(** [decrypt] from the first test on: the part in the first segment. *)
Definition decrypt_first (s : locals) : M (locals * bool) :=
  if offset s <? 128 then
    let blksize := if pending s >? 128 - offset s then 128 - offset s
                   else pending s in
    let! r := _enc_1st_segment (py_slice (src s) 0 blksize) (offset s) in
    ret (mark_process blksize s (py_slice_assign (src s) 0 blksize r))
  else ret (s, false).

(** The rest of the segment [offset] falls in. *)
Definition decrypt_unaligned (s : locals) : M (locals * bool) :=
  if negb (offset s mod 5120 =? 0) then
    let blksize := if pending s >? 5120 - offset s mod 5120
                   then 5120 - offset s mod 5120 else pending s in
    let! r := _enc_another_segment
                (py_slice (src s) (done s) (done s + blksize)) (offset s) in
    ret (mark_process blksize s
           (py_slice_assign (src s) (done s) (done s + blksize) r))
  else ret (s, false).

(** The body of [while pending > 5120]. *)
Definition decrypt_whole_segment (s : locals) : M locals :=
  let! r := _enc_another_segment
              (py_slice (src s) (done s) (done s + 5120)) (offset s) in
  ret (fst (mark_process 5120 s
              (py_slice_assign (src s) (done s) (done s + 5120) r))).

(** [if pending > 0: src[done:] = ...] *)
Definition decrypt_tail (s : locals) : M (list Z) :=
  if pending s >? 0 then
    let! r := _enc_another_segment (drop (Z.to_nat (done s)) (src s)) (offset s) in
    ret (take (Z.to_nat (done s)) (src s) ++ r)
  else ret (src s).

Definition decrypt (fuel : nat) (src_data : list Z) (offset : Z) : M (list Z) :=
  let s := {| src := src_data; offset := offset; pending := len src_data;
              done := 0 |} in
  let! '(s, pending_is_0) := decrypt_first s in
  if pending_is_0 then ret (src s)
  else
    let! '(s, pending_is_0) := decrypt_unaligned s in
    if pending_is_0 then ret (src s)
    else
      let! s := while fuel (fun s => pending s >? 5120) decrypt_whole_segment s in
      decrypt_tail s.

End QMCv2_RC4Cipher.

(** ** The generator-style classes

    [QMCv1_ImprovedStaticMapCipher], [QMCv2_ImprovedDynamicMapCipher] and
    [QMCv2_ImprovedRC4Cipher] write the three stream ciphers again, with
    generators.  Each generator of these classes is consumed where it is
    created, by [bytes(...)] or by the assignment to a slice of a
    [bytearray], which run it to its end: it is modelled with its
    consumer, as the bytes taken from it or the exception that stops
    it. *)

Module QMCv1_ImprovedStaticMapCipher.

Definition _static_cipher_box : list Z :=
  [ 0x77; 0x48; 0x32; 0x73; 0xde; 0xf2; 0xc0; 0xc8;
    0x95; 0xec; 0x30; 0xb2; 0x51; 0xc3; 0xe1; 0xa0;
    0x9e; 0xe6; 0x9d; 0xcf; 0xfa; 0x7f; 0x14; 0xd1;
    0xce; 0xb8; 0xdc; 0xc3; 0x4a; 0x67; 0x93; 0xd6;
    0x28; 0xc2; 0x91; 0x70; 0xca; 0x8d; 0xa2; 0xa4;
    0xf0; 0x08; 0x61; 0x90; 0x7e; 0x6f; 0xa2; 0xe0;
    0xeb; 0xae; 0x3e; 0xb6; 0x67; 0xc7; 0x92; 0xf4;
    0x91; 0xb5; 0xf6; 0x6c; 0x5e; 0x84; 0x40; 0xf7;
    0xf3; 0x1b; 0x02; 0x7f; 0xd5; 0xab; 0x41; 0x89;
    0x28; 0xf4; 0x25; 0xcc; 0x52; 0x11; 0xad; 0x43;
    0x68; 0xa6; 0x41; 0x8b; 0x84; 0xb5; 0xff; 0x2c;
    0x92; 0x4a; 0x26; 0xd8; 0x47; 0x6a; 0x7c; 0x95;
    0x61; 0xcc; 0xe6; 0xcb; 0xbb; 0x3f; 0x47; 0x58;
    0x89; 0x75; 0xc3; 0x75; 0xa1; 0xd9; 0xaf; 0xcc;
    0x08; 0x73; 0x17; 0xdc; 0xaa; 0x9a; 0xa2; 0x16;
    0x41; 0xd8; 0xa2; 0x06; 0xc6; 0x8b; 0xfc; 0x66;
    0x34; 0x9f; 0xcf; 0x18; 0x23; 0xa0; 0x0a; 0x74;
    0xe7; 0x2b; 0x27; 0x70; 0x92; 0xe9; 0xaf; 0x37;
    0xe6; 0x8c; 0xa7; 0xbc; 0x62; 0x65; 0x9c; 0xc2;
    0x08; 0xc9; 0x88; 0xb3; 0xf3; 0x43; 0xac; 0x74;
    0x2c; 0x0f; 0xd4; 0xaf; 0xa1; 0xc3; 0x01; 0x64;
    0x95; 0x4e; 0x48; 0x9f; 0xf4; 0x35; 0x78; 0x95;
    0x7a; 0x39; 0xd6; 0x6a; 0xa0; 0x6d; 0x40; 0xe8;
    0x4f; 0xa8; 0xef; 0x11; 0x1d; 0xf3; 0x1b; 0x3f;
    0x3f; 0x07; 0xdd; 0x6f; 0x5b; 0x19; 0x30; 0x19;
    0xfb; 0xef; 0x0e; 0x37; 0xf0; 0x0e; 0xcd; 0x16;
    0x49; 0xfe; 0x53; 0x47; 0x13; 0x1a; 0xbd; 0xa4;
    0xf1; 0x40; 0x19; 0x60; 0x0e; 0xed; 0x68; 0x09;
    0x06; 0x5f; 0x4d; 0xcf; 0x3d; 0x1a; 0xfe; 0x20;
    0x77; 0xe4; 0xd9; 0xda; 0xf9; 0xa4; 0x2b; 0x76;
    0x1c; 0x71; 0xdb; 0x00; 0xbc; 0xfd; 0x0c; 0x6c;
    0xa5; 0x47; 0xf7; 0xf6; 0x00; 0x79; 0x4a; 0x11 ].

(** The body of the loop of [_yield_mask]: the value yielded for [i]. *)
Definition mask_at (i : Z) : result Z :=
  let i := if i >? 0x7fff then i mod 0x7fff else i in
  let idx := Z.land (i ^ 2 + 27) 0xff in
  py_getitem _static_cipher_box idx.

(** [bytes(self._yield_mask(buffer_len, offset))], the stream of
    [decrypt].  ([decrypt] hands the stream and the source to
    [xor_bytestrings] of [takiyasha.utils].) *)
Definition _yield_mask (buffer_len offset : Z) : result (list Z) :=
  py_bytes_of mask_at (py_range offset (offset + buffer_len)).

End QMCv1_ImprovedStaticMapCipher.

Module QMCv2_ImprovedDynamicMapCipher.

(** Modelled from the spec: the [StreamCipher] base class of [..common]
    keeps the key given to [__init__]; [key_length] is its length. *)
Record t := { key : list Z }.

Definition key_length (self : t) : Z := len (key self).

Definition __init__ (key : list Z) : result t := Ok {| key := key |}.

(** The body of the loop of [_yield_mask]: the value yielded for [i]. *)
Definition mask_at (self : t) (i : Z) : result Z :=
  let i := if i >? 0x7fff then i mod 0x7fff else i in
  let* idx := py_mod (i ^ 2 + 71214) (key_length self) in
  let* rotete_value := py_getitem (key self) idx in
  let rotated := (Z.land idx 7 + 4) mod 8 in
  Ok (Z.lor (Z.shiftl rotete_value rotated mod 256)
            (Z.shiftr rotete_value rotated mod 256)).

(** [bytes(self._yield_mask(buffer_len, offset))], the stream of
    [decrypt]. *)
Definition _yield_mask (self : t) (buffer_len offset : Z) : result (list Z) :=
  py_bytes_of (mask_at self) (py_range offset (offset + buffer_len)).

End QMCv2_ImprovedDynamicMapCipher.

Module QMCv2_ImprovedRC4Cipher.

(** The attributes are those of [QMCv2_RC4Cipher] ([key], [_box],
    [_hash]), and so are the instance, the store and the monad.  The
    two segment sizes are set once, by [__init__]. *)
Import QMCv2_RC4Cipher.

Definition _rc4_1st_segment_size : Z := 128.
Definition _rc4_segment_size : Z := 5120.

(** The body of [__init__] after [super().__init__(key)].  The key
    length is not tested here; the loop and [_get_hash_base] are, word
    for word, those of [QMCv2_RC4Cipher]. *)
Definition __init__ : M unit :=
  let! n := key_length in
  let! b := new_bytearray ((fun i => i mod 256) <$> py_range 0 n) in
  set_box b;;
  let! n := key_length in
  let! _ := for_each (py_range 0 n) schedule_body 0 in
  let! h := _get_hash_base in
  set_hash h.

Definition _get_segment_skip (v : Z) : M Z :=
  let! key := get_key in
  let! key_len := key_length in
  let! hash_ := hash in
  let! seed := lift (let* r := py_mod v key_len in py_getitem key r) in
  let! idx := lift (let* q := py_truediv hash_ ((v + 1) * seed) in
                    py_int (py_float_mul_int q 100)) in
  lift (py_mod idx key_len).

(** [bytes(f(i) for i in indices)], [f] reading the instance: items
    are produced and checked in turn. *)
Fixpoint bytes_of (f : Z -> M Z) (indices : list Z) : M (list Z) :=
  match indices with
  | [] => ret []
  | i :: rest =>
      let! x := f i in
      if is_byte x then
        let! r := bytes_of f rest in
        ret (x :: r)
      else raise ValueError
  end.

(** [for b1, b2 in zip(stream, buffer): yield b1 ^ b2], run to its end. *)
Definition xor_zip (stream buffer : list Z) : list Z :=
  zip_with Z.lxor stream buffer.

(** The values of the generator [_yield_1st_segment]; the stream is
    built whole before the first of them. *)
Definition _yield_1st_segment (buffer : list Z) (offset : Z) : M (list Z) :=
  let! key := get_key in
  let! stream :=
    bytes_of (fun i => let! s := _get_segment_skip (offset + i) in
                       lift (py_getitem key s))
             (py_range 0 (len buffer)) in
  ret (xor_zip stream buffer).

(** The body of the loop of [yield_stream_bytes], on [(j, k)] and the
    bytes that [bytes(...)] has taken so far; [box] is the copy. *)
Definition stream_body (box : loc) (key_len : Z) (i : Z) (s : Z * Z * list Z)
  : M (Z * Z * list Z) :=
  let '(j, k, stream) := s in
  let! j := lift (py_mod (j + 1) key_len) in
  let! bj := getitem box j in
  let! k := lift (py_mod (bj + k) key_len) in
  let! bk := getitem box k in
  let! bj := getitem box j in
  setitem box j bk;;
  setitem box k bj;;
  if 0 <=? i then
    let! bj := getitem box j in
    let! bk := getitem box k in
    let! t := lift (py_mod (bj + bk) key_len) in
    let! x := getitem box t in
    if is_byte x then ret (j, k, stream ++ [x]) else raise ValueError
  else ret (j, k, stream).

(** The values of the generator [_yield_another_segment]. *)
Definition _yield_another_segment (buffer : list Z) (offset : Z) : M (list Z) :=
  let! b := box in
  let! box := bytearray_copy b in
  let! key_len := key_length in
  let! m := lift (py_mod offset _rc4_segment_size) in
  let! d := lift (py_floordiv offset _rc4_segment_size) in
  let! s := _get_segment_skip d in
  let skip_len := m + s in
  let! '(_, _, stream) :=
    for_each (py_range (- skip_len) (len buffer)) (stream_body box key_len)
             (0, 0, []) in
  ret (xor_zip stream buffer).

(** The bytes a slice of a [bytearray] is assigned from the values of a
    generator: each value must be in [range(256)]. *)
Definition bytearray_of_items (items : list Z) : result (list Z) :=
  if forallb is_byte items then Ok items else Raise ValueError.

(** [decrypt] from the first test on; its variables and [mark_process]
    are those of [QMCv2_RC4Cipher.decrypt]. *)
Definition decrypt_first (s : locals) : M (locals * bool) :=
  if offset s <? _rc4_1st_segment_size then
    let blksize := if pending s >? _rc4_1st_segment_size - offset s
                   then _rc4_1st_segment_size - offset s
                   else pending s in
    let! items := _yield_1st_segment (py_slice (src s) 0 blksize) (offset s) in
    let! r := lift (bytearray_of_items items) in
    ret (mark_process blksize s (py_slice_assign (src s) 0 blksize r))
  else ret (s, false).

Definition decrypt_unaligned (s : locals) : M (locals * bool) :=
  if negb (offset s mod _rc4_segment_size =? 0) then
    let blksize := if pending s >? _rc4_segment_size - offset s mod _rc4_segment_size
                   then _rc4_segment_size - offset s mod _rc4_segment_size
                   else pending s in
    let! items := _yield_another_segment
                    (py_slice (src s) (done s) (done s + blksize)) (offset s) in
    let! r := lift (bytearray_of_items items) in
    ret (mark_process blksize s
           (py_slice_assign (src s) (done s) (done s + blksize) r))
  else ret (s, false).

(** The body of [while pending > another_segment_size]. *)
Definition decrypt_whole_segment (s : locals) : M locals :=
  let! items := _yield_another_segment
                  (py_slice (src s) (done s) (done s + _rc4_segment_size))
                  (offset s) in
  let! r := lift (bytearray_of_items items) in
  ret (fst (mark_process _rc4_segment_size s
              (py_slice_assign (src s) (done s) (done s + _rc4_segment_size) r))).

(** [if pending > 0: src_data[done:] = ...] *)
Definition decrypt_tail (s : locals) : M (list Z) :=
  if pending s >? 0 then
    let! items := _yield_another_segment (drop (Z.to_nat (done s)) (src s))
                    (offset s) in
    let! r := lift (bytearray_of_items items) in
    ret (take (Z.to_nat (done s)) (src s) ++ r)
  else ret (src s).

Definition decrypt (fuel : nat) (src : list Z) (offset : Z) : M (list Z) :=
  let s := {| QMCv2_RC4Cipher.src := src; QMCv2_RC4Cipher.offset := offset;
              pending := len src; done := 0 |} in
  let! '(s, pending_is_0) := decrypt_first s in
  if pending_is_0 then ret (QMCv2_RC4Cipher.src s)
  else
    let! '(s, pending_is_0) := decrypt_unaligned s in
    if pending_is_0 then ret (QMCv2_RC4Cipher.src s)
    else
      let! s := while fuel (fun s => pending s >? _rc4_segment_size)
                      decrypt_whole_segment s in
      decrypt_tail s.

End QMCv2_ImprovedRC4Cipher.

(** * Specification-level definitions *)

(** Indexing with a default, for indices known to be in range. *)
Definition zth (l : list Z) (i : Z) : Z := nth (Z.to_nat i) l 0.

(** The bytes of a buffer XORed with a keystream read from [offset] on. *)
Fixpoint xor_keystream (ks : Z -> Z) (buf : list Z) (offset : Z) : list Z :=
  match buf with
  | [] => []
  | b :: rest => Z.lxor b (ks offset) :: xor_keystream ks rest (offset + 1)
  end.

(** The value of a mask function that cannot fail. *)
Definition mask_of (mask : Z -> result Z) (p : Z) : Z :=
  match mask p with
  | Ok m => m
  | Raise _ => 0
  end.

(** The 8-bit rotation to the left that the specification speaks of. *)
Definition rotate_left8 (v r : Z) : Z :=
  Z.lor (Z.shiftl v r) (Z.shiftr v (8 - r)) mod 256.

(** An unsigned 32-bit word. *)
Definition word (v : Z) : Prop := 0 <= v < 2 ^ 32.

Definition words (s : Z * Z * Z) : Prop :=
  word (fst (fst s)) /\ word (snd (fst s)) /\ word (snd s).

(** The pad length read from the header block, as [decrypt] computes it. *)
Definition header_pad_len (self : TC_TEACipher.t) (src : list Z) : result Z :=
  let* dest_data := TC_TEACipher.original_tea_decrypt self src in
  let* d0 := py_getitem dest_data 0 in
  Ok (Z.land d0 7).

(** A TEA key of sixteen zero bytes, 64 rounds, the usual constant. *)
Definition zero_key : list Z := replicate 16 0.

Definition envelope0 : TC_TEACipher.t :=
  {| TC_TEACipher._key := zero_key; TC_TEACipher._delta := 0x9e3779b9;
     TC_TEACipher._rounds := 64; TC_TEACipher._salt_len := 2;
     TC_TEACipher._zero_len := 7 |}.

(** The TEA encryption, under [zero_key], of a header block whose first
    byte is 6. *)
Definition header6 : list Z := [71; 221; 177; 141; 84; 67; 247; 209].

Definition envelope16 : list Z := header6 ++ replicate 8 0.
Definition envelope24 : list Z := header6 ++ replicate 16 0.

(** [framed h0 m Q]: run in a store that has the objects of [h0], [m]
    leaves them as they are, keeps the attributes of [self], and returns
    a value that satisfies [Q] (when it returns one). *)
Definition framed (h0 : gmap loc (list Z)) {A} (m : QMCv2_RC4Cipher.M A) (Q : A -> Prop) : Prop :=
  forall w, h0 ⊆ QMCv2_RC4Cipher.heap w ->
    h0 ⊆ QMCv2_RC4Cipher.heap (snd (m w))
    /\ QMCv2_RC4Cipher.self (snd (m w)) = QMCv2_RC4Cipher.self w
    /\ match fst (m w) with Ok a => Q a | Raise _ => True end.

(** One pass of the body of the loop of [_enc_another_segment] on
    [(j, k, box)], and the byte it emits. *)
Definition rc4_step (n : Z) (st : Z * Z * list Z) : Z * Z * list Z :=
  let '(j, k, bx) := st in
  let j1 := (j + 1) mod n in
  let k1 := (zth bx j1 + k) mod n in
  (j1, k1, <[Z.to_nat k1 := zth bx j1]> (<[Z.to_nat j1 := zth bx k1]> bx)).

Definition rc4_out (n : Z) (st : Z * Z * list Z) : Z :=
  let '(j, k, bx) := st in
  zth bx ((zth bx j + zth bx k) mod n).

Definition box_ok (n : Z) (st : Z * Z * list Z) : Prop :=
  len (snd st) = n /\ bytes_ok (snd st).

(** The store with the object at [l] replaced. *)
Definition upd (w : QMCv2_RC4Cipher.world) (l : loc) (v : list Z) : QMCv2_RC4Cipher.world :=
  {| QMCv2_RC4Cipher.self := QMCv2_RC4Cipher.self w;
     QMCv2_RC4Cipher.heap := <[l := v]> (QMCv2_RC4Cipher.heap w) |}.

(** The loop of [_enc_another_segment] on values: the state of the walk
    and the buffer after the passes for [indices]. *)
Fixpoint walk (n : Z) (indices : list Z) (st : Z * Z * list Z) (buf : list Z)
  : (Z * Z * list Z) * list Z :=
  match indices with
  | [] => (st, buf)
  | i :: rest =>
      let st' := rc4_step n st in
      walk n rest st'
           (if 0 <=? i then <[Z.to_nat i := Z.lxor (zth buf i) (rc4_out n st')]> buf
            else buf)
  end.

(** The bytes of [buf] XORed with the bytes the walk emits from [st] on. *)
Fixpoint emit (n : Z) (st : Z * Z * list Z) (buf : list Z) : list Z :=
  match buf with
  | [] => []
  | b :: rest =>
      let st' := rc4_step n st in
      Z.lxor b (rc4_out n st') :: emit n st' rest
  end.

(** What [_get_segment_skip] computes from the key and the hash. *)
Definition segment_skip (key : list Z) (hash : Z) (v : Z) : result Z :=
  let n := len key in
  let* seed := (let* r := py_mod v n in py_getitem key r) in
  let* idx := (let* q := py_truediv hash ((v + 1) * seed) in
               py_int (py_float_mul_int q 100)) in
  py_mod idx n.

Definition skip_of (key : list Z) (hash : Z) (v : Z) : Z :=
  match segment_skip key hash v with
  | Ok s => s
  | Raise _ => 0
  end.

(** The keystream of the cipher as a function of the position alone:
    a keyed lookup below 128, and from there on the byte the walk over
    the scheduled box [bx] emits after [p mod 5120 + skip (p / 5120)]
    discarded passes. *)
Definition rc4_keystream (key bx : list Z) (hash : Z) (p : Z) : Z :=
  if p <? 128 then zth key (skip_of key hash p)
  else
    rc4_out (len key)
      (repeat_n (S (Z.to_nat (p mod 5120 + skip_of key hash (p / 5120))))
                (rc4_step (len key)) (0, 0, bx)).

(** An instance whose [__init__] has run: the key, the scheduled box in
    the store, the hash. *)
Definition ready (key bx : list Z) (hash : Z) (w : QMCv2_RC4Cipher.world) : Prop :=
  QMCv2_RC4Cipher.key (QMCv2_RC4Cipher.self w) = key
  /\ QMCv2_RC4Cipher._hash (QMCv2_RC4Cipher.self w) = Some hash
  /\ exists b, QMCv2_RC4Cipher._box (QMCv2_RC4Cipher.self w) = Some b
               /\ QMCv2_RC4Cipher.heap w !! b = Some bx.

(** The state of [decrypt] between two of its parts: [done] bytes of the
    buffer are decrypted, the rest is as it came. *)
Definition progress (ks : Z -> Z) (buf : list Z) (offset : Z)
           (s : QMCv2_RC4Cipher.locals) : Prop :=
  0 <= QMCv2_RC4Cipher.done s <= len buf
  /\ QMCv2_RC4Cipher.offset s = offset + QMCv2_RC4Cipher.done s
  /\ QMCv2_RC4Cipher.pending s = len buf - QMCv2_RC4Cipher.done s
  /\ QMCv2_RC4Cipher.src s
     = xor_keystream ks (take (Z.to_nat (QMCv2_RC4Cipher.done s)) buf) offset
       ++ drop (Z.to_nat (QMCv2_RC4Cipher.done s)) buf.

(** The key scheduling of [__init__] on values: one pass of its loop on
    [(j, box)], and the box it leaves. *)
Definition schedule_step (key : list Z) (i : Z) (st : Z * list Z) : Z * list Z :=
  let '(j, bx) := st in
  let n := len key in
  let j' := (j + zth bx i + zth key (i mod n)) mod n in
  (j', <[Z.to_nat j' := zth bx i]> (<[Z.to_nat i := zth bx j']> bx)).

Definition schedule (key : list Z) (indices : list Z) (st : Z * list Z) : Z * list Z :=
  fold_left (fun st i => schedule_step key i st) indices st.

Definition scheduled_box (key : list Z) : list Z :=
  snd (schedule key (py_range 0 (len key))
         (0, (fun i => i mod 256) <$> py_range 0 (len key))).

(** A key the segment skip can divide by: not empty, no zero byte. *)
Definition good_key (key : list Z) : Prop :=
  key <> [] /\ Forall (fun b => 1 <= b < 256) key.

(** A buffer decrypted piece by piece, each piece at its own offset, and
    the results joined. *)
Fixpoint decrypt_parts (fuel : nat) (parts : list (list Z)) (offset : Z)
  : QMCv2_RC4Cipher.M (list Z) :=
  match parts with
  | [] => QMCv2_RC4Cipher.ret []
  | p :: rest =>
      QMCv2_RC4Cipher.bind (QMCv2_RC4Cipher.decrypt fuel p offset) (fun a =>
      QMCv2_RC4Cipher.bind (decrypt_parts fuel rest (offset + len p)) (fun b =>
      QMCv2_RC4Cipher.ret (a ++ b)))
  end.

(** The instance [QMCv2_RC4Cipher(key)], built in an empty store. *)
Definition rc4_instance (key : list Z) : QMCv2_RC4Cipher.world :=
  snd (QMCv2_RC4Cipher.__init__ (QMCv2_RC4Cipher.instantiate key ∅)).

(** A TEA block cipher with the key of [envelope0]. *)
Definition tea0 : QMC_TEACipher.t :=
  {| QMC_TEACipher._key := zero_key; QMC_TEACipher._delta := 0x9e3779b9;
     QMC_TEACipher._rounds := 64 |}.

(** Locals of [TC_TEACipher.decrypt] at the zero check, had the previous
    IV been eight zero bytes: the plain block agrees with it at
    [dest_idx = 1] and nowhere after. *)
Definition check_state : TC_TEACipher.locals :=
  {| TC_TEACipher.iv_prev := replicate 8 0;
     TC_TEACipher.iv_cur := replicate 8 0;
     TC_TEACipher.dest_data := [0; 0; 1; 1; 1; 1; 1; 1];
     TC_TEACipher.src_pos := 16;
     TC_TEACipher.dest_idx := 1 |}.

(** A key of 200 bytes whose only zero byte is the first. *)
Definition key_zero_first : list Z := 0 :: replicate 199 1.


(** [m] leaves the instance and the store as they are, whatever it
    returns or raises. *)
Definition keeps_store {A} (m : QMCv2_RC4Cipher.M A) : Prop :=
  forall w, snd (m w) = w.

(** The bytes the walk emits in [m] passes from [st] on. *)
Fixpoint emitted (n : Z) (m : nat) (st : Z * Z * list Z) : list Z :=
  match m with
  | O => []
  | S m' =>
      let st' := rc4_step n st in
      rc4_out n st' :: emitted n m' st'
  end.

(** The loop of [yield_stream_bytes] on values: the state of the walk
    and the stream after the passes for [indices]. *)
Fixpoint walk_stream (n : Z) (indices : list Z) (st : Z * Z * list Z)
         (stream : list Z) : (Z * Z * list Z) * list Z :=
  match indices with
  | [] => (st, stream)
  | i :: rest =>
      let st' := rc4_step n st in
      walk_stream n rest st' (if 0 <=? i then stream ++ [rc4_out n st'] else stream)
  end.

(** The instance [QMCv2_ImprovedRC4Cipher(key)], built in an empty store. *)
Definition improved_rc4_instance (key : list Z) : QMCv2_RC4Cipher.world :=
  snd (QMCv2_ImprovedRC4Cipher.__init__ (QMCv2_RC4Cipher.instantiate key ∅)).

(** * Properties *)

(** ** Runtime lemmas *)

Lemma land_mask32 (x : Z) : Z.land x 0xffffffff = x mod 2 ^ 32.
Proof. change 0xffffffff with (Z.ones 32). apply Z.land_ones. lia. Qed.

Lemma repeat_n_snoc {S : Type} (n : nat) (f : S -> S) (s : S) :
  repeat_n (Datatypes.S n) f s = f (repeat_n n f s).
Proof.
  revert s. induction n as [|n IH]; intros s; [reflexivity|].
  change (repeat_n (Datatypes.S (Datatypes.S n)) f s)
    with (repeat_n (Datatypes.S n) f (f s)).
  rewrite IH. reflexivity.
Qed.

Lemma bytes_ok_cons (b : Z) (l : list Z) :
  bytes_ok (b :: l) <-> 0 <= b < 256 /\ bytes_ok l.
Proof.
  unfold bytes_ok. split.
  - inversion 1; subst; auto.
  - intros [Hb Hl]. constructor; assumption.
Qed.

Section TEA.

Import QMC_TEACipher.


Lemma unpack_put (v : Z) : word v -> BE_Uint32_unpack (_put_uint32 v) = Ok v.
Proof.
  unfold word, _put_uint32, BE_Uint32_unpack. intros Hv. f_equal.
  rewrite !Z.shiftr_div_pow2 by lia.
  change (2 ^ 24) with 16777216. change (2 ^ 16) with 65536.
  change (2 ^ 8) with 256. change (2 ^ 32) with 4294967296 in Hv.
  Z.div_mod_to_equations. lia.
Qed.

Lemma put_unpack (b0 b1 b2 b3 : Z) :
  bytes_ok [b0; b1; b2; b3] ->
  _put_uint32 (((b0 * 256 + b1) * 256 + b2) * 256 + b3) = [b0; b1; b2; b3].
Proof.
  rewrite !bytes_ok_cons. intros (H0 & H1 & H2 & H3 & _).
  unfold _put_uint32. rewrite !Z.shiftr_div_pow2 by lia.
  change (2 ^ 24) with 16777216. change (2 ^ 16) with 65536.
  change (2 ^ 8) with 256.
  repeat f_equal; Z.div_mod_to_equations; lia.
Qed.

Lemma unpack_word (b : list Z) (v : Z) :
  bytes_ok b -> BE_Uint32_unpack b = Ok v -> word v.
Proof.
  destruct b as [|b0 [|b1 [|b2 [|b3 [|? ?]]]]]; try discriminate.
  rewrite !bytes_ok_cons. intros (H0 & H1 & H2 & H3 & _) [= <-].
  unfold word. lia.
Qed.


Lemma decrypt_round_words k0 k1 k2 k3 delta s :
  words (decrypt_round k0 k1 k2 k3 delta s).
Proof.
  destruct s as [[v0 v1] cs]. unfold words, word, decrypt_round. simpl.
  rewrite !land_mask32. repeat split; apply Z.mod_pos_bound; lia.
Qed.

Lemma encrypt_decrypt_round k0 k1 k2 k3 delta s :
  words s ->
  encrypt_round k0 k1 k2 k3 delta (decrypt_round k0 k1 k2 k3 delta s) = s.
Proof.
  destruct s as [[v0 v1] cs]. unfold words, word. simpl.
  intros (H0 & H1 & Hc).
  rewrite !land_mask32.
  assert (Hcs : (((cs - delta) mod 2 ^ 32) + delta) mod 2 ^ 32 = cs).
  { rewrite Zplus_mod_idemp_l. replace (cs - delta + delta) with cs by lia.
    apply Z.mod_small. lia. }
  rewrite Hcs.
  set (v1' := (v1 - mix v0 k2 k3 cs) mod 2 ^ 32).
  assert (Hv0 : ((v0 - mix v1' k0 k1 cs) mod 2 ^ 32 + mix v1' k0 k1 cs) mod 2 ^ 32 = v0).
  { rewrite Zplus_mod_idemp_l.
    replace (v0 - mix v1' k0 k1 cs + mix v1' k0 k1 cs) with v0 by lia.
    apply Z.mod_small. lia. }
  rewrite Hv0.
  assert (Hv1 : (v1' + mix v0 k2 k3 cs) mod 2 ^ 32 = v1).
  { unfold v1'. rewrite Zplus_mod_idemp_l.
    replace (v1 - mix v0 k2 k3 cs + mix v0 k2 k3 cs) with v1 by lia.
    apply Z.mod_small. lia. }
  rewrite Hv1. reflexivity.
Qed.

Lemma repeat_decrypt_round_words k0 k1 k2 k3 delta n s :
  words s -> words (repeat_n n (decrypt_round k0 k1 k2 k3 delta) s).
Proof.
  destruct n as [|n]; [trivial|]. intros _. rewrite repeat_n_snoc.
  apply decrypt_round_words.
Qed.

Lemma encrypt_decrypt_rounds k0 k1 k2 k3 delta n s :
  words s ->
  repeat_n n (encrypt_round k0 k1 k2 k3 delta)
           (repeat_n n (decrypt_round k0 k1 k2 k3 delta) s) = s.
Proof.
  induction n as [|n IH]; intros Hs; [reflexivity|].
  rewrite (repeat_n_snoc n (decrypt_round k0 k1 k2 k3 delta)).
  simpl. rewrite encrypt_decrypt_round by (apply repeat_decrypt_round_words; exact Hs).
  apply IH, Hs.
Qed.

(** The running sum after [n] passes of the decryption loop. *)
Lemma decrypt_rounds_ciphersum k0 k1 k2 k3 delta n v0 v1 cs :
  word cs ->
  snd (repeat_n n (decrypt_round k0 k1 k2 k3 delta) (v0, v1, cs))
  = (cs - Z.of_nat n * delta) mod 2 ^ 32.
Proof.
  revert v0 v1 cs. induction n as [|n IH]; intros v0 v1 cs Hc.
  - simpl. rewrite Z.sub_0_r. symmetry. apply Z.mod_small. exact Hc.
  - simpl. rewrite IH.
    + rewrite land_mask32, Zminus_mod_idemp_l. f_equal. lia.
    + rewrite land_mask32. apply Z.mod_pos_bound. lia.
Qed.

Lemma key_words (self : t) :
  key_length self = 16 ->
  exists k0 k1 k2 k3, forall src,
    _get_values_from_src_data self src
    = (let* v0 := BE_Uint32_unpack (py_slice src 0 4) in
       let* v1 := BE_Uint32_unpack (py_slice src 4 8) in
       Ok (v0, v1, k0, k1, k2, k3)).
Proof.
  unfold key_length, len, _get_values_from_src_data. intros Hlen.
  destruct (_key self) as [|a0 [|a1 [|a2 [|a3 [|a4 [|a5 [|a6 [|a7 [|a8
    [|a9 [|a10 [|a11 [|a12 [|a13 [|a14 [|a15 [|? ?]]]]]]]]]]]]]]]]];
    simpl in Hlen; try lia.
  do 4 eexists. intros src.
  destruct (BE_Uint32_unpack (py_slice src 0 4)); [|reflexivity].
  destruct (BE_Uint32_unpack (py_slice src 4 8)); reflexivity.
Qed.

Lemma init_key_length key rounds magic_number self :
  __init__ key rounds magic_number = Ok self -> key_length self = 16.
Proof.
  unfold __init__. 
  destruct (key_length _ =? 16) eqn:Hk; [|discriminate]. simpl.
  destruct (Z.land rounds 1 =? 0); [|discriminate]. simpl.
  intros [= <-]. apply Z.eqb_eq, Hk.
Qed.

End TEA.

(** C6: for every 8-byte block [x], every 16-byte key and every even
    number of rounds (what [__init__] accepts), the TEA block cipher
    decrypts [x] to a block that it encrypts back to [x]. *)
Theorem tea_encrypt_decrypt_roundtrip
        (key x : list Z) (rounds magic_number : Z) (self : QMC_TEACipher.t) :
  QMC_TEACipher.__init__ key rounds magic_number = Ok self ->
  length x = 8%nat ->
  bytes_ok x ->
  exists y, QMC_TEACipher.decrypt self x = Ok y
            /\ QMC_TEACipher.encrypt self y = Ok x.
Proof.
  intros Hinit Hlen Hx.
  destruct (key_words self (init_key_length _ _ _ _ Hinit))
    as (k0 & k1 & k2 & k3 & Hvals).
  destruct x as [|b0 [|b1 [|b2 [|b3 [|b4 [|b5 [|b6 [|b7 [|? ?]]]]]]]]];
    try discriminate.
  assert (Hhi : bytes_ok [b0; b1; b2; b3]).
  { rewrite !bytes_ok_cons in *. intuition (auto; constructor). }
  assert (Hlo : bytes_ok [b4; b5; b6; b7]).
  { rewrite !bytes_ok_cons in *. intuition. }
  set (v0 := ((b0 * 256 + b1) * 256 + b2) * 256 + b3) in *.
  set (v1 := ((b4 * 256 + b5) * 256 + b6) * 256 + b7) in *.
  assert (Hw0 : word v0) by (apply (unpack_word [b0; b1; b2; b3]); auto).
  assert (Hw1 : word v1) by (apply (unpack_word [b4; b5; b6; b7]); auto).
  unfold QMC_TEACipher.decrypt, QMC_TEACipher.encrypt.
  rewrite Hvals.
  change (BE_Uint32_unpack (py_slice [b0; b1; b2; b3; b4; b5; b6; b7] 0 4))
    with (Ok v0).
  change (BE_Uint32_unpack (py_slice [b0; b1; b2; b3; b4; b5; b6; b7] 4 8))
    with (Ok v1).
  cbv beta iota delta [rbind].
  set (delta := QMC_TEACipher._delta self).
  set (n := Z.to_nat (QMC_TEACipher._rounds self / 2)).
  set (cs := Z.land (delta * (QMC_TEACipher._rounds self / 2)) 0xffffffff).
  assert (Hcs : word cs).
  { unfold cs, word. rewrite land_mask32. apply Z.mod_pos_bound. lia. }
  pose proof (encrypt_decrypt_rounds k0 k1 k2 k3 delta n (v0, v1, cs)) as Hrt.
  pose proof (repeat_decrypt_round_words k0 k1 k2 k3 delta n (v0, v1, cs)) as Hws.
  pose proof (decrypt_rounds_ciphersum k0 k1 k2 k3 delta n v0 v1 cs Hcs) as Hsum.
  destruct (repeat_n n (QMC_TEACipher.decrypt_round k0 k1 k2 k3 delta) (v0, v1, cs))
    as [[w0 w1] cs'] eqn:Hdec.
  assert (Hw : words (w0, w1, cs')) by (apply Hws; unfold words; simpl; auto).
  destruct Hw as (Hww0 & Hww1 & _). simpl in Hww0, Hww1, Hsum.
  eexists. split; [reflexivity|].
  rewrite Hvals.
  change (py_slice (QMC_TEACipher._put_uint32 w0 ++ QMC_TEACipher._put_uint32 w1) 0 4)
    with (QMC_TEACipher._put_uint32 w0).
  change (py_slice (QMC_TEACipher._put_uint32 w0 ++ QMC_TEACipher._put_uint32 w1) 4 8)
    with (QMC_TEACipher._put_uint32 w1).
  rewrite !unpack_put by assumption.
  cbv beta iota delta [rbind].
  assert (Hloop :
    repeat_n n (QMC_TEACipher.encrypt_round k0 k1 k2 k3 delta)
             (w0, w1, Z.land 0 0xffffffff) = (v0, v1, cs)
    \/ (n = 0%nat /\ w0 = v0 /\ w1 = v1)).
  { destruct (Z_lt_le_dec (QMC_TEACipher._rounds self / 2) 0) as [Hneg|Hpos].
    - right. assert (Hn : n = 0%nat) by (unfold n; lia).
      rewrite Hn in Hdec. simpl in Hdec. inversion Hdec. auto.
    - left. rewrite <- Hrt by (unfold words; simpl; auto).
      f_equal. f_equal. rewrite Hsum. unfold n. rewrite Z2Nat.id by lia.
      unfold cs. rewrite !land_mask32, Zminus_mod_idemp_l.
      replace (delta * _ - _ * delta) with 0 by lia. reflexivity. }
  destruct Hloop as [-> | (-> & -> & ->)]; simpl repeat_n; cbv iota beta;
    subst v0 v1;
    rewrite (put_unpack b0 b1 b2 b3 Hhi), (put_unpack b4 b5 b6 b7 Hlo);
    reflexivity.
Qed.

Lemma strxor_ok (a b : list Z) :
  length a = length b -> exists r, strxor a b = Ok r /\ length r = length a.
Proof.
  revert b. induction a as [|x a IH]; intros [|y b] Hlen; try discriminate.
  - exists []. split; reflexivity.
  - injection Hlen as Hlen. destruct (IH b Hlen) as (r & Hr & Hlr).
    exists (Z.lxor x y :: r). simpl. rewrite Hr. simpl. auto.
Qed.

Lemma py_getitem_nil (i : Z) : py_getitem [] i = Raise IndexError.
Proof.
  unfold py_getitem. destruct (_ <? 0); [reflexivity|].
  rewrite lookup_nil. reflexivity.
Qed.

Lemma py_getitem_ok (l : list Z) (i : Z) :
  0 <= i < len l -> exists x, py_getitem l i = Ok x /\ l !! Z.to_nat i = Some x.
Proof.
  unfold py_getitem, len. intros Hi.
  destruct (i <? 0) eqn:Hneg; [lia|]. rewrite Hneg.
  destruct (l !! Z.to_nat i) as [x|] eqn:Hx.
  - exists x. auto.
  - apply lookup_ge_None in Hx. lia.
Qed.

Section Envelope.

Import TC_TEACipher.

Lemma init_fields key rounds magic_number self :
  __init__ key rounds magic_number = Ok self ->
  key_length self = 16 /\ _salt_len self = 2 /\ _zero_len self = 7.
Proof.
  unfold __init__.
  destruct (key_length _ =? 16) eqn:Hk; [|discriminate]. simpl.
  destruct (Z.land rounds 1 =? 0); [|discriminate]. simpl.
  intros [= <-]. split; [apply Z.eqb_eq, Hk | split; reflexivity].
Qed.

(** Plain TEA decryption succeeds on any input of 8 bytes or more, and
    yields 8 bytes. *)
Lemma original_tea_decrypt_total (self : t) (src : list Z) :
  key_length self = 16 -> (8 <= length src)%nat ->
  exists d, original_tea_decrypt self src = Ok d /\ length d = 8%nat.
Proof.
  unfold key_length, len, original_tea_decrypt, _get_values_from_src_data.
  intros Hlen Hsrc.
  destruct (_key self) as [|a0 [|a1 [|a2 [|a3 [|a4 [|a5 [|a6 [|a7 [|a8
    [|a9 [|a10 [|a11 [|a12 [|a13 [|a14 [|a15 [|? ?]]]]]]]]]]]]]]]]];
    simpl in Hlen; try lia.
  destruct src as [|b0 [|b1 [|b2 [|b3 [|b4 [|b5 [|b6 [|b7 rest]]]]]]]];
    simpl in Hsrc; try lia.
  cbv beta iota delta [rbind py_slice BE_Uint32_unpack take drop Z.to_nat
    Pos.to_nat Pos.iter_op Nat.add Nat.sub].
  match goal with
  | |- context [repeat_n ?n ?f ?s] => destruct (repeat_n n f s) as [[w0 w1] cs]
  end.
  eexists. split; reflexivity.
Qed.


End Envelope.

(** The zero check as the code runs it: whatever the number of passes,
    one position is compared, [dest_idx]. *)
Lemma zero_check_one_position (indices : list Z) (s : TC_TEACipher.locals) (a b : Z) :
  py_getitem (TC_TEACipher.dest_data s) (TC_TEACipher.dest_idx s) = Ok a ->
  py_getitem (TC_TEACipher.iv_prev s) (TC_TEACipher.dest_idx s) = Ok b ->
  TC_TEACipher.zero_check indices s
  = match indices with
    | [] => Ok tt
    | _ :: _ => if a =? b then Ok tt else Raise (DecryptionError ZeroCheckFailed)
    end.
Proof.
  intros Ha Hb. induction indices as [|i rest IH]; [reflexivity|].
  cbn [TC_TEACipher.zero_check]. rewrite Ha, Hb. cbn [rbind].
  destruct (a =? b) eqn:Hab; cbn [negb]; [|reflexivity].
  rewrite IH. destruct rest; [reflexivity|]. rewrite ?Hab. reflexivity.
Qed.

(** C2: on every input that passes the length and pad-length checks of
    [TC_TEACipher.decrypt], the call does not return: [iv_prev] is still
    the empty string when its first byte is read, by the first output
    byte or, for 16 bytes, by the zero check, and [IndexError] is
    raised. *)
Theorem envelope_decrypt_raises_index_error
        (key src : list Z) (rounds magic_number : Z) (self : TC_TEACipher.t)
        (fuel : nat) :
  TC_TEACipher.__init__ key rounds magic_number = Ok self ->
  len src mod 8 = 0 ->
  16 <= len src ->
  header_pad_len self src = Ok 6 ->
  (3 <= fuel)%nat ->
  TC_TEACipher.decrypt fuel self src = Raise IndexError.
Proof.
  intros Hinit Hmod Hlen Hpad Hfuel.
  destruct (init_fields _ _ _ _ Hinit) as (Hkey & Hsalt & Hzero).
  unfold TC_TEACipher.decrypt.
  rewrite Hmod. simpl negb. cbv iota.
  destruct (len src <? 16) eqn:H16; [lia|].
  unfold header_pad_len in Hpad.
  destruct (original_tea_decrypt_total self src Hkey) as (d & Hd & Hdlen);
    [unfold len in Hlen; lia|].
  rewrite Hd in *. simpl rbind in *.
  destruct (py_getitem d 0) as [d0|] eqn:Hd0; [|discriminate].
  simpl rbind in *. injection Hpad as Hpad. rewrite Hpad, Hsalt, Hzero.
  simpl negb. cbv iota.
  unfold py_bytearray. destruct (len src - 6 - 2 - 7 - 1 <? 0) eqn:Hout; [lia|].
  simpl rbind.
  destruct fuel as [|[|[|fuel]]]; try lia.
  (* the salt loop: one step inside the header block, one new block, one step *)
  cbn [TC_TEACipher.salt_loop]. rewrite Hsalt.
  cbn [TC_TEACipher.dest_idx TC_TEACipher.set_dest_idx TC_TEACipher.iv_prev
       TC_TEACipher.iv_cur TC_TEACipher.dest_data TC_TEACipher.src_pos].
  change (1 <=? 2) with true. change (6 + 1 <? 8) with true.
  change (1 + 1 <=? 2) with true. change (6 + 1 + 1 <? 8) with false.
  change (6 + 1 + 1 =? 8) with true. cbv iota.
  unfold TC_TEACipher.crypt_block.
  cbn [TC_TEACipher.dest_idx TC_TEACipher.set_dest_idx TC_TEACipher.iv_prev
       TC_TEACipher.iv_cur TC_TEACipher.dest_data TC_TEACipher.src_pos].
  set (blk := py_slice src 8 (8 + 8)).
  assert (Hblk : length blk = 8%nat).
  { unfold blk, py_slice. rewrite length_take, length_drop.
    unfold len in Hlen. lia. }
  destruct (strxor_ok (py_slice d 0 8) (py_slice blk 0 8)) as (x & Hx & Hxlen).
  { unfold py_slice. rewrite !length_take, !length_drop. lia. }
  rewrite Hx. simpl rbind.
  destruct (original_tea_decrypt_total self x Hkey) as (d' & Hd' & Hd'len).
  { rewrite Hxlen. unfold py_slice. rewrite length_take, length_drop. lia. }
  rewrite Hd'. simpl rbind.
  cbn [TC_TEACipher.dest_idx TC_TEACipher.set_dest_idx TC_TEACipher.iv_prev
       TC_TEACipher.iv_cur TC_TEACipher.dest_data TC_TEACipher.src_pos].
  change (0 <? 8) with true. cbv iota.
  assert (Hexit : forall f s, TC_TEACipher.salt_loop f self src (1 + 1 + 1) s = Ok s).
  { intros [|f] s; simpl; rewrite Hsalt; reflexivity. }
  rewrite Hexit. simpl rbind.
  destruct (py_getitem_ok d' (0 + 1)) as (a & Ha & _); [unfold len; lia|].
  destruct (0 <? len src - 6 - 2 - 7 - 1) eqn:Hempty.
  - (* some output is due: the first byte reads [iv_prev[1]] *)
    cbn [TC_TEACipher.output_loop TC_TEACipher.dest_idx TC_TEACipher.iv_prev
         TC_TEACipher.dest_data].
    change (0 + 1 <? 8) with true. cbv iota.
    rewrite Ha. reflexivity.
  - (* 16 bytes: no output, the zero check reads [iv_prev[1]] *)
    cbn [rbind TC_TEACipher.dest_idx TC_TEACipher.iv_prev
         TC_TEACipher.dest_data TC_TEACipher.set_dest_idx].
    rewrite Ha. reflexivity.
Qed.

Lemma py_bytes_of_map (f : Z -> result Z) (g : Z -> Z) (indices : list Z) :
  (forall i, In i indices -> f i = Ok (g i) /\ 0 <= g i < 256) ->
  py_bytes_of f indices = Ok (map g indices).
Proof.
  induction indices as [|i rest IH]; intros H; [reflexivity|].
  simpl. destruct (H i (or_introl eq_refl)) as [-> Hb]. simpl.
  unfold is_byte.
  destruct (0 <=? g i) eqn:H0; [|lia].
  destruct (g i <? 256) eqn:H1; [|lia]. simpl.
  rewrite IH; [reflexivity|]. intros j Hj. apply H. right. exact Hj.
Qed.



Lemma py_getitem_zth (l : list Z) (i : Z) :
  0 <= i < len l -> py_getitem l i = Ok (zth l i).
Proof.
  unfold py_getitem, zth, len. intros Hi.
  destruct (i <? 0) eqn:Hneg; [lia|]. rewrite Hneg.
  destruct (l !! Z.to_nat i) as [x|] eqn:Hx.
  - f_equal. symmetry. apply nth_lookup_Some with (d := 0). exact Hx.
  - apply lookup_ge_None in Hx. lia.
Qed.

Lemma py_range_cons (a b : Z) : a < b -> py_range a b = a :: py_range (a + 1) b.
Proof.
  unfold py_range. intros Hab.
  replace (b - a) with (Z.succ (b - (a + 1))) by lia.
  rewrite seqZ_cons by lia. f_equal. f_equal; lia.
Qed.

Lemma py_range_nil (a b : Z) : b <= a -> py_range a b = [].
Proof. unfold py_range, seqZ. intros H. replace (Z.to_nat (b - a)) with 0%nat by lia. reflexivity. Qed.

Lemma in_py_range (a b i : Z) : In i (py_range a b) <-> a <= i < b.
Proof.
  unfold py_range. rewrite <- list_elem_of_In, elem_of_seqZ. lia.
Qed.

Lemma xor_keystream_map (ks : Z -> Z) (buf : list Z) (offset : Z) :
  map (fun i => Z.lxor (zth buf i) (ks (offset + i))) (py_range 0 (len buf))
  = xor_keystream ks buf offset.
Proof.
  revert offset. induction buf as [|b rest IH]; intros offset; [reflexivity|].
  rewrite py_range_cons by (unfold len; simpl; lia).
  simpl. f_equal; [f_equal; f_equal; lia|].
  rewrite <- IH.
  replace (py_range (0 + 1) (len (b :: rest)))
    with (map (Z.add 1) (py_range 0 (len rest))).
  - rewrite map_map. apply map_ext_in. intros i Hi. apply in_py_range in Hi.
    unfold zth. replace (Z.to_nat (1 + i)) with (S (Z.to_nat i)) by lia.
    simpl. f_equal. f_equal. lia.
  - unfold py_range, len. simpl length.
    replace (Z.of_nat (S (length rest)) - (0 + 1)) with (Z.of_nat (length rest) - 0) by lia.
    apply (fmap_add_seqZ 1 0).
Qed.

Lemma log2_byte (a : Z) : 0 <= a < 256 -> Z.log2 a < 8.
Proof.
  intros Ha. destruct (Z.eq_dec a 0) as [->|Hnz]; [reflexivity|].
  apply Z.log2_lt_pow2; lia.
Qed.

Lemma byte_of_log2 (a : Z) : 0 <= a -> Z.log2 a < 8 -> 0 <= a < 256.
Proof.
  intros Ha Hl. destruct (Z.eq_dec a 0) as [->|Hnz]; [lia|].
  split; [exact Ha|]. apply (Z.log2_lt_pow2 a 8); lia.
Qed.

Lemma lxor_byte (a b : Z) :
  0 <= a < 256 -> 0 <= b < 256 -> 0 <= Z.lxor a b < 256.
Proof.
  intros Ha Hb. apply byte_of_log2.
  - apply Z.lxor_nonneg. lia.
  - pose proof (Z.log2_lxor a b ltac:(lia) ltac:(lia)).
    pose proof (log2_byte a Ha). pose proof (log2_byte b Hb). lia.
Qed.

Lemma lor_byte (a b : Z) :
  0 <= a < 256 -> 0 <= b < 256 -> 0 <= Z.lor a b < 256.
Proof.
  intros Ha Hb. apply byte_of_log2.
  - apply Z.lor_nonneg. lia.
  - rewrite Z.log2_lor by lia.
    pose proof (log2_byte a Ha). pose proof (log2_byte b Hb). lia.
Qed.

Lemma zth_byte (l : list Z) (i : Z) :
  bytes_ok l -> 0 <= i < len l -> 0 <= zth l i < 256.
Proof.
  unfold bytes_ok, zth, len. intros Hl Hi.
  rewrite Forall_forall in Hl. apply Hl.
  apply list_elem_of_In, nth_In. lia.
Qed.

Lemma byte_cases (P : Z -> bool) :
  forallb P (seqZ 0 256) = true -> forall v, 0 <= v < 256 -> P v = true.
Proof.
  intros H v Hv. rewrite forallb_forall in H. apply H.
  apply list_elem_of_In, elem_of_seqZ. lia.
Qed.

(** ** Keystreams *)

Lemma xor_keystream_length ks buf offset :
  length (xor_keystream ks buf offset) = length buf.
Proof.
  revert offset. induction buf as [|b rest IH]; intros offset; simpl; auto.
Qed.

Lemma xor_keystream_app ks a b offset :
  xor_keystream ks (a ++ b) offset
  = xor_keystream ks a offset ++ xor_keystream ks b (offset + len a).
Proof.
  revert offset. induction a as [|x a IH]; intros offset; simpl.
  - f_equal. unfold len. simpl. lia.
  - rewrite IH. do 3 f_equal. unfold len. simpl length. lia.
Qed.

Lemma xor_keystream_involutive ks buf offset :
  xor_keystream ks (xor_keystream ks buf offset) offset = buf.
Proof.
  revert offset. induction buf as [|b rest IH]; intros offset; simpl; [reflexivity|].
  rewrite IH, Z.lxor_assoc, Z.lxor_nilpotent, Z.lxor_0_r. reflexivity.
Qed.

Lemma xor_keystream_bytes_ok ks buf offset :
  (forall p, 0 <= ks p < 256) -> bytes_ok buf ->
  bytes_ok (xor_keystream ks buf offset).
Proof.
  intros Hks. revert offset. induction buf as [|b rest IH]; intros offset Hb; simpl.
  - constructor.
  - apply bytes_ok_cons in Hb as [Hb Hrest]. apply bytes_ok_cons. split.
    + apply lxor_byte; auto.
    + apply IH, Hrest.
Qed.

Lemma xor_keystream_ext ks ks' buf offset :
  (forall p, offset <= p < offset + len buf -> ks p = ks' p) ->
  xor_keystream ks buf offset = xor_keystream ks' buf offset.
Proof.
  revert offset. induction buf as [|b rest IH]; intros offset H; simpl; [reflexivity|].
  rewrite H by (unfold len; simpl length; lia). f_equal.
  apply IH. intros p Hp. apply H. unfold len in *. simpl length. lia.
Qed.


(** The generator of the two mask ciphers, for a mask that is a byte at
    every position. *)
Lemma mask_stream_decrypt (mask : Z -> result Z) (buf : list Z) (offset : Z) :
  (forall p, exists m, mask p = Ok m /\ 0 <= m < 256) ->
  bytes_ok buf ->
  py_bytes_of
    (fun i =>
       let* b := py_getitem buf i in
       let* m := mask (offset + i) in
       Ok (Z.lxor b m))
    (py_range 0 (len buf))
  = Ok (xor_keystream (mask_of mask) buf offset).
Proof.
  intros Hmask Hbuf. rewrite <- xor_keystream_map.
  apply py_bytes_of_map. intros i Hi. apply in_py_range in Hi.
  rewrite py_getitem_zth by lia. simpl.
  unfold mask_of. destruct (Hmask (offset + i)) as (m & -> & Hm). simpl.
  split; [reflexivity|]. apply lxor_byte; [|exact Hm].
  apply zth_byte; [exact Hbuf | lia].
Qed.

Lemma mask_of_byte (mask : Z -> result Z) :
  (forall p, exists m, mask p = Ok m /\ 0 <= m < 256) ->
  forall p, 0 <= mask_of mask p < 256.
Proof. intros H p. unfold mask_of. destruct (H p) as (m & -> & Hm). exact Hm. Qed.

Section Masks.

Lemma static_box_bytes : bytes_ok QMCv1_StaticMapCipher.__static_cipher_box.
Proof.
  unfold bytes_ok. rewrite Forall_forall. intros b Hb.
  apply list_elem_of_In in Hb.
  assert (H : forallb is_byte QMCv1_StaticMapCipher.__static_cipher_box = true)
    by (vm_compute; reflexivity).
  rewrite forallb_forall in H. specialize (H b Hb).
  unfold is_byte in H. lia.
Qed.

Lemma static_mask_total (p : Z) :
  exists m, QMCv1_StaticMapCipher._get_mask p = Ok m /\ 0 <= m < 256.
Proof.
  unfold QMCv1_StaticMapCipher._get_mask.
  set (q := if p >? 0x7fff then p mod 0x7fff else p).
  assert (Hidx : 0 <= Z.land (q ^ 2 + 27) 0xff < 256).
  { change 0xff with (Z.ones 8). rewrite Z.land_ones by lia.
    apply Z.mod_pos_bound. lia. }
  rewrite py_getitem_zth by (exact Hidx).
  eexists. split; [reflexivity|].
  apply zth_byte; [apply static_box_bytes | exact Hidx].
Qed.

Lemma static_decrypt_spec (buf : list Z) (offset : Z) :
  bytes_ok buf ->
  QMCv1_StaticMapCipher.decrypt buf offset
  = Ok (xor_keystream (mask_of QMCv1_StaticMapCipher._get_mask) buf offset).
Proof. intros Hbuf. apply mask_stream_decrypt; [apply static_mask_total | exact Hbuf]. Qed.

Import QMCv2_DynamicMapCipher.

Lemma rotate_byte (value bits : Z) : 0 <= _rotate value bits < 256.
Proof.
  unfold _rotate. apply lor_byte; apply Z.mod_pos_bound; lia.
Qed.

Lemma dynamic_mask_total (self : t) (p : Z) :
  key self <> [] ->
  exists m, _get_mask self p = Ok m /\ 0 <= m < 256.
Proof.
  intros Hkey. unfold _get_mask, py_mod, key_length.
  assert (Hlen : 0 < len (key self)).
  { unfold len. destruct (key self); [congruence | simpl; lia]. }
  destruct (len (key self) =? 0) eqn:H0; [lia|]. simpl.
  set (q := if p >? 0x7fff then p mod 0x7fff else p).
  rewrite py_getitem_zth by (apply Z.mod_pos_bound; exact Hlen). simpl.
  eexists. split; [reflexivity | apply rotate_byte].
Qed.

Lemma dynamic_decrypt_spec (self : t) (buf : list Z) (offset : Z) :
  key self <> [] -> bytes_ok buf ->
  decrypt self buf offset = Ok (xor_keystream (mask_of (_get_mask self)) buf offset).
Proof.
  intros Hkey Hbuf. apply mask_stream_decrypt; [|exact Hbuf].
  intros p. apply dynamic_mask_total, Hkey.
Qed.

End Masks.

(** X13: [QMCv1_StaticMapCipher.decrypt] undoes itself: decrypting the
    result again at the same offset gives the buffer back. *)
Lemma static_decrypt_involutive (buf : list Z) (offset : Z) :
  bytes_ok buf ->
  exists out, QMCv1_StaticMapCipher.decrypt buf offset = Ok out
              /\ QMCv1_StaticMapCipher.decrypt out offset = Ok buf.
Proof.
  intros Hbuf. eexists. split; [apply static_decrypt_spec, Hbuf|].
  rewrite static_decrypt_spec.
  - f_equal. apply xor_keystream_involutive.
  - apply xor_keystream_bytes_ok; [|exact Hbuf].
    apply mask_of_byte, static_mask_total.
Qed.

(** X14: [QMCv2_DynamicMapCipher.decrypt] undoes itself, with any key
    that is not empty. *)
Lemma dynamic_decrypt_involutive (self : QMCv2_DynamicMapCipher.t)
      (buf : list Z) (offset : Z) :
  QMCv2_DynamicMapCipher.key self <> [] -> bytes_ok buf ->
  exists out, QMCv2_DynamicMapCipher.decrypt self buf offset = Ok out
              /\ QMCv2_DynamicMapCipher.decrypt self out offset = Ok buf.
Proof.
  intros Hkey Hbuf. eexists. split; [apply dynamic_decrypt_spec; assumption|].
  rewrite dynamic_decrypt_spec; [| exact Hkey |].
  - f_equal. apply xor_keystream_involutive.
  - apply xor_keystream_bytes_ok; [|exact Hbuf].
    apply mask_of_byte. intros p. apply dynamic_mask_total, Hkey.
Qed.


(** C9, as stated, fails: with a key of eight bytes [0x80] the mask at
    position 0 is [0x20], and the 8-bit rotation of [0x80] to the left
    by [r = 2] is [0x02]. *)
Lemma dynamic_mask_is_not_a_rotation :
  let self := {| QMCv2_DynamicMapCipher.key := replicate 8 0x80 |} in
  let idx := (0 ^ 2 + 71214) mod QMCv2_DynamicMapCipher.key_length self in
  let v := zth (QMCv2_DynamicMapCipher.key self) idx in
  let r := (Z.land idx 7 + 4) mod 8 in
  QMCv2_DynamicMapCipher._get_mask self 0 <> Ok (rotate_left8 v r).
Proof. vm_compute. discriminate. Qed.

(** C9, amended: for every key that is not empty and every position,
    the mask byte of [QMCv2_DynamicMapCipher] is
    [((v << r) mod 256) | ((v >> r) mod 256)], both shifts by the same
    [r]; it is a byte, and it is the 8-bit rotation of [v] to the left
    by [r] when [r] is 0 or 4. *)
Theorem dynamic_mask_value (self : QMCv2_DynamicMapCipher.t) (pos : Z) :
  QMCv2_DynamicMapCipher.key self <> [] ->
  bytes_ok (QMCv2_DynamicMapCipher.key self) ->
  let folded := if pos >? 0x7fff then pos mod 0x7fff else pos in
  let idx := (folded ^ 2 + 71214) mod QMCv2_DynamicMapCipher.key_length self in
  let v := zth (QMCv2_DynamicMapCipher.key self) idx in
  let r := (Z.land idx 7 + 4) mod 8 in
  let m := Z.lor (Z.shiftl v r mod 256) (Z.shiftr v r mod 256) in
  QMCv2_DynamicMapCipher._get_mask self pos = Ok m
  /\ 0 <= m < 256
  /\ (r = 0 \/ r = 4 -> m = rotate_left8 v r).
Proof.
  intros Hkey Hbytes folded idx v r m.
  assert (Hlen : 0 < len (QMCv2_DynamicMapCipher.key self)).
  { unfold len. destruct (QMCv2_DynamicMapCipher.key self); [congruence | simpl; lia]. }
  assert (Hidx : 0 <= idx < len (QMCv2_DynamicMapCipher.key self)).
  { apply Z.mod_pos_bound. exact Hlen. }
  split; [|split].
  - unfold QMCv2_DynamicMapCipher._get_mask, py_mod.
    fold folded. unfold QMCv2_DynamicMapCipher.key_length in *.
    destruct (len (QMCv2_DynamicMapCipher.key self) =? 0) eqn:H0; [lia|]. simpl.
    fold idx. rewrite py_getitem_zth by exact Hidx. reflexivity.
  - apply (rotate_byte v (Z.land idx 7)).
  - assert (Hv : 0 <= v < 256) by (apply zth_byte; assumption).
    intros [Hr | Hr]; subst m; rewrite Hr.
    + pose proof (byte_cases
        (fun v => Z.lor (Z.shiftl v 0 mod 256) (Z.shiftr v 0 mod 256) =? rotate_left8 v 0)
        ltac:(vm_compute; reflexivity) v Hv) as H.
      apply Z.eqb_eq in H. exact H.
    + pose proof (byte_cases
        (fun v => Z.lor (Z.shiftl v 4 mod 256) (Z.shiftr v 4 mod 256) =? rotate_left8 v 4)
        ltac:(vm_compute; reflexivity) v Hv) as H.
      apply Z.eqb_eq in H. exact H.
Qed.

(** ** QMCv2_RC4Cipher: what a call leaves untouched *)

Section Frame.

Import QMCv2_RC4Cipher.


Variable h0 : gmap loc (list Z).

Lemma framed_weaken {A} (m : M A) (Q R : A -> Prop) :
  framed h0 m Q -> (forall a, Q a -> R a) -> framed h0 m R.
Proof.
  intros Hm HQR w Hw. destruct (Hm w Hw) as (H1 & H2 & H3).
  repeat split; auto. destruct (fst (m w)); auto.
Qed.

Lemma framed_ret {A} (a : A) (Q : A -> Prop) : Q a -> framed h0 (ret a) Q.
Proof. intros HQ w Hw. simpl. auto. Qed.

Lemma framed_raise {A} (e : exn) (Q : A -> Prop) : framed h0 (raise e) Q.
Proof. intros w Hw. simpl. auto. Qed.

Lemma framed_lift {A} (r : result A) : framed h0 (lift r) (fun _ => True).
Proof. intros w Hw. simpl. destruct r; auto. Qed.

Lemma framed_bind {A B} (m : M A) (k : A -> M B) (Q : A -> Prop) (R : B -> Prop) :
  framed h0 m Q -> (forall a, Q a -> framed h0 (k a) R) -> framed h0 (bind m k) R.
Proof.
  intros Hm Hk w Hw. unfold bind.
  destruct (Hm w Hw) as (H1 & H2 & H3).
  destruct (m w) as [[a|e] w1]; simpl in *.
  - destruct (Hk a H3 w1 H1) as (K1 & K2 & K3).
    repeat split; auto. congruence.
  - auto.
Qed.

Lemma framed_get_key : framed h0 get_key (fun _ => True).
Proof. intros w Hw. simpl. auto. Qed.

Lemma framed_key_length : framed h0 key_length (fun _ => True).
Proof. intros w Hw. simpl. auto. Qed.

Lemma framed_box : framed h0 box (fun _ => True).
Proof. intros w Hw. unfold box. destruct (_box (self w)); simpl; auto. Qed.

Lemma framed_hash : framed h0 hash (fun _ => True).
Proof. intros w Hw. unfold hash. destruct (_hash (self w)); simpl; auto. Qed.

(** A new object is none of the old ones. *)
Lemma framed_new_bytearray (v : list Z) :
  framed h0 (new_bytearray v) (fun l => h0 !! l = None).
Proof.
  intros w Hw. unfold new_bytearray. simpl.
  assert (Hfresh : heap w !! fresh (dom (heap w)) = None).
  { apply not_elem_of_dom. apply is_fresh. }
  assert (Hnew : h0 !! fresh (dom (heap w)) = None).
  { destruct (h0 !! fresh (dom (heap w))) as [x|] eqn:Hx; [|reflexivity].
    rewrite (lookup_weaken _ _ _ _ Hx Hw) in Hfresh. discriminate. }
  repeat split; auto.
  apply insert_subseteq_r; assumption.
Qed.

Lemma framed_bytearray_copy (r : loc) :
  framed h0 (bytearray_copy r) (fun l => h0 !! l = None).
Proof.
  intros w Hw. unfold bytearray_copy.
  destruct (heap w !! r) as [v|]; [apply framed_new_bytearray; exact Hw|].
  simpl. auto.
Qed.

Lemma framed_getitem (r : loc) (i : Z) : framed h0 (getitem r i) (fun _ => True).
Proof.
  intros w Hw. unfold getitem. destruct (heap w !! r) as [v|]; simpl; auto.
  destruct (py_getitem v i); auto.
Qed.

(** Writing into an object that is not one of the old ones. *)
Lemma framed_setitem (r : loc) (i x : Z) :
  h0 !! r = None -> framed h0 (setitem r i x) (fun _ => True).
Proof.
  intros Hr w Hw. unfold setitem. destruct (heap w !! r) as [v|]; simpl; auto.
  destruct (bytearray_setitem v i x) as [v'|e]; simpl; auto.
  repeat split; auto. apply insert_subseteq_r; assumption.
Qed.

Lemma framed_for_each {S} (indices : list Z) (body : Z -> S -> M S) (s : S) :
  (forall i s, framed h0 (body i s) (fun _ => True)) ->
  framed h0 (for_each indices body s) (fun _ => True).
Proof.
  intros Hbody. revert s. induction indices as [|i rest IH]; intros s; simpl.
  - apply framed_ret. exact I.
  - eapply framed_bind; [apply Hbody|]. intros s' _. apply IH.
Qed.

Lemma framed_while {S} (fuel : nat) (cond : S -> bool) (body : S -> M S) (s : S) :
  (forall s, framed h0 (body s) (fun _ => True)) ->
  framed h0 (while fuel cond body s) (fun _ => True).
Proof.
  intros Hbody. revert s. induction fuel as [|fuel IH]; intros s; simpl.
  - destruct (cond s); [apply framed_raise | apply framed_ret; exact I].
  - destruct (cond s); [|apply framed_ret; exact I].
    eapply framed_bind; [apply Hbody|]. intros s' _. apply IH.
Qed.

Create HintDb framed.
Hint Resolve framed_get_key framed_key_length framed_box framed_hash
     framed_getitem framed_lift : framed.

Ltac framed_step :=
  first
    [ eapply framed_bind; [solve [eauto with framed] | intros ? _]
    | apply framed_lift
    | apply framed_ret; exact I ].

Lemma framed_get_segment_skip (v : Z) :
  framed h0 (_get_segment_skip v) (fun _ => True).
Proof. unfold _get_segment_skip. repeat framed_step. Qed.

Lemma framed_enc_1st_segment (buf : list Z) (offset : Z) :
  framed h0 (_enc_1st_segment buf offset) (fun _ => True).
Proof.
  unfold _enc_1st_segment. apply framed_for_each. intros i s.
  unfold first_segment_body.
  framed_step. framed_step.
  eapply framed_bind; [apply framed_get_segment_skip | intros ? _].
  repeat framed_step.
Qed.

(** The walk writes into the copy only. *)
Lemma framed_walk_body (copy : loc) (i : Z) (s : Z * Z * list Z) :
  h0 !! copy = None -> framed h0 (walk_body copy i s) (fun _ => True).
Proof.
  intros Hcopy. destruct s as [[j k] b]. unfold walk_body.
  do 7 framed_step.
  eapply framed_bind; [apply framed_setitem; exact Hcopy | intros ? _].
  eapply framed_bind; [apply framed_setitem; exact Hcopy | intros ? _].
  destruct (0 <=? i); repeat framed_step.
Qed.

Lemma framed_enc_another_segment (buf : list Z) (offset : Z) :
  framed h0 (_enc_another_segment buf offset) (fun _ => True).
Proof.
  unfold _enc_another_segment.
  framed_step.
  eapply framed_bind; [apply framed_bytearray_copy | intros copy Hcopy].
  framed_step. framed_step.
  eapply framed_bind; [apply framed_get_segment_skip | intros ? _].
  eapply framed_bind with (Q := fun _ => True).
  - apply framed_for_each. intros i s. apply framed_walk_body, Hcopy.
  - intros [[j k] b] _. apply framed_ret. exact I.
Qed.

Lemma framed_decrypt (fuel : nat) (src_data : list Z) (offset : Z) :
  framed h0 (decrypt fuel src_data offset) (fun _ => True).
Proof.
  unfold decrypt.
  eapply framed_bind with (Q := fun _ => True).
  { unfold decrypt_first. cbn [QMCv2_RC4Cipher.offset].
    destruct (offset <? 128); [|apply framed_ret; exact I].
    eapply framed_bind; [apply framed_enc_1st_segment | intros ? _].
    apply framed_ret. exact I. }
  intros [s1 fin1] _. destruct fin1; [apply framed_ret; exact I|].
  eapply framed_bind with (Q := fun _ => True).
  { unfold decrypt_unaligned.
    destruct (negb _); [|apply framed_ret; exact I].
    eapply framed_bind; [apply framed_enc_another_segment | intros ? _].
    apply framed_ret. exact I. }
  intros [s2 fin2] _. destruct fin2; [apply framed_ret; exact I|].
  eapply framed_bind with (Q := fun _ => True).
  { apply framed_while. intros s. unfold decrypt_whole_segment.
    eapply framed_bind; [apply framed_enc_another_segment | intros ? _].
    apply framed_ret. exact I. }
  intros s3 _. unfold decrypt_tail.
  destruct (pending s3 >? 0); [|apply framed_ret; exact I].
  eapply framed_bind; [apply framed_enc_another_segment | intros ? _].
  apply framed_ret. exact I.
Qed.

End Frame.

(** C10: whatever the buffer, the offset and the outcome, a call of
    [QMCv2_RC4Cipher.decrypt] leaves the attributes [_hash] and [_box]
    of the instance as they were, and the stored box object, like every
    object that was in the store, element for element as it was: the
    walk writes into the copy, a new object. *)
Theorem decrypt_leaves_box_and_hash
        (fuel : nat) (src_data : list Z) (offset : Z) (w : QMCv2_RC4Cipher.world) :
  let w' := snd (QMCv2_RC4Cipher.decrypt fuel src_data offset w) in
  QMCv2_RC4Cipher._hash (QMCv2_RC4Cipher.self w')
  = QMCv2_RC4Cipher._hash (QMCv2_RC4Cipher.self w)
  /\ QMCv2_RC4Cipher._box (QMCv2_RC4Cipher.self w')
     = QMCv2_RC4Cipher._box (QMCv2_RC4Cipher.self w)
  /\ (forall b bx,
        QMCv2_RC4Cipher._box (QMCv2_RC4Cipher.self w) = Some b ->
        QMCv2_RC4Cipher.heap w !! b = Some bx ->
        QMCv2_RC4Cipher.heap w' !! b = Some bx)
  /\ QMCv2_RC4Cipher.heap w ⊆ QMCv2_RC4Cipher.heap w'.
Proof.
  intros w'.
  destruct (framed_decrypt (QMCv2_RC4Cipher.heap w) fuel src_data offset w)
    as (Hheap & Hself & _); [reflexivity|].
  fold w' in Hheap, Hself. rewrite Hself.
  repeat split; auto.
  intros b bx _ Hb. exact (lookup_weaken _ _ _ _ Hb Hheap).
Qed.

(** ** The float arithmetic of the segment skip never overflows *)

Lemma round_half_even_bounds (n d : Z) :
  0 <= n -> 0 < d -> 0 <= round_half_even n d <= n + 1.
Proof.
  intros Hn Hd. unfold round_half_even.
  assert (H0 : 0 <= n / d) by (apply Z.div_pos; lia).
  assert (H1 : n / d <= n) by (apply Z.div_le_upper_bound; nia).
  destruct (2 * (n mod d) <? d); [lia|].
  destruct (d <? 2 * (n mod d)); [lia|].
  destruct (Z.even (n / d)); lia.
Qed.

Lemma nearest_binary64_bounds (n d : Z) :
  0 < n -> 0 < d ->
  let '(m, e) := nearest_binary64 n d in
  -1074 <= e <= Z.max (Z.log2 n - Z.log2 d - 52) (-1074)
  /\ 0 <= m
  /\ (e < 0 -> m <= n * 2 ^ (- e) + 1).
Proof.
  intros Hn Hd. unfold nearest_binary64.
  set (e0 := Z.log2 n - Z.log2 d).
  set (l := if (if 0 <=? e0 then d * 2 ^ e0 <=? n else d <=? n * 2 ^ (- e0))
            then e0 else e0 - 1).
  assert (Hl : l <= e0) by (unfold l; destruct (if 0 <=? e0 then _ else _); lia).
  set (e := Z.max (l - 52) (-1074)).
  split; [lia|].
  destruct (0 <=? e) eqn:He.
  - split; [|lia].
    apply round_half_even_bounds; [lia|].
    apply Z.mul_pos_pos; [lia|]. apply Z.pow_pos_nonneg; lia.
  - assert (Hp : 0 < 2 ^ (- e)) by (apply Z.pow_pos_nonneg; lia).
    pose proof (round_half_even_bounds (n * 2 ^ (- e)) d ltac:(nia) Hd). lia.
Qed.

Lemma skip_index_total (h d : Z) :
  1 <= h < 2 ^ 32 -> 1 <= d ->
  exists z, (let* q := py_truediv h d in py_int (py_float_mul_int q 100)) = Ok z.
Proof.
  intros Hh Hd. unfold py_truediv.
  destruct (d =? 0) eqn:Hd0; [lia|].
  replace (Z.sgn d) with 1 by lia. rewrite Z.mul_1_r, (Z.abs_eq d) by lia.
  unfold float_of_ratio. destruct (h =? 0) eqn:Hh0; [lia|].
  rewrite (Z.abs_eq h) by lia.
  pose proof (nearest_binary64_bounds h d ltac:(lia) ltac:(lia)) as Hb.
  destruct (nearest_binary64 h d) as [m e].
  destruct Hb as (He & Hm & Hm').
  assert (Hlh : Z.log2 h < 32) by (apply Z.log2_lt_pow2; lia).
  assert (Hld : 0 <= Z.log2 d) by apply Z.log2_nonneg.
  assert (Hneg : e <= -21) by lia.
  destruct (971 <? e) eqn:H971; [lia|].
  destruct (e =? 971) eqn:H971'; [lia|]. simpl.
  replace (Z.sgn h) with 1 by lia. rewrite Z.mul_1_l.
  destruct (0 <=? e) eqn:He0; [lia|].
  unfold float_of_ratio.
  destruct (m * 100 =? 0) eqn:Hm0; [simpl; eauto|].
  assert (Hp : 0 < 2 ^ (- e)) by (apply Z.pow_pos_nonneg; lia).
  rewrite (Z.abs_eq (m * 100)) by lia.
  pose proof (nearest_binary64_bounds (m * 100) (2 ^ (- e)) ltac:(lia) Hp) as Hb.
  destruct (nearest_binary64 (m * 100) (2 ^ (- e))) as [m' e'].
  destruct Hb as (He' & _ & _).
  rewrite Z.log2_pow2 in He' by lia.
  assert (Hlm : Z.log2 (m * 100) < 39 - e).
  { apply Z.log2_lt_pow2; [lia|].
    replace (39 - e) with (39 + - e) by lia. rewrite Z.pow_add_r by lia.
    specialize (Hm' ltac:(lia)). change (2 ^ 32) with 4294967296 in Hh.
    change (2 ^ 39) with 549755813888. nia. }
  destruct (971 <? e') eqn:H971a; [lia|].
  destruct (e' =? 971) eqn:H971b; [lia|]. simpl. eauto.
Qed.

Lemma py_mod_ok (a n : Z) : n <> 0 -> py_mod a n = Ok (a mod n).
Proof. unfold py_mod. intros Hn. destruct (n =? 0) eqn:H; [lia | reflexivity]. Qed.

Lemma bytearray_setitem_ok (l : list Z) (i v : Z) :
  0 <= i < len l -> 0 <= v < 256 ->
  bytearray_setitem l i v = Ok (<[Z.to_nat i := v]> l).
Proof.
  unfold bytearray_setitem, is_byte. intros Hi Hv.
  destruct (i <? 0) eqn:Hneg; [lia|].
  destruct (0 <=? v) eqn:H0; [|lia]. destruct (v <? 256) eqn:H1; [|lia].
  destruct (i <? 0) eqn:H2; [lia|]. destruct (len l <=? i) eqn:H3; [lia|].
  reflexivity.
Qed.

Lemma bytes_ok_insert (l : list Z) (i : nat) (v : Z) :
  bytes_ok l -> 0 <= v < 256 -> bytes_ok (<[i := v]> l).
Proof. unfold bytes_ok. intros Hl Hv. apply Forall_insert; assumption. Qed.

Lemma len_insert (l : list Z) (i : nat) (v : Z) : len (<[i := v]> l) = len l.
Proof. unfold len. rewrite length_insert. reflexivity. Qed.

Lemma zth_insert_eq (l : list Z) (i v : Z) :
  0 <= i < len l -> zth (<[Z.to_nat i := v]> l) i = v.
Proof.
  unfold zth, len. intros Hi.
  apply nth_lookup_Some with (d := 0).
  apply list_lookup_insert_eq. lia.
Qed.

(** ** QMCv2_RC4Cipher: the walk over the copy of the box *)

Section Walk.

Import QMCv2_RC4Cipher.


Lemma rc4_step_ok (n : Z) (st : Z * Z * list Z) :
  0 < n -> box_ok n st -> box_ok n (rc4_step n st).
Proof.
  destruct st as [[j k] bx]. unfold box_ok. simpl. intros Hn [Hlen Hb].
  split; [rewrite !len_insert; exact Hlen|].
  apply bytes_ok_insert; [apply bytes_ok_insert; [exact Hb|] |];
    apply zth_byte; try exact Hb; rewrite Hlen; apply Z.mod_pos_bound; exact Hn.
Qed.

Lemma rc4_out_byte (n : Z) (st : Z * Z * list Z) :
  0 < n -> box_ok n st -> 0 <= rc4_out n st < 256.
Proof.
  destruct st as [[j k] bx]. unfold box_ok, rc4_out. simpl. intros Hn [Hlen Hb].
  apply zth_byte; [exact Hb|]. rewrite Hlen. apply Z.mod_pos_bound. exact Hn.
Qed.

Lemma repeat_rc4_step_ok (n : Z) (t : nat) (st : Z * Z * list Z) :
  0 < n -> box_ok n st -> box_ok n (repeat_n t (rc4_step n) st).
Proof.
  intros Hn. revert st. induction t as [|t IH]; intros st Hst; simpl; [exact Hst|].
  apply IH, rc4_step_ok; assumption.
Qed.


Lemma bind_ok {A B} (m : M A) (k : A -> M B) (w w' : world) (a : A) :
  m w = (Ok a, w') -> bind m k w = k a w'.
Proof. unfold bind. intros ->. reflexivity. Qed.

Lemma lift_ok {A} (r : result A) (a : A) (w : world) :
  r = Ok a -> lift r w = (Ok a, w).
Proof. intros ->. reflexivity. Qed.

Lemma key_length_upd (w : world) (l : loc) (v : list Z) :
  key_length (upd w l v) = (Ok (len (key (self w))), upd w l v).
Proof. reflexivity. Qed.

Lemma getitem_upd (w : world) (l : loc) (v : list Z) (i : Z) :
  0 <= i < len v ->
  getitem l i (upd w l v) = (Ok (zth v i), upd w l v).
Proof.
  intros Hi. unfold getitem, upd. simpl.
  rewrite lookup_insert_eq, py_getitem_zth by exact Hi. reflexivity.
Qed.

Lemma setitem_upd (w : world) (l : loc) (v : list Z) (i x : Z) :
  0 <= i < len v -> 0 <= x < 256 ->
  setitem l i x (upd w l v) = (Ok tt, upd w l (<[Z.to_nat i := x]> v)).
Proof.
  intros Hi Hx. unfold setitem, upd. simpl.
  rewrite lookup_insert_eq, bytearray_setitem_ok by assumption.
  rewrite insert_insert_eq. reflexivity.
Qed.

Lemma walk_body_eq (w : world) (box : loc) (i j k : Z) (bx buf : list Z) :
  let n := len (key (self w)) in
  0 < n -> box_ok n (j, k, bx) -> bytes_ok buf -> i < len buf ->
  let st := rc4_step n (j, k, bx) in
  walk_body box i (j, k, buf) (upd w box bx)
  = (Ok (fst (fst st), snd (fst st),
         if 0 <=? i then <[Z.to_nat i := Z.lxor (zth buf i) (rc4_out n st)]> buf
         else buf),
     upd w box (snd st)).
Proof.
  intros n Hn [Hlen Hb] Hbuf Hi st. simpl in Hlen, Hb.
  pose proof (rc4_step_ok n (j, k, bx) Hn (conj Hlen Hb)) as [Hlen' Hb'].
  pose proof (rc4_out_byte n _ Hn (rc4_step_ok n (j, k, bx) Hn (conj Hlen Hb))) as Hout.
  fold st in Hlen', Hb', Hout. subst st. unfold rc4_step, rc4_out in *.
  simpl in Hlen', Hb', Hout |- *.
  set (j1 := (j + 1) mod n) in *.
  set (k1 := (zth bx j1 + k) mod n) in *.
  assert (Hj1 : 0 <= j1 < len bx) by (rewrite Hlen; apply Z.mod_pos_bound; exact Hn).
  assert (Hk1 : 0 <= k1 < len bx) by (rewrite Hlen; apply Z.mod_pos_bound; exact Hn).
  set (bx1 := <[Z.to_nat j1 := zth bx k1]> bx) in *.
  set (bx2 := <[Z.to_nat k1 := zth bx j1]> bx1) in *.
  unfold walk_body.
  erewrite bind_ok by apply key_length_upd. fold n.
  erewrite bind_ok by (apply lift_ok, py_mod_ok; lia). fold j1.
  erewrite bind_ok by (apply getitem_upd; exact Hj1).
  erewrite bind_ok by apply key_length_upd. fold n.
  erewrite bind_ok by (apply lift_ok, py_mod_ok; lia). fold k1.
  erewrite bind_ok by (apply getitem_upd; exact Hk1).
  erewrite bind_ok by (apply getitem_upd; exact Hj1).
  erewrite bind_ok by (apply setitem_upd; [exact Hj1 | apply zth_byte; assumption]).
  fold bx1.
  erewrite bind_ok
    by (apply setitem_upd; [unfold bx1; rewrite len_insert; exact Hk1
                           | apply zth_byte; assumption]).
  fold bx2.
  destruct (0 <=? i) eqn:Hi0; [|reflexivity].
  assert (Hi' : 0 <= i < len buf) by lia.
  erewrite bind_ok by (apply lift_ok, py_getitem_zth; exact Hi').
  erewrite bind_ok by (apply getitem_upd; rewrite Hlen', <- Hlen; exact Hj1).
  erewrite bind_ok by (apply getitem_upd; rewrite Hlen', <- Hlen; exact Hk1).
  erewrite bind_ok by apply key_length_upd. fold n.
  erewrite bind_ok by (apply lift_ok, py_mod_ok; lia).
  erewrite bind_ok
    by (apply getitem_upd; rewrite Hlen'; apply Z.mod_pos_bound; exact Hn).
  erewrite bind_ok
    by (apply lift_ok, bytearray_setitem_ok;
        [exact Hi' | apply lxor_byte; [apply zth_byte; assumption | exact Hout]]).
  reflexivity.
Qed.

End Walk.

Section WalkLoop.

Import QMCv2_RC4Cipher.

Lemma for_each_walk (w : world) (box : loc) (indices : list Z) :
  let n := len (key (self w)) in
  0 < n ->
  forall j k bx buf,
    box_ok n (j, k, bx) -> bytes_ok buf ->
    (forall i, In i indices -> i < len buf) ->
    for_each indices (walk_body box) (j, k, buf) (upd w box bx)
    = (Ok (fst (fst (fst (walk n indices (j, k, bx) buf))),
           snd (fst (fst (walk n indices (j, k, bx) buf))),
           snd (walk n indices (j, k, bx) buf)),
       upd w box (snd (fst (walk n indices (j, k, bx) buf)))).
Proof.
  intros n Hn. induction indices as [|i rest IH]; intros j k bx buf Hbox Hbuf Hidx.
  - reflexivity.
  - cbn [for_each walk].
    erewrite bind_ok
      by (apply (walk_body_eq w box i j k bx buf Hn Hbox Hbuf);
          apply Hidx; left; reflexivity).
    pose proof (rc4_step_ok n (j, k, bx) Hn Hbox) as Hbox'.
    pose proof (rc4_out_byte n _ Hn Hbox') as Hout.
    fold n. destruct (rc4_step n (j, k, bx)) as [[j' k'] bx'] eqn:Hstep.
    cbn [fst snd].
    apply IH.
    + exact Hbox'.
    + destruct (0 <=? i) eqn:Hi; [|exact Hbuf].
      apply bytes_ok_insert; [exact Hbuf|].
      apply lxor_byte; [|exact Hout].
      apply zth_byte; [exact Hbuf|].
      specialize (Hidx i (or_introl eq_refl)). lia.
    + intros i' Hi'. destruct (0 <=? i); [rewrite len_insert|];
        apply Hidx; right; exact Hi'.
Qed.

End WalkLoop.

Lemma walk_app (n : Z) (is1 is2 : list Z) (st : Z * Z * list Z) (buf : list Z) :
  walk n (is1 ++ is2) st buf
  = walk n is2 (fst (walk n is1 st buf)) (snd (walk n is1 st buf)).
Proof.
  revert st buf. induction is1 as [|i rest IH]; intros st buf; simpl; [reflexivity|].
  apply IH.
Qed.

(** Passes with a negative index only advance the walk. *)
Lemma walk_discard (n : Z) (indices : list Z) (st : Z * Z * list Z) (buf : list Z) :
  (forall i, In i indices -> i < 0) ->
  walk n indices st buf = (repeat_n (length indices) (rc4_step n) st, buf).
Proof.
  revert st. induction indices as [|i rest IH]; intros st Hneg; simpl; [reflexivity|].
  destruct (0 <=? i) eqn:Hi.
  - specialize (Hneg i (or_introl eq_refl)). lia.
  - apply IH. intros i' Hi'. apply Hneg. right. exact Hi'.
Qed.

Lemma zth_middle (pre suf : list Z) (b : Z) : zth (pre ++ b :: suf) (len pre) = b.
Proof. unfold zth, len. rewrite Nat2Z.id. apply nth_middle. Qed.

Lemma insert_middle (pre suf : list Z) (b x : Z) :
  <[Z.to_nat (len pre) := x]> (pre ++ b :: suf) = (pre ++ [x]) ++ suf.
Proof.
  unfold len. rewrite Nat2Z.id, insert_app_r_alt by lia.
  rewrite Nat.sub_diag, <- app_assoc. reflexivity.
Qed.

(** Passes over the indices of the rest of the buffer emit into it. *)
Lemma walk_emit (n : Z) (suf pre : list Z) (st : Z * Z * list Z) :
  walk n (seqZ (len pre) (len suf)) st (pre ++ suf)
  = (repeat_n (length suf) (rc4_step n) st, pre ++ emit n st suf).
Proof.
  revert pre st. induction suf as [|b rest IH]; intros pre st.
  - simpl. rewrite app_nil_r. reflexivity.
  - rewrite seqZ_cons by (unfold len; simpl; lia).
    cbn [walk emit repeat_n length].
    assert (H0 : (0 <=? len pre) = true) by (apply Z.leb_le; unfold len; lia). rewrite H0.
    rewrite zth_middle, insert_middle.
    replace (Z.succ (len pre)) with (len (pre ++ [Z.lxor b (rc4_out n (rc4_step n st))]))
      by (unfold len; rewrite length_app; simpl; lia).
    replace (Z.pred (len (b :: rest))) with (len rest)
      by (unfold len; simpl length; lia).
    rewrite IH, <- app_assoc. reflexivity.
Qed.

Lemma emit_keystream (n : Z) (ks : Z -> Z) (st0 : Z * Z * list Z)
      (buf : list Z) (t : nat) (offset : Z) :
  (forall p, offset <= p < offset + len buf ->
             ks p = rc4_out n (repeat_n (S (t + Z.to_nat (p - offset))) (rc4_step n) st0)) ->
  emit n (repeat_n t (rc4_step n) st0) buf = xor_keystream ks buf offset.
Proof.
  revert t offset. induction buf as [|b rest IH]; intros t offset Hks; [reflexivity|].
  cbn [emit xor_keystream]. rewrite <- repeat_n_snoc. f_equal.
  - rewrite Hks by (unfold len; simpl length; lia).
    rewrite Z.sub_diag. simpl Z.to_nat. rewrite Nat.add_0_r. reflexivity.
  - apply IH. intros p Hp. rewrite Hks by (unfold len in *; simpl length; lia).
    do 2 f_equal. lia.
Qed.

(** ** QMCv2_RC4Cipher: the buffer between the parts of [decrypt] *)

Lemma chunk_assign (ks : Z -> Z) (buf : list Z) (offset : Z) (d b : nat) :
  (d + b <= length buf)%nat ->
  let src := xor_keystream ks (take d buf) offset ++ drop d buf in
  take b (drop d src) = take b (drop d buf)
  /\ take d src
     ++ xor_keystream ks (take b (drop d buf)) (offset + Z.of_nat d)
     ++ drop (Nat.max d (d + b)) src
     = xor_keystream ks (take (d + b) buf) offset ++ drop (d + b) buf.
Proof.
  intros Hlen src.
  assert (HA : length (xor_keystream ks (take d buf) offset) = d).
  { rewrite xor_keystream_length, length_take. lia. }
  split.
  - unfold src. rewrite drop_app_length' by (symmetry; exact HA). reflexivity.
  - unfold src. rewrite take_app_length' by (symmetry; exact HA).
    replace (Nat.max d (d + b)) with (d + b)%nat by lia.
    rewrite drop_app_add' by (symmetry; exact HA).
    rewrite drop_drop, <- take_take_drop, xor_keystream_app.
    unfold len. rewrite length_take.
    replace (Z.of_nat (d `min` length buf)) with (Z.of_nat d) by lia.
    rewrite <- app_assoc. reflexivity.
Qed.

Section Progress.

Import QMCv2_RC4Cipher.

Variables (ks : Z -> Z) (buf : list Z) (offset0 : Z).

Lemma progress_start :
  progress ks buf offset0
           {| src := buf; offset := offset0; pending := len buf; done := 0 |}.
Proof.
  unfold progress, len. simpl. repeat match goal with |- _ /\ _ => split end; try lia.
  reflexivity.
Qed.

Lemma progress_chunk (s : locals) (blksize : Z) :
  progress ks buf offset0 s -> 0 <= blksize <= pending s ->
  py_slice (src s) (done s) (done s + blksize)
  = take (Z.to_nat blksize) (drop (Z.to_nat (done s)) buf).
Proof.
  intros (Hd & Ho & Hp & Hs) Hb. unfold py_slice, len in *.
  replace (Z.to_nat (done s + blksize) - Z.to_nat (done s))%nat
    with (Z.to_nat blksize) by lia.
  rewrite Hs.
  apply (chunk_assign ks buf offset0 (Z.to_nat (done s)) (Z.to_nat blksize)). lia.
Qed.

Lemma progress_step (s : locals) (blksize : Z) :
  progress ks buf offset0 s -> 0 <= blksize <= pending s ->
  progress ks buf offset0
    (fst (mark_process blksize s
            (py_slice_assign (src s) (done s) (done s + blksize)
               (xor_keystream ks
                  (take (Z.to_nat blksize) (drop (Z.to_nat (done s)) buf))
                  (offset s))))).
Proof.
  intros (Hd & Ho & Hp & Hs) Hb. unfold progress, mark_process, py_slice_assign.
  cbn [fst src offset pending done]. unfold len in *.
  repeat match goal with |- _ /\ _ => split end; try lia.
  replace (Z.to_nat (done s + blksize))
    with (Z.to_nat (done s) + Z.to_nat blksize)%nat by lia.
  rewrite Hs, Ho.
  replace (offset0 + done s) with (offset0 + Z.of_nat (Z.to_nat (done s))) by lia.
  apply (chunk_assign ks buf offset0 (Z.to_nat (done s)) (Z.to_nat blksize)). lia.
Qed.

Lemma progress_finished (s : locals) :
  progress ks buf offset0 s -> pending s = 0 ->
  src s = xor_keystream ks buf offset0.
Proof.
  intros (Hd & Ho & Hp & Hs) H0. unfold len in *. rewrite Hs.
  rewrite take_ge, drop_ge by lia. apply app_nil_r.
Qed.

Lemma progress_tail (s : locals) :
  progress ks buf offset0 s ->
  take (Z.to_nat (done s)) (src s)
  ++ xor_keystream ks (drop (Z.to_nat (done s)) buf) (offset s)
  = xor_keystream ks buf offset0
  /\ drop (Z.to_nat (done s)) (src s) = drop (Z.to_nat (done s)) buf.
Proof.
  intros (Hd & Ho & Hp & Hs). unfold len in *.
  assert (HA : length (xor_keystream ks (take (Z.to_nat (done s)) buf) offset0)
               = Z.to_nat (done s)).
  { rewrite xor_keystream_length, length_take. lia. }
  rewrite Hs, take_app_length', drop_app_length' by (symmetry; exact HA).
  split; [|reflexivity].
  rewrite <- (take_drop (Z.to_nat (done s)) buf) at 3.
  rewrite xor_keystream_app. do 2 f_equal.
  unfold len. rewrite length_take. lia.
Qed.

Lemma bytes_ok_chunk (a b : nat) : bytes_ok buf -> bytes_ok (take a (drop b buf)).
Proof. unfold bytes_ok. intros H. apply Forall_take, Forall_drop, H. Qed.

Lemma len_chunk (s : locals) (blksize : Z) :
  progress ks buf offset0 s -> 0 <= blksize <= pending s ->
  len (take (Z.to_nat blksize) (drop (Z.to_nat (done s)) buf)) = blksize.
Proof.
  intros (Hd & Ho & Hp & Hs) Hb. unfold len in *.
  rewrite length_take, length_drop. lia.
Qed.

End Progress.

(** ** QMCv2_RC4Cipher: the two segment routines, for a key without zero bytes *)

Lemma same_segment (offset i : Z) :
  0 <= i -> offset mod 5120 + i < 5120 ->
  (offset + i) mod 5120 = offset mod 5120 + i /\ (offset + i) / 5120 = offset / 5120.
Proof. intros Hi Hlt. Z.div_mod_to_equations. lia. Qed.

Lemma py_range_split (s n : Z) :
  0 <= s -> 0 <= n -> py_range (- s) n = seqZ (- s) s ++ seqZ 0 n.
Proof.
  intros Hs Hn. unfold py_range.
  replace (n - - s) with (s + n) by lia.
  rewrite seqZ_app by lia. do 2 f_equal. lia.
Qed.

Section Segments.

Import QMCv2_RC4Cipher.

Variables (k bx : list Z) (h : Z).
Hypothesis key_bytes : Forall (fun b => 1 <= b < 256) k.
Hypothesis key_nonempty : k <> [].
Hypothesis scheduled : box_ok (len k) (0, 0, bx).
Hypothesis hash_range : 1 <= h < 2 ^ 32.

Lemma key_length_pos : 0 < len k.
Proof. unfold len. destruct k; [congruence | simpl; lia]. Qed.

Lemma key_bytes_ok : bytes_ok k.
Proof.
  unfold bytes_ok. eapply Forall_impl; [exact key_bytes|].
  simpl. intros b Hb. lia.
Qed.

Lemma key_byte_pos (i : Z) : 0 <= i < len k -> 1 <= zth k i < 256.
Proof.
  intros Hi. rewrite Forall_forall in key_bytes. apply key_bytes.
  apply list_elem_of_In, nth_In. unfold len in Hi. lia.
Qed.

Lemma get_segment_skip_eq (w : world) (v : Z) :
  key (self w) = k -> _hash (self w) = Some h ->
  _get_segment_skip v w = (segment_skip k h v, w).
Proof.
  intros Hk Hh. unfold _get_segment_skip, segment_skip, bind, get_key,
    key_length, lift, hash.
  cbv beta. rewrite Hk.
  destruct (let* r := py_mod v (len k) in py_getitem k r) as [seed|e];
    [|reflexivity]. cbn [rbind]. cbv beta iota. rewrite Hh. cbv beta iota.
  destruct (let* q := py_truediv h ((v + 1) * seed) in
            py_int (py_float_mul_int q 100)) as [idx|e]; [|reflexivity].
  cbn [rbind]. cbv beta iota. rewrite Hk. reflexivity.
Qed.

Lemma segment_skip_total (v : Z) :
  0 <= v ->
  segment_skip k h v = Ok (skip_of k h v) /\ 0 <= skip_of k h v < len k.
Proof.
  intros Hv. pose proof key_length_pos as Hn.
  assert (H : exists s, segment_skip k h v = Ok s /\ 0 <= s < len k).
  { unfold segment_skip. rewrite py_mod_ok by lia. simpl.
    assert (Hr : 0 <= v mod len k < len k) by (apply Z.mod_pos_bound; exact Hn).
    rewrite py_getitem_zth by exact Hr. simpl.
    pose proof (key_byte_pos _ Hr) as Hseed.
    destruct (skip_index_total h ((v + 1) * zth k (v mod len k)) hash_range)
      as (idx & Hidx); [nia|].
    rewrite Hidx. simpl. rewrite py_mod_ok by lia.
    eexists. split; [reflexivity|]. apply Z.mod_pos_bound. exact Hn. }
  destruct H as (s & Hs & Hrange). unfold skip_of. rewrite Hs. auto.
Qed.

Lemma first_segment_body_eq (w : world) (offset i : Z) (buf : list Z) :
  key (self w) = k -> _hash (self w) = Some h ->
  bytes_ok buf -> 0 <= i < len buf -> 0 <= offset + i ->
  first_segment_body offset i buf w
  = (Ok (<[Z.to_nat i := Z.lxor (zth buf i) (zth k (skip_of k h (offset + i)))]> buf),
     w).
Proof.
  intros Hk Hh Hbuf Hi Hpos. unfold first_segment_body.
  destruct (segment_skip_total (offset + i) Hpos) as [Hs Hrange].
  erewrite bind_ok by (apply lift_ok, py_getitem_zth; exact Hi).
  erewrite bind_ok by reflexivity.
  erewrite bind_ok by (rewrite get_segment_skip_eq by assumption; rewrite Hs; reflexivity).
  rewrite Hk.
  erewrite bind_ok by (apply lift_ok, py_getitem_zth; exact Hrange).
  apply lift_ok, bytearray_setitem_ok; [exact Hi|].
  pose proof (key_byte_pos _ Hrange).
  apply lxor_byte; [apply zth_byte; assumption | lia].
Qed.

Lemma first_segment_loop (w : world) (offset : Z) (suf pre : list Z) :
  key (self w) = k -> _hash (self w) = Some h ->
  bytes_ok pre -> bytes_ok suf -> 0 <= offset ->
  for_each (seqZ (len pre) (len suf)) (first_segment_body offset) (pre ++ suf) w
  = (Ok (pre ++ xor_keystream (fun p => zth k (skip_of k h p)) suf (offset + len pre)), w).
Proof.
  intros Hk Hh. revert pre. induction suf as [|b rest IH]; intros pre Hpre Hsuf Hoff.
  - simpl. reflexivity.
  - rewrite seqZ_cons by (unfold len; simpl; lia).
    apply bytes_ok_cons in Hsuf as [Hb Hrest].
    cbn [for_each xor_keystream].
    erewrite bind_ok.
    2:{ apply first_segment_body_eq; try assumption.
        - unfold bytes_ok in *. apply Forall_app. split; [exact Hpre|].
          constructor; assumption.
        - unfold len. rewrite length_app. simpl. lia.
        - unfold len. lia. }
    rewrite zth_middle, insert_middle.
    set (b' := Z.lxor b (zth k (skip_of k h (offset + len pre)))).
    replace (Z.succ (len pre)) with (len (pre ++ [b']))
      by (unfold len; rewrite length_app; simpl; lia).
    replace (Z.pred (len (b :: rest))) with (len rest)
      by (unfold len; simpl length; lia).
    rewrite IH; [| | exact Hrest | exact Hoff].
    + rewrite <- app_assoc.
      replace (offset + len (pre ++ [b'])) with (offset + len pre + 1)
        by (unfold len; rewrite length_app; simpl; lia).
      reflexivity.
    + unfold bytes_ok in *. apply Forall_app. split; [exact Hpre|].
      constructor; [|constructor].
      assert (Hr : 0 <= skip_of k h (offset + len pre) < len k).
      { apply segment_skip_total. unfold len. lia. }
      pose proof (key_byte_pos _ Hr). apply lxor_byte; [exact Hb | lia].
Qed.

(** [_enc_1st_segment] on a buffer that ends in the first segment. *)
Lemma enc_1st_segment_eq (w : world) (buf : list Z) (offset : Z) :
  key (self w) = k -> _hash (self w) = Some h ->
  bytes_ok buf -> 0 <= offset -> offset + len buf <= 128 ->
  _enc_1st_segment buf offset w
  = (Ok (xor_keystream (rc4_keystream k bx h) buf offset), w).
Proof.
  intros Hk Hh Hbuf Hoff Hend. unfold _enc_1st_segment, py_range.
  rewrite Z.sub_0_r.
  pose proof (first_segment_loop w offset buf [] Hk Hh ltac:(constructor) Hbuf Hoff)
    as Hloop.
  change (len []) with 0 in Hloop. simpl app in Hloop. rewrite Z.add_0_r in Hloop.
  rewrite Hloop. do 2 f_equal.
  apply xor_keystream_ext. intros p Hp. unfold rc4_keystream.
  destruct (p <? 128) eqn:H128; [reflexivity | lia].
Qed.

(** [_enc_another_segment] on a buffer that starts past the first
    segment and ends in the segment it starts in: the box is copied
    into a new object, and the walk is run there. *)
Lemma enc_another_segment_eq (w : world) (buf : list Z) (offset : Z) :
  ready k bx h w ->
  bytes_ok buf -> 128 <= offset -> offset mod 5120 + len buf <= 5120 ->
  exists bx',
    _enc_another_segment buf offset w
    = (Ok (xor_keystream (rc4_keystream k bx h) buf offset),
       upd w (fresh (dom (heap w))) bx').
Proof.
  intros (Hk & Hh & b & Hb & Hbx) Hbuf Hoff Hend.
  pose proof key_length_pos as Hn.
  unfold _enc_another_segment.
  erewrite bind_ok by (unfold box; rewrite Hb; reflexivity).
  erewrite bind_ok by (unfold bytearray_copy; rewrite Hbx; reflexivity).
  fold (upd w (fresh (dom (heap w))) bx).
  set (copy := fresh (dom (heap w))).
  erewrite bind_ok by (apply lift_ok, py_mod_ok; lia).
  erewrite bind_ok by (apply lift_ok; reflexivity).
  assert (Hseg : 0 <= offset / 5120) by (apply Z.div_pos; lia).
  destruct (segment_skip_total (offset / 5120) Hseg) as [Hs Hrange].
  erewrite bind_ok
    by (rewrite get_segment_skip_eq by assumption; rewrite Hs; reflexivity).
  set (s := skip_of k h (offset / 5120)) in *.
  assert (Hm : 0 <= offset mod 5120 < 5120) by (apply Z.mod_pos_bound; lia).
  assert (Hwk : 0 < len (key (self w))) by (rewrite Hk; exact Hn).
  erewrite bind_ok.
  2:{ apply (for_each_walk w copy _ Hwk 0 0 bx buf).
      - rewrite Hk. exact scheduled.
      - exact Hbuf.
      - intros i Hi. apply in_py_range in Hi. lia. }
  rewrite Hk.
  rewrite py_range_split by (unfold len; lia).
  rewrite walk_app.
  rewrite (walk_discard (len k) (seqZ (- (offset mod 5120 + s)) (offset mod 5120 + s)))
    by (intros i Hi; apply list_elem_of_In, elem_of_seqZ in Hi; lia).
  cbn [fst snd].
  pose proof (walk_emit (len k) buf [] (repeat_n (length (seqZ (- (offset mod 5120 + s)) (offset mod 5120 + s)))
                                                (rc4_step (len k)) (0, 0, bx))) as Hemit.
  change (len []) with 0 in Hemit. simpl app in Hemit. rewrite Hemit.
  cbn [fst snd]. eexists. unfold ret. do 2 f_equal.
  rewrite length_seqZ.
  apply emit_keystream. intros p Hp. unfold rc4_keystream.
  destruct (p <? 128) eqn:H128; [lia|].
  destruct (same_segment offset (p - offset)) as [Hmod Hdiv]; [lia | lia |].
  replace (offset + (p - offset)) with p in * by lia.
  rewrite Hmod, Hdiv. fold s. do 2 f_equal. lia.
Qed.

Lemma ready_upd_fresh (w : world) (v : list Z) :
  ready k bx h w -> ready k bx h (upd w (fresh (dom (heap w))) v).
Proof.
  intros (Hk & Hh & b & Hb & Hbx). repeat split; [exact Hk | exact Hh |].
  exists b. split; [exact Hb|]. simpl.
  rewrite lookup_insert_ne; [exact Hbx|].
  intros Heq. pose proof (is_fresh (dom (heap w))) as Hfresh.
  rewrite Heq in Hfresh. apply Hfresh, elem_of_dom. eauto.
Qed.

(** *** The parts of [decrypt] *)

Ltac splits := repeat match goal with |- _ /\ _ => split end.

Variables (buf : list Z) (offset0 : Z).
Hypothesis buf_bytes : bytes_ok buf.
Hypothesis offset0_nonneg : 0 <= offset0.

Local Abbreviation ks := (rc4_keystream k bx h).

Lemma decrypt_first_eq (w : world) :
  ready k bx h w ->
  let s := {| src := buf; offset := offset0; pending := len buf; done := 0 |} in
  exists s' fin,
    decrypt_first s w = (Ok (s', fin), w)
    /\ progress ks buf offset0 s'
    /\ (fin = true -> src s' = xor_keystream ks buf offset0)
    /\ (fin = false -> 128 <= QMCv2_RC4Cipher.offset s').
Proof.
  intros Hready s. pose proof (progress_start ks buf offset0) as Hs. fold s in Hs.
  destruct Hready as (Hk & Hh & _).
  unfold decrypt_first. cbn [QMCv2_RC4Cipher.offset pending src s].
  destruct (offset0 <? 128) eqn:H128.
  - set (blksize := if len buf >? 128 - offset0 then 128 - offset0 else len buf).
    assert (Hblk : 0 <= blksize <= pending s).
    { unfold blksize. cbn [pending s]. destruct (_ >? _) eqn:Hc; unfold len in *; lia. }
    pose proof (progress_chunk ks buf offset0 s blksize Hs Hblk) as Hchunk.
    pose proof (progress_step ks buf offset0 s blksize Hs Hblk) as Hstep.
    pose proof (len_chunk ks buf offset0 s blksize Hs Hblk) as Hlen.
    cbn [src done QMCv2_RC4Cipher.offset s] in Hchunk, Hstep, Hlen.
    rewrite Z.add_0_l in Hchunk, Hstep. rewrite Hchunk.
    erewrite bind_ok.
    2:{ apply (enc_1st_segment_eq w); try assumption.
        - apply bytes_ok_chunk, buf_bytes.
        - rewrite Hlen. unfold blksize. destruct (_ >? _) eqn:Hc; lia. }
    unfold ret. do 2 eexists. split; [reflexivity|].
    fold s. split; [exact Hstep|]. split.
    + intros Hfin. apply (progress_finished ks buf offset0 _ Hstep).
      cbn [mark_process snd fst pending] in Hfin |- *.
      apply Z.eqb_eq in Hfin. exact Hfin.
    + intros Hfin. cbn [mark_process snd fst pending QMCv2_RC4Cipher.offset s] in Hfin |- *.
      apply Z.eqb_neq in Hfin. apply Z.ltb_lt in H128.
      unfold s in Hfin. cbn [pending] in Hfin.
      unfold blksize in *. destruct (len buf >? 128 - offset0) eqn:Hc.
      * lia.
      * lia.
  - unfold ret. exists s, false. splits; auto.
    + discriminate.
    + intros _. simpl. lia.
Qed.

Lemma decrypt_unaligned_eq (w : world) (s : locals) :
  ready k bx h w -> progress ks buf offset0 s ->
  128 <= QMCv2_RC4Cipher.offset s ->
  exists s' fin w',
    decrypt_unaligned s w = (Ok (s', fin), w')
    /\ ready k bx h w'
    /\ progress ks buf offset0 s'
    /\ (fin = true -> src s' = xor_keystream ks buf offset0)
    /\ (fin = false -> QMCv2_RC4Cipher.offset s' mod 5120 = 0
                       /\ 128 <= QMCv2_RC4Cipher.offset s').
Proof.
  intros Hready Hs H128. unfold decrypt_unaligned.
  assert (Hm : 0 <= QMCv2_RC4Cipher.offset s mod 5120 < 5120)
    by (apply Z.mod_pos_bound; lia).
  destruct (QMCv2_RC4Cipher.offset s mod 5120 =? 0) eqn:Hal; cbn [negb].
  - unfold ret. exists s, false, w. splits; auto; try discriminate.
    intros _. split; lia.
  - set (blksize := if pending s >? 5120 - QMCv2_RC4Cipher.offset s mod 5120
                    then 5120 - QMCv2_RC4Cipher.offset s mod 5120 else pending s).
    assert (Hp : 0 <= pending s) by (destruct Hs as (? & ? & ? & ?); lia).
    assert (Hblk : 0 <= blksize <= pending s).
    { unfold blksize. destruct (_ >? _) eqn:Hc; lia. }
    pose proof (progress_chunk ks buf offset0 s blksize Hs Hblk) as Hchunk.
    pose proof (progress_step ks buf offset0 s blksize Hs Hblk) as Hstep.
    pose proof (len_chunk ks buf offset0 s blksize Hs Hblk) as Hlen.
    rewrite Hchunk.
    destruct (enc_another_segment_eq w
                (take (Z.to_nat blksize) (drop (Z.to_nat (done s)) buf))
                (QMCv2_RC4Cipher.offset s) Hready) as (bx' & Henc).
    { apply bytes_ok_chunk, buf_bytes. }
    { exact H128. }
    { rewrite Hlen. unfold blksize. destruct (_ >? _) eqn:Hc; lia. }
    erewrite bind_ok by exact Henc.
    unfold ret. do 3 eexists. split; [reflexivity|].
    split; [apply ready_upd_fresh, Hready|].
    split; [exact Hstep|]. split.
    + intros Hfin. apply (progress_finished ks buf offset0 _ Hstep).
      cbn [mark_process snd fst pending] in Hfin |- *.
      apply Z.eqb_eq in Hfin. exact Hfin.
    + intros Hfin. cbn [mark_process snd fst pending QMCv2_RC4Cipher.offset] in Hfin |- *.
      apply Z.eqb_neq in Hfin.
      assert (Hb : blksize = 5120 - QMCv2_RC4Cipher.offset s mod 5120).
      { unfold blksize in *. destruct (_ >? _) eqn:Hc; lia. }
      split; [|lia]. rewrite Hb.
      replace (QMCv2_RC4Cipher.offset s + (5120 - QMCv2_RC4Cipher.offset s mod 5120))
        with (5120 * (QMCv2_RC4Cipher.offset s / 5120 + 1))
        by (pose proof (Z.div_mod (QMCv2_RC4Cipher.offset s) 5120 ltac:(lia)); lia).
      rewrite Z.mul_comm. apply Z.mod_mul. lia.
Qed.

Lemma decrypt_whole_segment_eq (w : world) (s : locals) :
  ready k bx h w -> progress ks buf offset0 s ->
  QMCv2_RC4Cipher.offset s mod 5120 = 0 -> 128 <= QMCv2_RC4Cipher.offset s ->
  5120 < pending s ->
  exists s' w',
    decrypt_whole_segment s w = (Ok s', w')
    /\ ready k bx h w'
    /\ progress ks buf offset0 s'
    /\ QMCv2_RC4Cipher.offset s' mod 5120 = 0
    /\ 128 <= QMCv2_RC4Cipher.offset s'
    /\ pending s' = pending s - 5120.
Proof.
  intros Hready Hs Hal H128 Hp. unfold decrypt_whole_segment.
  assert (Hblk : 0 <= 5120 <= pending s) by lia.
  pose proof (progress_chunk ks buf offset0 s 5120 Hs Hblk) as Hchunk.
  pose proof (progress_step ks buf offset0 s 5120 Hs Hblk) as Hstep.
  pose proof (len_chunk ks buf offset0 s 5120 Hs Hblk) as Hlen.
  rewrite Hchunk.
  destruct (enc_another_segment_eq w
              (take (Z.to_nat 5120) (drop (Z.to_nat (done s)) buf))
              (QMCv2_RC4Cipher.offset s) Hready) as (bx' & Henc).
  { apply bytes_ok_chunk, buf_bytes. }
  { exact H128. }
  { rewrite Hlen, Hal. lia. }
  erewrite bind_ok by exact Henc.
  unfold ret. do 2 eexists. split; [reflexivity|].
  split; [apply ready_upd_fresh, Hready|].
  split; [exact Hstep|].
  cbn [mark_process snd fst pending QMCv2_RC4Cipher.offset].
  splits; try lia.
  rewrite <- Zplus_mod_idemp_l, Hal. reflexivity.
Qed.

Lemma decrypt_while_eq (fuel : nat) (w : world) (s : locals) :
  ready k bx h w -> progress ks buf offset0 s ->
  QMCv2_RC4Cipher.offset s mod 5120 = 0 -> 128 <= QMCv2_RC4Cipher.offset s ->
  pending s / 5120 <= Z.of_nat fuel ->
  exists s' w',
    while fuel (fun s => pending s >? 5120) decrypt_whole_segment s w = (Ok s', w')
    /\ ready k bx h w'
    /\ progress ks buf offset0 s'
    /\ QMCv2_RC4Cipher.offset s' mod 5120 = 0
    /\ 128 <= QMCv2_RC4Cipher.offset s'
    /\ pending s' <= 5120.
Proof.
  revert w s. induction fuel as [|fuel IH]; intros w s Hready Hs Hal H128 Hfuel.
  - cbn [while]. destruct (pending s >? 5120) eqn:Hc.
    + exfalso. assert (1 <= pending s / 5120) by (apply Z.div_le_lower_bound; lia). lia.
    + unfold ret. exists s, w. splits; auto. lia.
  - cbn [while]. destruct (pending s >? 5120) eqn:Hc.
    + destruct (decrypt_whole_segment_eq w s Hready Hs Hal H128 ltac:(lia))
        as (s1 & w1 & Hrun & Hready1 & Hs1 & Hal1 & H1281 & Hp1).
      erewrite bind_ok by exact Hrun.
      apply IH; try assumption.
      rewrite Hp1.
      replace (pending s - 5120) with (pending s + (-1) * 5120) by lia.
      rewrite Z.div_add by lia. lia.
    + unfold ret. exists s, w. splits; auto. lia.
Qed.

Lemma decrypt_tail_eq (w : world) (s : locals) :
  ready k bx h w -> progress ks buf offset0 s ->
  QMCv2_RC4Cipher.offset s mod 5120 = 0 -> 128 <= QMCv2_RC4Cipher.offset s ->
  pending s <= 5120 ->
  exists w',
    decrypt_tail s w = (Ok (xor_keystream ks buf offset0), w')
    /\ ready k bx h w'.
Proof.
  intros Hready Hs Hal H128 Hp. unfold decrypt_tail.
  destruct (pending s >? 0) eqn:Hc.
  - destruct (progress_tail ks buf offset0 s Hs) as [Hjoin Hrest].
    rewrite Hrest.
    destruct (enc_another_segment_eq w (drop (Z.to_nat (done s)) buf)
                (QMCv2_RC4Cipher.offset s) Hready) as (bx' & Henc).
    { unfold bytes_ok. apply Forall_drop, buf_bytes. }
    { exact H128. }
    { destruct Hs as (Hd & Ho & Hpd & _). unfold len in *.
      rewrite length_drop, Hal. lia. }
    erewrite bind_ok by exact Henc.
    unfold ret. rewrite Hjoin. eexists. split; [reflexivity|].
    apply ready_upd_fresh, Hready.
  - unfold ret. exists w. split; [|exact Hready].
    rewrite (progress_finished ks buf offset0 s Hs); [reflexivity|].
    destruct Hs as (? & ? & ? & ?). lia.
Qed.

(** [decrypt] XORs the buffer with the keystream of its positions. *)
Lemma decrypt_eq (fuel : nat) (w : world) :
  ready k bx h w -> len buf / 5120 <= Z.of_nat fuel ->
  exists w',
    decrypt fuel buf offset0 w = (Ok (xor_keystream ks buf offset0), w')
    /\ ready k bx h w'.
Proof.
  intros Hready Hfuel. unfold decrypt.
  destruct (decrypt_first_eq w Hready) as (s1 & fin1 & Hrun1 & Hs1 & Hfin1 & Hnot1).
  erewrite bind_ok by exact Hrun1. cbv beta iota.
  destruct fin1.
  { unfold ret. rewrite Hfin1 by reflexivity. eauto. }
  destruct (decrypt_unaligned_eq w s1 Hready Hs1 (Hnot1 eq_refl))
    as (s2 & fin2 & w2 & Hrun2 & Hready2 & Hs2 & Hfin2 & Hnot2).
  erewrite bind_ok by exact Hrun2. cbv beta iota.
  destruct fin2.
  { unfold ret. rewrite Hfin2 by reflexivity. eauto. }
  destruct (Hnot2 eq_refl) as [Hal2 H1282].
  destruct (decrypt_while_eq fuel w2 s2 Hready2 Hs2 Hal2 H1282)
    as (s3 & w3 & Hrun3 & Hready3 & Hs3 & Hal3 & H1283 & Hp3).
  { destruct Hs2 as (Hd & _ & Hpd & _).
    assert (pending s2 / 5120 <= len buf / 5120) by (apply Z.div_le_mono; lia). lia. }
  erewrite bind_ok by exact Hrun3.
  apply decrypt_tail_eq; assumption.
Qed.

End Segments.

(** ** QMCv2_RC4Cipher: construction *)

Section Init.

Import QMCv2_RC4Cipher.

Lemma get_key_upd (w : world) (l : loc) (v : list Z) :
  get_key (upd w l v) = (Ok (key (self w)), upd w l v).
Proof. reflexivity. Qed.

Lemma box_upd (w : world) (l : loc) (v : list Z) (b : loc) :
  _box (self w) = Some b -> box (upd w l v) = (Ok b, upd w l v).
Proof. intros Hb. unfold box. cbn [upd self]. rewrite Hb. reflexivity. Qed.

Lemma schedule_body_eq (w : world) (b : loc) (i j : Z) (bx : list Z) :
  _box (self w) = Some b ->
  let n := len (key (self w)) in
  0 <= i < n -> len bx = n -> bytes_ok bx ->
  schedule_body i j (upd w b bx)
  = (Ok (fst (schedule_step (key (self w)) i (j, bx))),
     upd w b (snd (schedule_step (key (self w)) i (j, bx)))).
Proof.
  intros Hb n Hi Hlen Hbx. unfold schedule_body, schedule_step. fold n.
  cbn [fst snd].
  set (j' := (j + zth bx i + zth (key (self w)) (i mod n)) mod n).
  assert (Hn : 0 < n) by lia.
  assert (Hj' : 0 <= j' < len bx) by (rewrite Hlen; apply Z.mod_pos_bound; exact Hn).
  erewrite bind_ok by (apply box_upd; exact Hb).
  erewrite bind_ok by (apply getitem_upd; lia).
  erewrite bind_ok by apply get_key_upd.
  erewrite bind_ok by apply key_length_upd. fold n.
  erewrite bind_ok.
  2:{ apply lift_ok. rewrite py_mod_ok by lia. cbn [rbind].
      apply py_getitem_zth. apply Z.mod_pos_bound. exact Hn. }
  erewrite bind_ok by apply key_length_upd. fold n.
  erewrite bind_ok by (apply lift_ok, py_mod_ok; lia). fold j'.
  erewrite bind_ok by (apply getitem_upd; exact Hj').
  erewrite bind_ok by (apply getitem_upd; lia).
  erewrite bind_ok
    by (apply setitem_upd; [lia | apply zth_byte; [exact Hbx | exact Hj']]).
  erewrite bind_ok
    by (apply setitem_upd; [rewrite len_insert; exact Hj'
                           | apply zth_byte; [exact Hbx | lia]]).
  reflexivity.
Qed.

Lemma schedule_step_ok (k : list Z) (i : Z) (st : Z * list Z) :
  0 <= i < len k -> len (snd st) = len k -> bytes_ok (snd st) ->
  len (snd (schedule_step k i st)) = len k
  /\ bytes_ok (snd (schedule_step k i st)).
Proof.
  destruct st as [j bx]. unfold schedule_step. cbn [snd]. intros Hi Hlen Hbx.
  assert (Hj : 0 <= (j + zth bx i + zth k (i mod len k)) mod len k < len bx)
    by (rewrite Hlen; apply Z.mod_pos_bound; lia).
  split; [rewrite !len_insert; exact Hlen|].
  apply bytes_ok_insert; [apply bytes_ok_insert; [exact Hbx|] |];
    apply zth_byte; try exact Hbx; lia.
Qed.

Lemma for_each_schedule (w : world) (b : loc) (indices : list Z) :
  _box (self w) = Some b ->
  let k := key (self w) in
  (forall i, In i indices -> 0 <= i < len k) ->
  forall j bx,
    len bx = len k -> bytes_ok bx ->
    for_each indices schedule_body j (upd w b bx)
    = (Ok (fst (schedule k indices (j, bx))),
       upd w b (snd (schedule k indices (j, bx))))
    /\ len (snd (schedule k indices (j, bx))) = len k
    /\ bytes_ok (snd (schedule k indices (j, bx))).
Proof.
  intros Hb k. induction indices as [|i rest IH]; intros Hidx j bx Hlen Hbx.
  - cbn. auto.
  - cbn [for_each schedule fold_left].
    assert (Hi : 0 <= i < len k) by (apply Hidx; left; reflexivity).
    erewrite bind_ok by (apply schedule_body_eq; assumption).
    destruct (schedule_step_ok k i (j, bx) Hi Hlen Hbx) as [Hlen' Hbx'].
    fold k. destruct (schedule_step k i (j, bx)) as [j' bx'] eqn:Hstep.
    cbn [fst snd] in *.
    apply IH; try assumption.
    intros i' Hi'. apply Hidx. right. exact Hi'.
Qed.

Lemma initial_box_ok (n : Z) :
  len ((fun i => i mod 256) <$> py_range 0 n) = Z.max n 0
  /\ bytes_ok ((fun i => i mod 256) <$> py_range 0 n).
Proof.
  split.
  - unfold len, py_range. rewrite length_fmap, length_seqZ. lia.
  - unfold bytes_ok. apply Forall_fmap, Forall_forall. intros i _. simpl.
    apply Z.mod_pos_bound. lia.
Qed.

Lemma hash_loop_range (k : list Z) (hb : Z) :
  1 <= hb < 2 ^ 32 -> 1 <= hash_loop k hb < 2 ^ 32.
Proof.
  revert hb. induction k as [|v rest IH]; intros hb Hhb; cbn [hash_loop]; [exact Hhb|].
  destruct (v =? 0); [apply IH, Hhb|].
  assert (Hn : 0 <= Z.land (hb * v) 0xffffffff < 2 ^ 32).
  { rewrite land_mask32. apply Z.mod_pos_bound. lia. }
  destruct (Z.land (hb * v) 0xffffffff =? 0) eqn:H0; cbn [orb]; [exact Hhb|].
  destruct (Z.land (hb * v) 0xffffffff <=? hb) eqn:H1; [exact Hhb|].
  apply IH. lia.
Qed.

(** [QMCv2_RC4Cipher(key)] succeeds on every key that is not empty,
    and leaves the instance ready: its box in a new object, its hash. *)
Lemma init_eq (k : list Z) (h0 : gmap loc (list Z)) :
  k <> [] ->
  exists w,
    __init__ (instantiate k h0) = (Ok tt, w)
    /\ ready k (scheduled_box k) (hash_loop k 1) w
    /\ box_ok (len k) (0, 0, scheduled_box k)
    /\ 1 <= hash_loop k 1 < 2 ^ 32.
Proof.
  intros Hk.
  assert (Hn : 0 < len k) by (unfold len; destruct k; [congruence | simpl; lia]).
  unfold __init__.
  erewrite bind_ok by reflexivity. cbn [instantiate self key].
  destruct (len k =? 0) eqn:H0; [lia|].
  erewrite bind_ok by reflexivity.
  erewrite bind_ok by reflexivity.
  erewrite bind_ok by reflexivity.
  cbn [instantiate self key heap].
  set (b := fresh (dom h0)).
  set (w1 := {| self := {| key := k; _box := Some b; _hash := None |}; heap := h0 |}).
  destruct (initial_box_ok (len k)) as [Hlen0 Hbytes0].
  rewrite Z.max_l in Hlen0 by lia.
  destruct (for_each_schedule w1 b (py_range 0 (len k)) eq_refl
              ltac:(intros i Hi; apply in_py_range in Hi; exact Hi)
              0 _ Hlen0 Hbytes0) as (Hrun & Hlen & Hbytes).
  change (for_each (py_range 0 (len k)) schedule_body 0
            (upd w1 b ((fun i => i mod 256) <$> py_range 0 (len k))))
    with (for_each (py_range 0 (len k)) schedule_body 0
            {| self := {| key := k; _box := Some b; _hash := None |};
               heap := <[b := (fun i => i mod 256) <$> py_range 0 (len k)]> h0 |})
    in Hrun.
  erewrite bind_ok by exact Hrun.
  erewrite bind_ok by reflexivity.
  cbn [key self w1] in *.
  eexists. split; [reflexivity|].
  fold (scheduled_box k) in *.
  split; [|split].
  - unfold ready. cbn. split; [reflexivity|]. split; [reflexivity|].
    exists b. split; [reflexivity|]. apply lookup_insert_eq.
  - split; assumption.
  - apply hash_loop_range. lia.
Qed.

End Init.

(** ** QMCv2_RC4Cipher: consequences, for a key without zero bytes *)

Lemma zth_byte_any (l : list Z) (i : Z) : bytes_ok l -> 0 <= zth l i < 256.
Proof.
  intros Hl. unfold zth.
  destruct (Nat.lt_ge_cases (Z.to_nat i) (length l)) as [Hlt|Hge].
  - unfold bytes_ok in Hl. rewrite Forall_forall in Hl. apply Hl.
    apply list_elem_of_In, nth_In, Hlt.
  - rewrite nth_overflow by exact Hge. lia.
Qed.

Section Consequences.

Import QMCv2_RC4Cipher.

Variables (k bx : list Z) (h : Z).
Hypothesis key_good : good_key k.
Hypothesis scheduled : box_ok (len k) (0, 0, bx).
Hypothesis hash_range : 1 <= h < 2 ^ 32.

Lemma rc4_keystream_byte (p : Z) : 0 <= rc4_keystream k bx h p < 256.
Proof.
  destruct key_good as [Hne Hbytes]. unfold rc4_keystream.
  assert (Hn : 0 < len k) by (eapply key_length_pos; eassumption).
  destruct (p <? 128).
  - apply zth_byte_any. eapply key_bytes_ok; eassumption.
  - apply rc4_out_byte; [exact Hn|].
    apply repeat_rc4_step_ok; [exact Hn | exact scheduled].
Qed.

Lemma rc4_decrypt_eq (fuel : nat) (w : world) (buf : list Z) (offset : Z) :
  ready k bx h w -> bytes_ok buf -> 0 <= offset ->
  len buf / 5120 <= Z.of_nat fuel ->
  exists w',
    decrypt fuel buf offset w
    = (Ok (xor_keystream (rc4_keystream k bx h) buf offset), w')
    /\ ready k bx h w'.
Proof.
  intros Hready Hbuf Hoff Hfuel. destruct key_good as [Hne Hbytes].
  apply (decrypt_eq k bx h); assumption.
Qed.

(** Decrypting twice at the same offset gives the buffer back. *)
Lemma rc4_decrypt_twice (fuel : nat) (w : world) (buf : list Z) (offset : Z) :
  ready k bx h w -> bytes_ok buf -> 0 <= offset ->
  len buf / 5120 <= Z.of_nat fuel ->
  exists out w' w'',
    decrypt fuel buf offset w = (Ok out, w')
    /\ decrypt fuel out offset w' = (Ok buf, w'').
Proof.
  intros Hready Hbuf Hoff Hfuel.
  destruct (rc4_decrypt_eq fuel w buf offset Hready Hbuf Hoff Hfuel)
    as (w' & Hrun & Hready').
  destruct (rc4_decrypt_eq fuel w' (xor_keystream (rc4_keystream k bx h) buf offset)
              offset Hready') as (w'' & Hrun' & _).
  - apply xor_keystream_bytes_ok; [apply rc4_keystream_byte | exact Hbuf].
  - exact Hoff.
  - unfold len in *. rewrite xor_keystream_length. exact Hfuel.
  - rewrite xor_keystream_involutive in Hrun'. eauto.
Qed.

(** Decrypting the pieces of a buffer, each at its own offset, gives the
    pieces of the buffer decrypted in one call. *)
Lemma rc4_decrypt_parts_eq (fuel : nat) (parts : list (list Z)) :
  forall (w : world) (offset : Z),
    ready k bx h w -> Forall bytes_ok parts -> 0 <= offset ->
    len (concat parts) / 5120 <= Z.of_nat fuel ->
    exists w',
      decrypt_parts fuel parts offset w
      = (Ok (xor_keystream (rc4_keystream k bx h) (concat parts) offset), w')
      /\ ready k bx h w'.
Proof.
  induction parts as [|p rest IH]; intros w offset Hready Hparts Hoff Hfuel.
  - exists w. split; [reflexivity | exact Hready].
  - apply Forall_cons in Hparts as [Hp Hrest].
    cbn [decrypt_parts concat]. cbn [concat] in Hfuel.
    assert (Hlen : len (p ++ concat rest) = len p + len (concat rest))
      by (unfold len; rewrite length_app; lia).
    assert (H0p : 0 <= len p) by (unfold len; lia).
    assert (H0r : 0 <= len (concat rest)) by (unfold len; lia).
    destruct (rc4_decrypt_eq fuel w p offset Hready Hp Hoff) as (w1 & Hrun1 & Hready1).
    { assert (len p / 5120 <= len (p ++ concat rest) / 5120)
        by (apply Z.div_le_mono; lia). lia. }
    erewrite bind_ok by exact Hrun1.
    destruct (IH w1 (offset + len p) Hready1 Hrest ltac:(lia)) as (w2 & Hrun2 & Hready2).
    { assert (len (concat rest) / 5120 <= len (p ++ concat rest) / 5120)
        by (apply Z.div_le_mono; lia). lia. }
    erewrite bind_ok by exact Hrun2.
    exists w2. split; [|exact Hready2].
    unfold ret. rewrite xor_keystream_app. reflexivity.
Qed.

End Consequences.

(** The same, for an instance as [__init__] leaves it. *)
Lemma rc4_instance_ready (k : list Z) :
  k <> [] ->
  fst (QMCv2_RC4Cipher.__init__ (QMCv2_RC4Cipher.instantiate k ∅)) = Ok tt
  /\ ready k (scheduled_box k) (QMCv2_RC4Cipher.hash_loop k 1) (rc4_instance k)
  /\ box_ok (len k) (0, 0, scheduled_box k)
  /\ 1 <= QMCv2_RC4Cipher.hash_loop k 1 < 2 ^ 32.
Proof.
  intros Hk. destruct (init_eq k ∅ Hk) as (w & Hrun & Hready & Hbox & Hhash).
  unfold rc4_instance. rewrite Hrun. auto.
Qed.

(** X17: position purity of [QMCv2_RC4Cipher.decrypt], for keys without
    zero bytes: one call on the whole buffer and calls on its pieces,
    each at its own offset, return the same bytes. *)
Lemma rc4_position_purity (k : list Z) (parts : list (list Z)) (offset : Z) (fuel : nat) :
  good_key k -> Forall bytes_ok parts -> 0 <= offset ->
  len (concat parts) / 5120 <= Z.of_nat fuel ->
  exists out,
    fst (QMCv2_RC4Cipher.decrypt fuel (concat parts) offset (rc4_instance k)) = Ok out
    /\ fst (decrypt_parts fuel parts offset (rc4_instance k)) = Ok out.
Proof.
  intros Hgood Hparts Hoff Hfuel.
  destruct (rc4_instance_ready k (proj1 Hgood)) as (_ & Hready & Hbox & Hhash).
  destruct (rc4_decrypt_eq k _ _ Hgood Hbox Hhash fuel _ (concat parts) offset Hready)
    as (w1 & Hrun1 & _); try assumption.
  { unfold bytes_ok. apply Forall_concat. exact Hparts. }
  destruct (rc4_decrypt_parts_eq k _ _ Hgood Hbox Hhash fuel parts _ offset Hready)
    as (w2 & Hrun2 & _); try assumption.
  rewrite Hrun1, Hrun2. eauto.
Qed.

(** X16: [QMCv2_RC4Cipher.decrypt] undoes itself, for keys without zero
    bytes: decrypting the result again at the same offset, on the same
    instance, gives the buffer back. *)
Lemma rc4_decrypt_involutive (k buf : list Z) (offset : Z) (fuel : nat) :
  good_key k -> bytes_ok buf -> 0 <= offset ->
  len buf / 5120 <= Z.of_nat fuel ->
  exists out w' w'',
    QMCv2_RC4Cipher.decrypt fuel buf offset (rc4_instance k) = (Ok out, w')
    /\ QMCv2_RC4Cipher.decrypt fuel out offset w' = (Ok buf, w'').
Proof.
  intros Hgood Hbuf Hoff Hfuel.
  destruct (rc4_instance_ready k (proj1 Hgood)) as (_ & Hready & Hbox & Hhash).
  apply (rc4_decrypt_twice k _ _ Hgood Hbox Hhash); assumption.
Qed.

(** ** The ciphers on concrete inputs *)

(** C1: the specification has [TC_TEACipher.decrypt] return
    [len(s) - 16] bytes on every input whose length is a multiple of 8,
    at least 16, and whose header gives pad length 6.  On the 24-byte input
    [envelope24], which meets all three conditions, the code raises
    [IndexError] instead of returning 8 bytes. *)
Theorem envelope_decrypt_24_bytes_raises :
  TC_TEACipher.__init__ zero_key 64 0x9e3779b9 = Ok envelope0
  /\ len envelope24 = 24
  /\ header_pad_len envelope0 envelope24 = Ok 6
  /\ TC_TEACipher.decrypt 8 envelope0 envelope24 = Raise IndexError.
Proof. repeat split; vm_compute; reflexivity. Qed.

(** C4: the specification has the integrity check compare the 7
    zero-check bytes at 7 successive positions with [iv_prev] and raise
    a decryption error on a mismatch.  The loop of the code runs over
    [range(1, 7)], six passes, each comparing the same position
    [dest_idx]: on [check_state], where 6 of the 7 bytes from [dest_idx]
    on differ from [iv_prev], it passes.  And on the 16-byte input
    [envelope16], the one length at which the check is reached, [iv_prev]
    is empty and the first comparison raises [IndexError]. *)
Theorem zero_check_compares_one_position :
  length (py_range 1 (TC_TEACipher._zero_len envelope0)) = 6%nat
  /\ TC_TEACipher.zero_check (py_range 1 (TC_TEACipher._zero_len envelope0))
                              check_state = Ok tt
  /\ header_pad_len envelope0 envelope16 = Ok 6
  /\ TC_TEACipher.decrypt 8 envelope0 envelope16 = Raise IndexError.
Proof. repeat split; vm_compute; reflexivity. Qed.

(** C3: the specification has [decrypt] of a constructed
    [QMCv2_RC4Cipher] never fail, the divisor
    [(segmentIndex + 1) * seed] being never zero.  With the one-byte key
    [b'\x00'] construction succeeds, the divisor at position 0 is
    [(0 + 1) * key[0] = 0], and [decrypt(b'\x01', 0)] raises
    [ZeroDivisionError]. *)
Theorem rc4_zero_seed_divides_by_zero :
  fst (QMCv2_RC4Cipher.__init__ (QMCv2_RC4Cipher.instantiate [0] ∅)) = Ok tt
  /\ (0 + 1) * zth [0] (0 mod len [0]) = 0
  /\ fst (QMCv2_RC4Cipher._get_segment_skip 0 (rc4_instance [0]))
     = Raise ZeroDivisionError
  /\ fst (QMCv2_RC4Cipher.decrypt 1 [1] 0 (rc4_instance [0]))
     = Raise ZeroDivisionError.
Proof. repeat split; vm_compute; reflexivity. Qed.

(** C5: the specification states position purity of
    [QMCv2_RC4Cipher.decrypt] for every valid key.  With the key [b'\x00'] neither the call on
    [b'\x01\x02'] nor the calls on its two halves return: all raise
    [ZeroDivisionError].  With [key_zero_first] the call on 28 bytes at
    offset 100 returns, and the same bytes cut at 128 into the 28 bytes
    and an empty rest do not: the call on the empty rest at offset 128
    computes the skip of segment 0, whose seed is [key[0] = 0]. *)
Theorem rc4_position_purity_fails_on_zero_key_byte :
  fst (QMCv2_RC4Cipher.decrypt 1 [1; 2] 0 (rc4_instance [0]))
  = Raise ZeroDivisionError
  /\ fst (decrypt_parts 1 [[1]; [2]] 0 (rc4_instance [0]))
     = Raise ZeroDivisionError
  /\ fst (QMCv2_RC4Cipher.decrypt 1 (concat [replicate 28 7; []]) 100
            (rc4_instance key_zero_first))
     = Ok (replicate 28 7)
  /\ fst (decrypt_parts 1 [replicate 28 7; []] 100 (rc4_instance key_zero_first))
     = Raise ZeroDivisionError.
Proof. repeat split; vm_compute; reflexivity. Qed.

(** C7: the specification states
    [decrypt(decrypt(buf, offset), offset) == buf] for the two mask
    ciphers and [QMCv2_RC4Cipher], for every valid key.
    With the key [b'\x05\x00\x07'], [QMCv2_RC4Cipher.decrypt] of
    [b'\x01\x02\x03'] at offset 0 raises [ZeroDivisionError] at the
    second byte (seed [key[1] = 0]), so there is nothing to decrypt
    again. *)
Theorem rc4_involution_fails_on_zero_key_byte :
  fst (QMCv2_RC4Cipher.__init__ (QMCv2_RC4Cipher.instantiate [5; 0; 7] ∅)) = Ok tt
  /\ fst (QMCv2_RC4Cipher.decrypt 1 [1; 2; 3] 0 (rc4_instance [5; 0; 7]))
     = Raise ZeroDivisionError.
Proof. repeat split; vm_compute; reflexivity. Qed.

(** C8, as stated, fails: [TC_TEACipher.decrypt] of an empty input does
    not return an empty output. *)
Lemma envelope_rejects_empty_input :
  TC_TEACipher.decrypt 8 envelope0 [] <> Ok [].
Proof. vm_compute. discriminate. Qed.

(** C8, amended: on a zero-length buffer, at any offset >= 0,
    [QMCv1_StaticMapCipher], [QMCv2_DynamicMapCipher] and (for a key
    without zero bytes) [QMCv2_RC4Cipher] return a zero-length output;
    the TEA block cipher cannot unpack an empty block and raises, and
    [TC_TEACipher] rejects the input as too small. *)
Theorem empty_buffer_decrypt
        (k : list Z) (fuel : nat) (offset : Z)
        (dyn : QMCv2_DynamicMapCipher.t) (tea : QMC_TEACipher.t)
        (env : TC_TEACipher.t) :
  good_key k ->
  0 <= offset ->
  QMCv1_StaticMapCipher.decrypt [] offset = Ok []
  /\ QMCv2_DynamicMapCipher.decrypt dyn [] offset = Ok []
  /\ fst (QMCv2_RC4Cipher.decrypt fuel [] offset (rc4_instance k)) = Ok []
  /\ QMC_TEACipher.decrypt tea [] = Raise struct_error
  /\ TC_TEACipher.decrypt fuel env [] = Raise (DecryptionError SourceTooSmall).
Proof.
  intros Hgood Hoff.
  split; [reflexivity|]. split; [reflexivity|]. split; [|split; reflexivity].
  destruct (rc4_instance_ready k (proj1 Hgood)) as (_ & Hready & Hbox & Hhash).
  destruct (rc4_decrypt_eq k _ _ Hgood Hbox Hhash fuel _ [] offset Hready)
    as (w' & Hrun & _).
  - constructor.
  - exact Hoff.
  - change (len []) with 0. change (0 / 5120) with 0. lia.
  - rewrite Hrun. reflexivity.
Qed.

Lemma empty_buffer_decrypt_witness :
  good_key [3; 1; 4]
  /\ 0 <= 5000
  /\ QMCv1_StaticMapCipher.decrypt [] 5000 = Ok []
  /\ QMCv2_DynamicMapCipher.decrypt {| QMCv2_DynamicMapCipher.key := [3; 1; 4] |} [] 5000
     = Ok []
  /\ fst (QMCv2_RC4Cipher.decrypt 0 [] 5000 (rc4_instance [3; 1; 4])) = Ok []
  /\ QMC_TEACipher.decrypt tea0 [] = Raise struct_error
  /\ TC_TEACipher.decrypt 0 envelope0 [] = Raise (DecryptionError SourceTooSmall).
Proof.
  assert (Hgood : good_key [3; 1; 4]).
  { split; [discriminate|]. repeat constructor; lia. }
  assert (Hoff : 0 <= 5000) by lia.
  split; [exact Hgood|]. split; [exact Hoff|].
  exact (empty_buffer_decrypt [3; 1; 4] 0 5000
           {| QMCv2_DynamicMapCipher.key := [3; 1; 4] |} tea0 envelope0 Hgood Hoff).
Defined.

Lemma tea_encrypt_decrypt_roundtrip_witness :
  QMC_TEACipher.__init__ zero_key 64 0x9e3779b9 = Ok tea0
  /\ length [1; 2; 3; 4; 5; 6; 7; 8] = 8%nat
  /\ bytes_ok [1; 2; 3; 4; 5; 6; 7; 8]
  /\ exists y, QMC_TEACipher.decrypt tea0 [1; 2; 3; 4; 5; 6; 7; 8] = Ok y
               /\ QMC_TEACipher.encrypt tea0 y = Ok [1; 2; 3; 4; 5; 6; 7; 8].
Proof.
  assert (Hinit : QMC_TEACipher.__init__ zero_key 64 0x9e3779b9 = Ok tea0)
    by reflexivity.
  assert (Hlen : length [1; 2; 3; 4; 5; 6; 7; 8] = 8%nat) by reflexivity.
  assert (Hbytes : bytes_ok [1; 2; 3; 4; 5; 6; 7; 8]) by (repeat constructor; lia).
  split; [exact Hinit|]. split; [exact Hlen|]. split; [exact Hbytes|].
  exact (tea_encrypt_decrypt_roundtrip zero_key [1; 2; 3; 4; 5; 6; 7; 8] 64
           0x9e3779b9 tea0 Hinit Hlen Hbytes).
Defined.

Lemma envelope_decrypt_raises_index_error_witness :
  TC_TEACipher.__init__ zero_key 64 0x9e3779b9 = Ok envelope0
  /\ len envelope24 mod 8 = 0
  /\ 16 <= len envelope24
  /\ header_pad_len envelope0 envelope24 = Ok 6
  /\ (3 <= 3)%nat
  /\ TC_TEACipher.decrypt 3 envelope0 envelope24 = Raise IndexError.
Proof.
  assert (Hinit : TC_TEACipher.__init__ zero_key 64 0x9e3779b9 = Ok envelope0)
    by reflexivity.
  assert (Hmod : len envelope24 mod 8 = 0) by reflexivity.
  assert (Hlen : 16 <= len envelope24) by (vm_compute; discriminate).
  assert (Hpad : header_pad_len envelope0 envelope24 = Ok 6)
    by (vm_compute; reflexivity).
  assert (Hfuel : (3 <= 3)%nat) by lia.
  repeat (split; [assumption|]).
  exact (envelope_decrypt_raises_index_error zero_key envelope24 64 0x9e3779b9
           envelope0 3 Hinit Hmod Hlen Hpad Hfuel).
Defined.

Lemma dynamic_mask_value_witness :
  let self := {| QMCv2_DynamicMapCipher.key := [1; 2; 3] |} in
  QMCv2_DynamicMapCipher.key self <> []
  /\ bytes_ok (QMCv2_DynamicMapCipher.key self)
  /\ QMCv2_DynamicMapCipher._get_mask self 5 = Ok 64.
Proof.
  intros self.
  assert (Hne : QMCv2_DynamicMapCipher.key self <> []) by discriminate.
  assert (Hbytes : bytes_ok (QMCv2_DynamicMapCipher.key self))
    by (repeat constructor; lia).
  split; [exact Hne|]. split; [exact Hbytes|].
  exact (proj1 (dynamic_mask_value self 5 Hne Hbytes)).
Defined.

Lemma decrypt_leaves_box_and_hash_witness :
  let w := rc4_instance [3; 1; 4] in
  let w' := snd (QMCv2_RC4Cipher.decrypt 1 [1; 2; 3] 126 w) in
  QMCv2_RC4Cipher._box (QMCv2_RC4Cipher.self w) = Some 1%positive
  /\ QMCv2_RC4Cipher.heap w !! 1%positive = Some [0; 1; 2]
  /\ QMCv2_RC4Cipher.heap w' !! 1%positive = Some [0; 1; 2]
  /\ QMCv2_RC4Cipher._hash (QMCv2_RC4Cipher.self w')
     = QMCv2_RC4Cipher._hash (QMCv2_RC4Cipher.self w).
Proof.
  intros w w'.
  assert (Hbox : QMCv2_RC4Cipher._box (QMCv2_RC4Cipher.self w) = Some 1%positive)
    by (vm_compute; reflexivity).
  assert (Hcell : QMCv2_RC4Cipher.heap w !! 1%positive = Some [0; 1; 2])
    by (vm_compute; reflexivity).
  destruct (decrypt_leaves_box_and_hash 1 [1; 2; 3] 126 w) as (Hhash & _ & Hkeep & _).
  split; [exact Hbox|]. split; [exact Hcell|].
  split; [exact (Hkeep _ _ Hbox Hcell) | exact Hhash].
Defined.

(** ** QMC_TEACipher: more on blocks *)

Section TEAMore.

Import QMC_TEACipher.

Lemma encrypt_round_words k0 k1 k2 k3 delta s :
words (encrypt_round k0 k1 k2 k3 delta s).
Proof.
destruct s as [[v0 v1] cs]. unfold words, word, encrypt_round. simpl.
rewrite !land_mask32.
repeat match goal with |- _ /\ _ => split end; apply Z.mod_pos_bound; lia.
Qed.

Lemma decrypt_encrypt_round k0 k1 k2 k3 delta s :
words s ->
decrypt_round k0 k1 k2 k3 delta (encrypt_round k0 k1 k2 k3 delta s) = s.
Proof.
destruct s as [[v0 v1] cs]. unfold words, word. simpl.
intros (H0 & H1 & Hc).
rewrite !land_mask32.
set (cs' := (cs + delta) mod 2 ^ 32).
set (w0 := (v0 + mix v1 k0 k1 cs') mod 2 ^ 32).
assert (Hv1 : ((v1 + mix w0 k2 k3 cs') mod 2 ^ 32 - mix w0 k2 k3 cs') mod 2 ^ 32 = v1).
{ rewrite Zminus_mod_idemp_l.
  replace (v1 + mix w0 k2 k3 cs' - mix w0 k2 k3 cs') with v1 by lia.
  apply Z.mod_small. lia. }
rewrite Hv1.
assert (Hv0 : (w0 - mix v1 k0 k1 cs') mod 2 ^ 32 = v0).
{ unfold w0. rewrite Zminus_mod_idemp_l.
  replace (v0 + mix v1 k0 k1 cs' - mix v1 k0 k1 cs') with v0 by lia.
  apply Z.mod_small. lia. }
rewrite Hv0.
assert (Hcs : (cs' - delta) mod 2 ^ 32 = cs).
{ unfold cs'. rewrite Zminus_mod_idemp_l.
  replace (cs + delta - delta) with cs by lia. apply Z.mod_small. lia. }
rewrite Hcs. reflexivity.
Qed.

Lemma repeat_encrypt_round_words k0 k1 k2 k3 delta n s :
words s -> words (repeat_n n (encrypt_round k0 k1 k2 k3 delta) s).
Proof.
destruct n as [|n]; [trivial|]. intros _. rewrite repeat_n_snoc.
apply encrypt_round_words.
Qed.

Lemma decrypt_encrypt_rounds k0 k1 k2 k3 delta n s :
words s ->
repeat_n n (decrypt_round k0 k1 k2 k3 delta)
         (repeat_n n (encrypt_round k0 k1 k2 k3 delta) s) = s.
Proof.
induction n as [|n IH]; intros Hs; [reflexivity|].
rewrite (repeat_n_snoc n (encrypt_round k0 k1 k2 k3 delta)).
simpl. rewrite decrypt_encrypt_round by (apply repeat_encrypt_round_words; exact Hs).
apply IH, Hs.
Qed.

(** The running sum after [n] passes of the encryption loop. *)
Lemma encrypt_rounds_ciphersum k0 k1 k2 k3 delta n v0 v1 cs :
word cs ->
snd (repeat_n n (encrypt_round k0 k1 k2 k3 delta) (v0, v1, cs))
= (cs + Z.of_nat n * delta) mod 2 ^ 32.
Proof.
revert v0 v1 cs. induction n as [|n IH]; intros v0 v1 cs Hc.
- simpl. rewrite Z.add_0_r. symmetry. apply Z.mod_small. exact Hc.
- simpl. rewrite IH.
  + rewrite land_mask32, Zplus_mod_idemp_l. f_equal. lia.
  + rewrite land_mask32. apply Z.mod_pos_bound. lia.
Qed.

Lemma put_uint32_bytes (v : Z) : bytes_ok (_put_uint32 v).
Proof.
unfold _put_uint32. repeat (apply bytes_ok_cons; split);
  try (apply Z.mod_pos_bound; lia). constructor.
Qed.

Lemma low_byte_of_word (v k : Z) :
0 <= k -> 0 <= 24 - k ->
((v mod 2 ^ 32) / 2 ^ k) mod 256 = (v / 2 ^ k) mod 256.
Proof.
intros Hk Hk'.
assert (Hp : 0 < 2 ^ k) by (apply Z.pow_pos_nonneg; lia).
assert (E : v mod 2 ^ 32 = v + (- (v / 2 ^ 32) * 2 ^ (24 - k) * 256) * 2 ^ k).
{ rewrite Z.mod_eq by lia.
  replace (2 ^ 32) with (2 ^ (24 - k) * 256 * 2 ^ k) at 1.
  - ring.
  - change 256 with (2 ^ 8). rewrite <- !Z.pow_add_r by lia. f_equal. lia. }
rewrite E, Z.div_add by lia.
apply Z_mod_plus_full.
Qed.

Lemma put_uint32_mod (v : Z) : _put_uint32 (v mod 2 ^ 32) = _put_uint32 v.
Proof.
unfold _put_uint32. rewrite !Z.shiftr_div_pow2 by lia.
rewrite !low_byte_of_word by lia.
pose proof (low_byte_of_word v 0 ltac:(lia) ltac:(lia)) as H0.
rewrite !Z.pow_0_r, !Z.div_1_r in H0. rewrite H0. reflexivity.
Qed.

End TEAMore.

(** A block encrypted and then decrypted, whatever the attributes of the
    instance, its key being of 16 bytes. *)
Lemma encrypt_then_decrypt (self : QMC_TEACipher.t) (x : list Z) :
  QMC_TEACipher.key_length self = 16 ->
  length x = 8%nat ->
  bytes_ok x ->
  exists y, QMC_TEACipher.encrypt self x = Ok y
            /\ QMC_TEACipher.decrypt self y = Ok x.
Proof.
  intros Hkey Hlen Hx.
  destruct (key_words self Hkey) as (k0 & k1 & k2 & k3 & Hvals).
  destruct x as [|b0 [|b1 [|b2 [|b3 [|b4 [|b5 [|b6 [|b7 [|? ?]]]]]]]]];
    try discriminate.
  assert (Hhi : bytes_ok [b0; b1; b2; b3]).
  { rewrite !bytes_ok_cons in *. intuition (auto; constructor). }
  assert (Hlo : bytes_ok [b4; b5; b6; b7]).
  { rewrite !bytes_ok_cons in *. intuition. }
  set (v0 := ((b0 * 256 + b1) * 256 + b2) * 256 + b3) in *.
  set (v1 := ((b4 * 256 + b5) * 256 + b6) * 256 + b7) in *.
  assert (Hw0 : word v0) by (apply (unpack_word [b0; b1; b2; b3]); auto).
  assert (Hw1 : word v1) by (apply (unpack_word [b4; b5; b6; b7]); auto).
  unfold QMC_TEACipher.decrypt, QMC_TEACipher.encrypt.
  rewrite Hvals.
  change (BE_Uint32_unpack (py_slice [b0; b1; b2; b3; b4; b5; b6; b7] 0 4))
    with (Ok v0).
  change (BE_Uint32_unpack (py_slice [b0; b1; b2; b3; b4; b5; b6; b7] 4 8))
    with (Ok v1).
  cbv beta iota delta [rbind].
  set (delta := QMC_TEACipher._delta self).
  set (n := Z.to_nat (QMC_TEACipher._rounds self / 2)).
  change (Z.land 0 0xffffffff) with 0.
  assert (Hcs : word 0) by (unfold word; lia).
  pose proof (decrypt_encrypt_rounds k0 k1 k2 k3 delta n (v0, v1, 0)) as Hrt.
  pose proof (repeat_encrypt_round_words k0 k1 k2 k3 delta n (v0, v1, 0)) as Hws.
  pose proof (encrypt_rounds_ciphersum k0 k1 k2 k3 delta n v0 v1 0 Hcs) as Hsum.
  destruct (repeat_n n (QMC_TEACipher.encrypt_round k0 k1 k2 k3 delta) (v0, v1, 0))
    as [[w0 w1] cs'] eqn:Henc.
  assert (Hw : words (w0, w1, cs')) by (apply Hws; unfold words; simpl; auto).
  destruct Hw as (Hww0 & Hww1 & _). simpl in Hww0, Hww1, Hsum.
  eexists. split; [reflexivity|].
  rewrite Hvals.
  change (py_slice (QMC_TEACipher._put_uint32 w0 ++ QMC_TEACipher._put_uint32 w1) 0 4)
    with (QMC_TEACipher._put_uint32 w0).
  change (py_slice (QMC_TEACipher._put_uint32 w0 ++ QMC_TEACipher._put_uint32 w1) 4 8)
    with (QMC_TEACipher._put_uint32 w1).
  rewrite !unpack_put by assumption.
  cbv beta iota delta [rbind].
  assert (Hloop :
    repeat_n n (QMC_TEACipher.decrypt_round k0 k1 k2 k3 delta)
             (w0, w1, Z.land (delta * (QMC_TEACipher._rounds self / 2)) 0xffffffff)
    = (v0, v1, 0)
    \/ (n = 0%nat /\ w0 = v0 /\ w1 = v1)).
  { destruct (Z_lt_le_dec (QMC_TEACipher._rounds self / 2) 0) as [Hneg|Hpos].
    - right. assert (Hn : n = 0%nat) by (unfold n; lia).
      rewrite Hn in Henc. simpl in Henc. inversion Henc. auto.
    - left. rewrite <- Hrt by (unfold words; simpl; auto).
      f_equal. f_equal. rewrite Hsum. unfold n. rewrite Z2Nat.id by lia.
      rewrite land_mask32. f_equal. lia. }
  destruct Hloop as [-> | (-> & -> & ->)]; simpl repeat_n; cbv iota beta;
    subst v0 v1;
    rewrite (put_unpack b0 b1 b2 b3 Hhi), (put_unpack b4 b5 b6 b7 Hlo);
    reflexivity.
Qed.

(** X1: the other round trip of the TEA block cipher: for every instance
    [__init__] accepts and every block of 8 bytes, [encrypt] returns a
    block that [decrypt] takes back to the first. *)
Theorem tea_decrypt_encrypt_roundtrip
        (key x : list Z) (rounds magic_number : Z) (self : QMC_TEACipher.t) :
  QMC_TEACipher.__init__ key rounds magic_number = Ok self ->
  length x = 8%nat ->
  bytes_ok x ->
  exists y, QMC_TEACipher.encrypt self x = Ok y
            /\ QMC_TEACipher.decrypt self y = Ok x.
Proof.
  intros Hinit Hlen Hx.
  apply encrypt_then_decrypt; [|exact Hlen | exact Hx].
  apply (init_key_length key rounds magic_number), Hinit.
Qed.

Lemma tea_decrypt_encrypt_roundtrip_witness :
  QMC_TEACipher.__init__ zero_key 64 0x9e3779b9 = Ok tea0
  /\ length [8; 7; 6; 5; 4; 3; 2; 1] = 8%nat
  /\ bytes_ok [8; 7; 6; 5; 4; 3; 2; 1]
  /\ exists y, QMC_TEACipher.encrypt tea0 [8; 7; 6; 5; 4; 3; 2; 1] = Ok y
               /\ QMC_TEACipher.decrypt tea0 y = Ok [8; 7; 6; 5; 4; 3; 2; 1].
Proof.
  assert (Hinit : QMC_TEACipher.__init__ zero_key 64 0x9e3779b9 = Ok tea0)
    by reflexivity.
  assert (Hlen : length [8; 7; 6; 5; 4; 3; 2; 1] = 8%nat) by reflexivity.
  assert (Hbytes : bytes_ok [8; 7; 6; 5; 4; 3; 2; 1]) by (repeat constructor; lia).
  split; [exact Hinit|]. split; [exact Hlen|]. split; [exact Hbytes|].
  exact (tea_decrypt_encrypt_roundtrip zero_key [8; 7; 6; 5; 4; 3; 2; 1] 64
           0x9e3779b9 tea0 Hinit Hlen Hbytes).
Defined.

(** X2: [decrypt] and [encrypt] read the first 8 bytes of their input and
    nothing else: on an input of 8 bytes or more they return 8 bytes, each
    in [range(256)], the same as on its first 8 bytes alone. *)
Theorem tea_block_uses_first_8_bytes
        (key src : list Z) (rounds magic_number : Z) (self : QMC_TEACipher.t) :
  QMC_TEACipher.__init__ key rounds magic_number = Ok self ->
  (8 <= length src)%nat ->
  (exists out, QMC_TEACipher.decrypt self src = Ok out
               /\ QMC_TEACipher.decrypt self (take 8 src) = Ok out
               /\ length out = 8%nat /\ bytes_ok out)
  /\ (exists out, QMC_TEACipher.encrypt self src = Ok out
                  /\ QMC_TEACipher.encrypt self (take 8 src) = Ok out
                  /\ length out = 8%nat /\ bytes_ok out).
Proof.
  intros Hinit Hlen.
  destruct (key_words self (init_key_length _ _ _ _ Hinit))
    as (k0 & k1 & k2 & k3 & Hvals).
  destruct src as [|b0 [|b1 [|b2 [|b3 [|b4 [|b5 [|b6 [|b7 rest]]]]]]]];
    simpl in Hlen; try lia.
  unfold QMC_TEACipher.decrypt, QMC_TEACipher.encrypt. rewrite !Hvals.
  assert (E1 : forall t, py_slice (b0 :: b1 :: b2 :: b3 :: b4 :: b5 :: b6 :: b7 :: t) 0 4
                         = [b0; b1; b2; b3]) by reflexivity.
  assert (E2 : forall t, py_slice (b0 :: b1 :: b2 :: b3 :: b4 :: b5 :: b6 :: b7 :: t) 4 8
                         = [b4; b5; b6; b7]) by reflexivity.
  cbn [take]. rewrite !E1, !E2. cbn [BE_Uint32_unpack rbind].
  split.
  - match goal with
    | |- context [repeat_n ?n ?f ?s] => destruct (repeat_n n f s) as [[w0 w1] cs]
    end.
    eexists. split; [reflexivity|]. split; [reflexivity|]. split; [reflexivity|].
    unfold bytes_ok. apply Forall_app. split; apply put_uint32_bytes.
  - match goal with
    | |- context [repeat_n ?n ?f ?s] => destruct (repeat_n n f s) as [[w0 w1] cs]
    end.
    eexists. split; [reflexivity|]. split; [reflexivity|]. split; [reflexivity|].
    unfold bytes_ok. apply Forall_app. split; apply put_uint32_bytes.
Qed.

Lemma tea_block_uses_first_8_bytes_witness :
  QMC_TEACipher.__init__ zero_key 64 0x9e3779b9 = Ok tea0
  /\ (8 <= length [1; 2; 3; 4; 5; 6; 7; 8; 9; 10])%nat
  /\ QMC_TEACipher.decrypt tea0 [1; 2; 3; 4; 5; 6; 7; 8; 9; 10]
     = QMC_TEACipher.decrypt tea0 [1; 2; 3; 4; 5; 6; 7; 8].
Proof.
  assert (Hinit : QMC_TEACipher.__init__ zero_key 64 0x9e3779b9 = Ok tea0)
    by reflexivity.
  assert (Hlen : (8 <= length [1; 2; 3; 4; 5; 6; 7; 8; 9; 10])%nat) by (simpl; lia).
  split; [exact Hinit|]. split; [exact Hlen|].
  destruct (tea_block_uses_first_8_bytes zero_key [1; 2; 3; 4; 5; 6; 7; 8; 9; 10]
              64 0x9e3779b9 tea0 Hinit Hlen) as [(out & H1 & H2 & _) _].
  rewrite H1. symmetry. exact H2.
Defined.

(** X3: an input of fewer than 8 bytes is no block: [decrypt] and
    [encrypt] raise [struct.error], whatever the key. *)
Theorem tea_short_block_raises (self : QMC_TEACipher.t) (src : list Z) :
  (length src < 8)%nat ->
  QMC_TEACipher.decrypt self src = Raise struct_error
  /\ QMC_TEACipher.encrypt self src = Raise struct_error.
Proof.
  intros Hlen.
  assert (H : QMC_TEACipher._get_values_from_src_data self src = Raise struct_error).
  { unfold QMC_TEACipher._get_values_from_src_data.
    destruct src as [|b0 [|b1 [|b2 [|b3 [|b4 [|b5 [|b6 [|b7 rest]]]]]]]];
      simpl in Hlen; try lia; reflexivity. }
  unfold QMC_TEACipher.decrypt, QMC_TEACipher.encrypt. rewrite H. split; reflexivity.
Qed.

Lemma tea_short_block_raises_witness :
  (length [1; 2; 3; 4; 5; 6; 7] < 8)%nat
  /\ QMC_TEACipher.decrypt tea0 [1; 2; 3; 4; 5; 6; 7] = Raise struct_error.
Proof.
  assert (Hlen : (length [1; 2; 3; 4; 5; 6; 7] < 8)%nat) by (simpl; lia).
  split; [exact Hlen|].
  exact (proj1 (tea_short_block_raises tea0 [1; 2; 3; 4; 5; 6; 7] Hlen)).
Defined.

(** X4: [_put_uint32] writes the low 32 bits of any integer, big endian:
    its 4 bytes unpack to [value mod 2 ^ 32], and 4 bytes that are unpacked
    and put again are the same 4 bytes. *)
Theorem put_uint32_codec (value : Z) (b0 b1 b2 b3 : Z) :
  bytes_ok [b0; b1; b2; b3] ->
  BE_Uint32_unpack (QMC_TEACipher._put_uint32 value) = Ok (value mod 2 ^ 32)
  /\ bytes_ok (QMC_TEACipher._put_uint32 value)
  /\ (exists v, BE_Uint32_unpack [b0; b1; b2; b3] = Ok v
                /\ QMC_TEACipher._put_uint32 v = [b0; b1; b2; b3]).
Proof.
  intros Hb. split; [|split].
  - rewrite <- put_uint32_mod. apply unpack_put.
    unfold word. apply Z.mod_pos_bound. lia.
  - apply put_uint32_bytes.
  - eexists. split; [reflexivity|]. apply put_unpack, Hb.
Qed.

Lemma put_uint32_codec_witness :
  bytes_ok [1; 2; 3; 4]
  /\ BE_Uint32_unpack (QMC_TEACipher._put_uint32 (-1)) = Ok 4294967295.
Proof.
  assert (Hb : bytes_ok [1; 2; 3; 4]) by (repeat constructor; lia).
  split; [exact Hb|].
  exact (proj1 (put_uint32_codec (-1) 1 2 3 4 Hb)).
Defined.

(** ** TC_TEACipher: every outcome of [decrypt] *)

(** Past its three checks, [decrypt] reads a byte of the empty [iv_prev]. *)
Lemma envelope_checked_input_raises
        (key src : list Z) (rounds magic_number : Z) (self : TC_TEACipher.t)
        (fuel : nat) :
  TC_TEACipher.__init__ key rounds magic_number = Ok self ->
  len src mod 8 = 0 ->
  16 <= len src ->
  header_pad_len self src = Ok 6 ->
  (3 <= fuel)%nat ->
  TC_TEACipher.decrypt fuel self src = Raise IndexError.
Proof.
  intros Hinit Hmod Hlen Hpad Hfuel.
  destruct (init_fields _ _ _ _ Hinit) as (Hkey & Hsalt & Hzero).
  unfold TC_TEACipher.decrypt.
  rewrite Hmod. simpl negb. cbv iota.
  destruct (len src <? 16) eqn:H16; [lia|].
  unfold header_pad_len in Hpad.
  destruct (original_tea_decrypt_total self src Hkey) as (d & Hd & Hdlen);
    [unfold len in Hlen; lia|].
  rewrite Hd in *. simpl rbind in *.
  destruct (py_getitem d 0) as [d0|] eqn:Hd0; [|discriminate].
  simpl rbind in *. injection Hpad as Hpad. rewrite Hpad, Hsalt, Hzero.
  simpl negb. cbv iota.
  unfold py_bytearray. destruct (len src - 6 - 2 - 7 - 1 <? 0) eqn:Hout; [lia|].
  simpl rbind.
  destruct fuel as [|[|[|fuel]]]; try lia.
  (* the salt loop: one step inside the header block, one new block, one step *)
  cbn [TC_TEACipher.salt_loop]. rewrite Hsalt.
  cbn [TC_TEACipher.dest_idx TC_TEACipher.set_dest_idx TC_TEACipher.iv_prev
       TC_TEACipher.iv_cur TC_TEACipher.dest_data TC_TEACipher.src_pos].
  change (1 <=? 2) with true. change (6 + 1 <? 8) with true.
  change (1 + 1 <=? 2) with true. change (6 + 1 + 1 <? 8) with false.
  change (6 + 1 + 1 =? 8) with true. cbv iota.
  unfold TC_TEACipher.crypt_block.
  cbn [TC_TEACipher.dest_idx TC_TEACipher.set_dest_idx TC_TEACipher.iv_prev
       TC_TEACipher.iv_cur TC_TEACipher.dest_data TC_TEACipher.src_pos].
  set (blk := py_slice src 8 (8 + 8)).
  assert (Hblk : length blk = 8%nat).
  { unfold blk, py_slice. rewrite length_take, length_drop.
    unfold len in Hlen. lia. }
  destruct (strxor_ok (py_slice d 0 8) (py_slice blk 0 8)) as (x & Hx & Hxlen).
  { unfold py_slice. rewrite !length_take, !length_drop. lia. }
  rewrite Hx. simpl rbind.
  destruct (original_tea_decrypt_total self x Hkey) as (d' & Hd' & Hd'len).
  { rewrite Hxlen. unfold py_slice. rewrite length_take, length_drop. lia. }
  rewrite Hd'. simpl rbind.
  cbn [TC_TEACipher.dest_idx TC_TEACipher.set_dest_idx TC_TEACipher.iv_prev
       TC_TEACipher.iv_cur TC_TEACipher.dest_data TC_TEACipher.src_pos].
  change (0 <? 8) with true. cbv iota.
  assert (Hexit : forall f s, TC_TEACipher.salt_loop f self src (1 + 1 + 1) s = Ok s).
  { intros [|f] s; simpl; rewrite Hsalt; reflexivity. }
  rewrite Hexit. simpl rbind.
  destruct (py_getitem_ok d' (0 + 1)) as (a & Ha & _); [unfold len; lia|].
  destruct (0 <? len src - 6 - 2 - 7 - 1) eqn:Hempty.
  - (* some output is due: the first byte reads [iv_prev[1]] *)
    cbn [TC_TEACipher.output_loop TC_TEACipher.dest_idx TC_TEACipher.iv_prev
         TC_TEACipher.dest_data].
    change (0 + 1 <? 8) with true. cbv iota.
    rewrite Ha. reflexivity.
  - (* 16 bytes: no output, the zero check reads [iv_prev[1]] *)
    cbn [rbind TC_TEACipher.dest_idx TC_TEACipher.iv_prev
         TC_TEACipher.dest_data TC_TEACipher.set_dest_idx].
    rewrite Ha. reflexivity.
Qed.

(** X5: what [TC_TEACipher.decrypt] does on every input, its two loops
    given 3 passes or more: a length that is no multiple of 8, then a
    length below 16, then a header whose pad length is not 6 are rejected
    with their own [DecryptionError]; every other input ends in
    [IndexError].  No input is decrypted. *)
Theorem envelope_decrypt_outcomes
        (key src : list Z) (rounds magic_number : Z) (self : TC_TEACipher.t)
        (fuel : nat) :
  TC_TEACipher.__init__ key rounds magic_number = Ok self ->
  (3 <= fuel)%nat ->
  TC_TEACipher.decrypt fuel self src
  = (if negb (len src mod 8 =? 0) then
       Raise (DecryptionError NotMultipleOfBlockSize)
     else if len src <? 16 then Raise (DecryptionError SourceTooSmall)
     else match header_pad_len self src with
          | Ok pad_len =>
              if pad_len =? 6 then Raise IndexError
              else Raise (DecryptionError InvalidPadLen)
          | Raise e => Raise e
          end)
  /\ (16 <= len src -> exists pad_len,
         header_pad_len self src = Ok pad_len /\ 0 <= pad_len < 8)
  /\ (forall out, TC_TEACipher.decrypt fuel self src <> Ok out).
Proof.
  intros Hinit Hfuel.
  destruct (init_fields _ _ _ _ Hinit) as (Hkey & Hsalt & Hzero).
  assert (Hpad : 16 <= len src -> exists pad_len,
            header_pad_len self src = Ok pad_len /\ 0 <= pad_len < 8).
  { intros Hlen. unfold header_pad_len.
    destruct (original_tea_decrypt_total self src Hkey) as (d & Hd & Hdlen);
      [unfold len in Hlen; lia|].
    rewrite Hd. cbn [rbind].
    destruct (py_getitem_ok d 0) as (d0 & Hd0 & _); [unfold len; lia|].
    rewrite Hd0. cbn [rbind]. eexists. split; [reflexivity|].
    change 7 with (Z.ones 3). rewrite Z.land_ones by lia.
    apply Z.mod_pos_bound. lia. }
  assert (Heq : TC_TEACipher.decrypt fuel self src
    = (if negb (len src mod 8 =? 0) then
         Raise (DecryptionError NotMultipleOfBlockSize)
       else if len src <? 16 then Raise (DecryptionError SourceTooSmall)
       else match header_pad_len self src with
            | Ok pad_len =>
                if pad_len =? 6 then Raise IndexError
                else Raise (DecryptionError InvalidPadLen)
            | Raise e => Raise e
            end)).
  { destruct (len src mod 8 =? 0) eqn:Hmod; cbn [negb].
    2:{ unfold TC_TEACipher.decrypt. rewrite Hmod. reflexivity. }
    destruct (len src <? 16) eqn:H16.
    { unfold TC_TEACipher.decrypt. rewrite Hmod, H16. reflexivity. }
    apply Z.eqb_eq in Hmod. apply Z.ltb_ge in H16.
    destruct (Hpad H16) as (p & Hp & Hrange). rewrite Hp.
    destruct (p =? 6) eqn:H6.
    - apply Z.eqb_eq in H6. subst p.
      apply (envelope_checked_input_raises key src rounds magic_number); assumption.
    - unfold TC_TEACipher.decrypt.
      apply Z.eqb_eq in Hmod. rewrite Hmod. apply Z.ltb_ge in H16. rewrite H16.
      cbn [negb]. unfold header_pad_len in Hp.
      destruct (TC_TEACipher.original_tea_decrypt self src) as [d|e]; [|discriminate].
      cbn [rbind] in *.
      destruct (py_getitem d 0) as [d0|e]; [|discriminate].
      cbn [rbind] in *. injection Hp as Hp. rewrite Hp, Hsalt.
      destruct (p + 2 =? 8) eqn:H8; [|reflexivity].
      apply Z.eqb_eq in H8. apply Z.eqb_neq in H6. lia. }
  split; [exact Heq|]. split; [exact Hpad|].
  intros out. rewrite Heq.
  destruct (negb (len src mod 8 =? 0)); [discriminate|].
  destruct (len src <? 16); [discriminate|].
  destruct (header_pad_len self src) as [p|e]; [|discriminate].
  destruct (p =? 6); discriminate.
Qed.

Lemma envelope_decrypt_outcomes_witness :
  TC_TEACipher.__init__ zero_key 64 0x9e3779b9 = Ok envelope0
  /\ (3 <= 3)%nat
  /\ TC_TEACipher.decrypt 3 envelope0 (replicate 15 0)
     = Raise (DecryptionError NotMultipleOfBlockSize).
Proof.
  assert (Hinit : TC_TEACipher.__init__ zero_key 64 0x9e3779b9 = Ok envelope0)
    by reflexivity.
  assert (Hfuel : (3 <= 3)%nat) by lia.
  split; [exact Hinit|]. split; [exact Hfuel|].
  exact (proj1 (envelope_decrypt_outcomes zero_key (replicate 15 0) 64 0x9e3779b9
                  envelope0 3 Hinit Hfuel)).
Defined.

(** ** The mask ciphers: more on their keystreams *)

Lemma xor_keystream_lookup (ks : Z -> Z) (buf : list Z) (offset : Z) (i : nat) :
  xor_keystream ks buf offset !! i
  = (fun b => Z.lxor b (ks (offset + Z.of_nat i))) <$> buf !! i.
Proof.
  revert offset i. induction buf as [|b rest IH]; intros offset [|i]; simpl;
    try reflexivity.
  - rewrite Z.add_0_r. reflexivity.
  - rewrite IH. replace (offset + 1 + Z.of_nat i) with (offset + Z.pos (Pos.of_succ_nat i))
      by lia. reflexivity.
Qed.

Lemma mask_of_ok (mask : Z -> result Z) (p m : Z) :
  mask p = Ok m -> mask_of mask p = m.
Proof. unfold mask_of. intros ->. reflexivity. Qed.

(** What the generator of a mask cipher returns, byte for byte. *)
Lemma mask_stream_bytes (mask : Z -> result Z) (buf : list Z) (offset : Z) :
  (forall p, exists m, mask p = Ok m /\ 0 <= m < 256) ->
  bytes_ok buf ->
  let out := xor_keystream (mask_of mask) buf offset in
  length out = length buf
  /\ bytes_ok out
  /\ (forall (i : nat) (b : Z), buf !! i = Some b ->
        exists m, mask (offset + Z.of_nat i) = Ok m
                  /\ out !! i = Some (Z.lxor b m)).
Proof.
  intros Hmask Hbuf out. split; [apply xor_keystream_length|]. split.
  - apply xor_keystream_bytes_ok; [apply mask_of_byte, Hmask | exact Hbuf].
  - intros i b Hb. destruct (Hmask (offset + Z.of_nat i)) as (m & Hm & _).
    exists m. split; [exact Hm|].
    unfold out. rewrite xor_keystream_lookup, Hb. simpl.
    rewrite (mask_of_ok _ _ _ Hm). reflexivity.
Qed.

(** X6: [QMCv1_StaticMapCipher.decrypt] never fails on bytes: it returns
    as many bytes as it got, and byte [i] is the byte [i] of the input
    XORed with [_get_mask(offset + i)]. *)
Theorem static_decrypt_bytes (buf : list Z) (offset : Z) :
  bytes_ok buf ->
  exists out,
    QMCv1_StaticMapCipher.decrypt buf offset = Ok out
    /\ length out = length buf
    /\ bytes_ok out
    /\ (forall (i : nat) (b : Z), buf !! i = Some b ->
          exists m, QMCv1_StaticMapCipher._get_mask (offset + Z.of_nat i) = Ok m
                    /\ out !! i = Some (Z.lxor b m)).
Proof.
  intros Hbuf. eexists. split; [apply static_decrypt_spec, Hbuf|].
  apply mask_stream_bytes; [apply static_mask_total | exact Hbuf].
Qed.

Lemma static_decrypt_bytes_witness :
  bytes_ok [0; 0; 0; 0]
  /\ exists out, QMCv1_StaticMapCipher.decrypt [0; 0; 0; 0] 0 = Ok out
                 /\ length out = 4%nat.
Proof.
  assert (Hb : bytes_ok [0; 0; 0; 0]) by (repeat constructor; lia).
  split; [exact Hb|].
  destruct (static_decrypt_bytes [0; 0; 0; 0] 0 Hb) as (out & Hrun & Hlen & _).
  exists out. split; [exact Hrun | exact Hlen].
Defined.

(** X7: [QMCv2_DynamicMapCipher.decrypt], with any key that is not empty,
    never fails on bytes: it returns as many bytes as it got, and byte
    [i] is the byte [i] of the input XORed with
    [_get_mask(offset + i)]. *)
Theorem dynamic_decrypt_bytes (self : QMCv2_DynamicMapCipher.t)
        (buf : list Z) (offset : Z) :
  QMCv2_DynamicMapCipher.key self <> [] ->
  bytes_ok buf ->
  exists out,
    QMCv2_DynamicMapCipher.decrypt self buf offset = Ok out
    /\ length out = length buf
    /\ bytes_ok out
    /\ (forall (i : nat) (b : Z), buf !! i = Some b ->
          exists m, QMCv2_DynamicMapCipher._get_mask self (offset + Z.of_nat i) = Ok m
                    /\ out !! i = Some (Z.lxor b m)).
Proof.
  intros Hkey Hbuf. eexists. split; [apply dynamic_decrypt_spec; assumption|].
  apply mask_stream_bytes; [intros p; apply dynamic_mask_total, Hkey | exact Hbuf].
Qed.

Lemma dynamic_decrypt_bytes_witness :
  let self := {| QMCv2_DynamicMapCipher.key := [1; 2; 3] |} in
  QMCv2_DynamicMapCipher.key self <> []
  /\ bytes_ok [9; 9]
  /\ exists out, QMCv2_DynamicMapCipher.decrypt self [9; 9] 5 = Ok out
                 /\ length out = 2%nat.
Proof.
  intros self.
  assert (Hk : QMCv2_DynamicMapCipher.key self <> []) by discriminate.
  assert (Hb : bytes_ok [9; 9]) by (repeat constructor; lia).
  split; [exact Hk|]. split; [exact Hb|].
  destruct (dynamic_decrypt_bytes self [9; 9] 5 Hk Hb) as (out & Hrun & Hlen & _).
  exists out. split; [exact Hrun | exact Hlen].
Defined.

(** X8: [QMCv1_StaticMapCipher.decrypt] can be run piece by piece: a
    buffer cut in two, each piece at its own offset, gives the two halves
    of the one call. *)
Theorem static_decrypt_pieces (a b : list Z) (offset : Z) :
  bytes_ok a -> bytes_ok b ->
  exists oa ob,
    QMCv1_StaticMapCipher.decrypt a offset = Ok oa
    /\ QMCv1_StaticMapCipher.decrypt b (offset + len a) = Ok ob
    /\ QMCv1_StaticMapCipher.decrypt (a ++ b) offset = Ok (oa ++ ob).
Proof.
  intros Ha Hb. do 2 eexists.
  split; [apply static_decrypt_spec, Ha|].
  split; [apply static_decrypt_spec, Hb|].
  rewrite static_decrypt_spec by (apply Forall_app; split; assumption).
  rewrite xor_keystream_app. reflexivity.
Qed.

Lemma static_decrypt_pieces_witness :
  bytes_ok [1; 2] /\ bytes_ok [3]
  /\ exists oa ob,
       QMCv1_StaticMapCipher.decrypt [1; 2] 32766 = Ok oa
       /\ QMCv1_StaticMapCipher.decrypt [3] (32766 + len [1; 2]) = Ok ob
       /\ QMCv1_StaticMapCipher.decrypt ([1; 2] ++ [3]) 32766 = Ok (oa ++ ob).
Proof.
  assert (Ha : bytes_ok [1; 2]) by (repeat constructor; lia).
  assert (Hb : bytes_ok [3]) by (repeat constructor; lia).
  split; [exact Ha|]. split; [exact Hb|].
  exact (static_decrypt_pieces [1; 2] [3] 32766 Ha Hb).
Defined.

(** X9: [QMCv2_DynamicMapCipher.decrypt], with any key that is not
    empty, can be run piece by piece: a buffer cut in two, each piece at
    its own offset, gives the two halves of the one call. *)
Theorem dynamic_decrypt_pieces (self : QMCv2_DynamicMapCipher.t)
        (a b : list Z) (offset : Z) :
  QMCv2_DynamicMapCipher.key self <> [] ->
  bytes_ok a -> bytes_ok b ->
  exists oa ob,
    QMCv2_DynamicMapCipher.decrypt self a offset = Ok oa
    /\ QMCv2_DynamicMapCipher.decrypt self b (offset + len a) = Ok ob
    /\ QMCv2_DynamicMapCipher.decrypt self (a ++ b) offset = Ok (oa ++ ob).
Proof.
  intros Hkey Ha Hb. do 2 eexists.
  split; [apply dynamic_decrypt_spec; assumption|].
  split; [apply dynamic_decrypt_spec; assumption|].
  rewrite dynamic_decrypt_spec; [|exact Hkey | apply Forall_app; split; assumption].
  rewrite xor_keystream_app. reflexivity.
Qed.

Lemma dynamic_decrypt_pieces_witness :
  let self := {| QMCv2_DynamicMapCipher.key := [1; 2; 3] |} in
  QMCv2_DynamicMapCipher.key self <> []
  /\ bytes_ok [1; 2] /\ bytes_ok [3]
  /\ exists oa ob,
       QMCv2_DynamicMapCipher.decrypt self [1; 2] 7 = Ok oa
       /\ QMCv2_DynamicMapCipher.decrypt self [3] (7 + len [1; 2]) = Ok ob
       /\ QMCv2_DynamicMapCipher.decrypt self ([1; 2] ++ [3]) 7 = Ok (oa ++ ob).
Proof.
  intros self.
  assert (Hk : QMCv2_DynamicMapCipher.key self <> []) by discriminate.
  assert (Ha : bytes_ok [1; 2]) by (repeat constructor; lia).
  assert (Hb : bytes_ok [3]) by (repeat constructor; lia).
  split; [exact Hk|]. split; [exact Ha|]. split; [exact Hb|].
  exact (dynamic_decrypt_pieces self [1; 2] [3] 7 Hk Ha Hb).
Defined.

Lemma square_shift_mod (q n : Z) : ((q + n) ^ 2) mod n = (q ^ 2) mod n.
Proof.
  replace ((q + n) ^ 2) with (q ^ 2 + (2 * q + n) * n) by ring.
  apply Z_mod_plus_full.
Qed.

(** X10: the keystream of [QMCv1_StaticMapCipher] repeats: every 128
    positions up to position [0x7fff], and every [0x7fff] positions past
    it. *)
Theorem static_mask_periods (p : Z) :
  (p + 128 <= 0x7fff ->
   QMCv1_StaticMapCipher._get_mask (p + 128) = QMCv1_StaticMapCipher._get_mask p)
  /\ (0x7fff < p ->
      QMCv1_StaticMapCipher._get_mask (p + 0x7fff) = QMCv1_StaticMapCipher._get_mask p).
Proof.
  unfold QMCv1_StaticMapCipher._get_mask. split; intros Hp.
  - destruct (p + 128 >? 32767) eqn:H1; [lia|].
    destruct (p >? 32767) eqn:H2; [lia|].
    f_equal. change 255 with (Z.ones 8). rewrite !Z.land_ones by lia.
    change (2 ^ 8) with 256.
    rewrite <- (Zplus_mod_idemp_l ((p + 128) ^ 2)), <- (Zplus_mod_idemp_l (p ^ 2)).
    f_equal. f_equal.
    replace ((p + 128) ^ 2) with (p ^ 2 + (p + 64) * 256) by ring.
    apply Z_mod_plus_full.
  - destruct (p + 32767 >? 32767) eqn:H1; [|lia].
    destruct (p >? 32767) eqn:H2; [|lia].
    replace (p + 32767) with (p + 1 * 32767) by lia.
    rewrite Z_mod_plus_full. reflexivity.
Qed.

Lemma static_mask_periods_witness :
  (5 + 128 <= 0x7fff) /\ (0x7fff < 40000)
  /\ QMCv1_StaticMapCipher._get_mask (5 + 128) = QMCv1_StaticMapCipher._get_mask 5
  /\ QMCv1_StaticMapCipher._get_mask (40000 + 0x7fff)
     = QMCv1_StaticMapCipher._get_mask 40000.
Proof.
  assert (H1 : 5 + 128 <= 0x7fff) by lia.
  assert (H2 : 0x7fff < 40000) by lia.
  split; [exact H1|]. split; [exact H2|].
  split; [exact (proj1 (static_mask_periods 5) H1)
         | exact (proj2 (static_mask_periods 40000) H2)].
Defined.

(** X11: the keystream of [QMCv2_DynamicMapCipher] repeats with the
    length of the key up to position [0x7fff], and every [0x7fff]
    positions past it. *)
Theorem dynamic_mask_periods (self : QMCv2_DynamicMapCipher.t) (p : Z) :
  (p + QMCv2_DynamicMapCipher.key_length self <= 0x7fff ->
   QMCv2_DynamicMapCipher._get_mask self (p + QMCv2_DynamicMapCipher.key_length self)
   = QMCv2_DynamicMapCipher._get_mask self p)
  /\ (0x7fff < p ->
      QMCv2_DynamicMapCipher._get_mask self (p + 0x7fff)
      = QMCv2_DynamicMapCipher._get_mask self p).
Proof.
  unfold QMCv2_DynamicMapCipher._get_mask.
  set (n := QMCv2_DynamicMapCipher.key_length self).
  assert (Hn : 0 <= n) by (unfold n, QMCv2_DynamicMapCipher.key_length, len; lia).
  split; intros Hp.
  - destruct (p + n >? 32767) eqn:H1; [lia|].
    destruct (p >? 32767) eqn:H2; [lia|].
    unfold py_mod. destruct (n =? 0) eqn:H0; [reflexivity|].
    replace (((p + n) ^ 2 + 71214) mod n) with ((p ^ 2 + 71214) mod n); [reflexivity|].
    rewrite <- (Zplus_mod_idemp_l ((p + n) ^ 2)), <- (Zplus_mod_idemp_l (p ^ 2)).
    rewrite square_shift_mod. reflexivity.
  - destruct (p + 32767 >? 32767) eqn:H1; [|lia].
    destruct (p >? 32767) eqn:H2; [|lia].
    replace (p + 32767) with (p + 1 * 32767) by lia.
    rewrite Z_mod_plus_full. reflexivity.
Qed.

Lemma dynamic_mask_periods_witness :
  let self := {| QMCv2_DynamicMapCipher.key := [1; 2; 3] |} in
  (5 + QMCv2_DynamicMapCipher.key_length self <= 0x7fff) /\ (0x7fff < 40000)
  /\ QMCv2_DynamicMapCipher._get_mask self (5 + QMCv2_DynamicMapCipher.key_length self)
     = QMCv2_DynamicMapCipher._get_mask self 5
  /\ QMCv2_DynamicMapCipher._get_mask self (40000 + 0x7fff)
     = QMCv2_DynamicMapCipher._get_mask self 40000.
Proof.
  intros self.
  assert (H1 : 5 + QMCv2_DynamicMapCipher.key_length self <= 0x7fff)
    by (vm_compute; discriminate).
  assert (H2 : 0x7fff < 40000) by lia.
  split; [exact H1|]. split; [exact H2|].
  split; [exact (proj1 (dynamic_mask_periods self 5) H1)
         | exact (proj2 (dynamic_mask_periods self 40000) H2)].
Defined.

(** X12: [QMCv2_DynamicMapCipher] takes the empty key at construction,
    and fails with it at the first byte: [decrypt] of a buffer that is
    not empty raises [ZeroDivisionError], from [% self.key_length]. *)
Theorem dynamic_empty_key_raises (self : QMCv2_DynamicMapCipher.t)
        (buf : list Z) (offset : Z) :
  QMCv2_DynamicMapCipher.__init__ [] = Ok self ->
  buf <> [] ->
  QMCv2_DynamicMapCipher.decrypt self buf offset = Raise ZeroDivisionError.
Proof.
  intros [= <-] Hbuf. destruct buf as [|b rest]; [congruence|].
  unfold QMCv2_DynamicMapCipher.decrypt.
  rewrite py_range_cons by (unfold len; simpl; lia).
  reflexivity.
Qed.

Lemma dynamic_empty_key_raises_witness :
  QMCv2_DynamicMapCipher.__init__ [] = Ok {| QMCv2_DynamicMapCipher.key := [] |}
  /\ [7] <> ([] : list Z)
  /\ QMCv2_DynamicMapCipher.decrypt {| QMCv2_DynamicMapCipher.key := [] |} [7] 0
     = Raise ZeroDivisionError.
Proof.
  assert (Hinit : QMCv2_DynamicMapCipher.__init__ []
                  = Ok {| QMCv2_DynamicMapCipher.key := [] |}) by reflexivity.
  assert (Hbuf : [7] <> ([] : list Z)) by discriminate.
  split; [exact Hinit|]. split; [exact Hbuf|].
  exact (dynamic_empty_key_raises _ [7] 0 Hinit Hbuf).
Defined.

(** ** QMCv2_RC4Cipher: more on construction and decryption *)

Lemma lookup_zth (l : list Z) (i : Z) :
  0 <= i < len l -> l !! Z.to_nat i = Some (zth l i).
Proof.
  intros Hi. destruct (py_getitem_ok l i Hi) as (x & Hx & Hl).
  rewrite py_getitem_zth in Hx by exact Hi. congruence.
Qed.

(** One pass of the key scheduling swaps two bytes of the box. *)
Lemma schedule_step_perm (k : list Z) (i : Z) (st : Z * list Z) :
  0 <= i < len k -> len (snd st) = len k ->
  snd (schedule_step k i st) ≡ₚ snd st.
Proof.
  destruct st as [j bx]. unfold schedule_step. cbn [snd]. intros Hi Hlen.
  set (j' := (j + zth bx i + zth k (i mod len k)) mod len k).
  assert (Hj' : 0 <= j' < len bx) by (rewrite Hlen; apply Z.mod_pos_bound; lia).
  apply Permutation_insert_swap; apply lookup_zth; lia.
Qed.

Lemma schedule_perm (k : list Z) (indices : list Z) :
  (forall i, In i indices -> 0 <= i < len k) ->
  forall st, len (snd st) = len k ->
             snd (schedule k indices st) ≡ₚ snd st.
Proof.
  unfold schedule.
  induction indices as [|i rest IH]; intros Hidx st Hlen; [reflexivity|].
  cbn [fold_left].
  assert (Hi : 0 <= i < len k) by (apply Hidx; left; reflexivity).
  pose proof (schedule_step_perm k i st Hi Hlen) as Hstep.
  rewrite IH.
  - exact Hstep.
  - intros i' Hi'. apply Hidx. right. exact Hi'.
  - unfold len in *. rewrite (Permutation_length Hstep). exact Hlen.
Qed.

Section RC4More.

Import QMCv2_RC4Cipher.

(** The store and the instance that [__init__] leaves. *)
Lemma init_world (k : list Z) (h0 : gmap loc (list Z)) :
  k <> [] ->
  __init__ (instantiate k h0)
  = (Ok tt,
     {| self := {| key := k; _box := Some (fresh (dom h0));
                   _hash := Some (hash_loop k 1) |};
        heap := <[fresh (dom h0) := scheduled_box k]> h0 |}).
Proof.
  intros Hk.
  assert (Hn : 0 < len k) by (unfold len; destruct k; [congruence | simpl; lia]).
  unfold __init__.
  erewrite bind_ok by reflexivity. cbn [instantiate self key].
  destruct (len k =? 0) eqn:H0; [lia|].
  erewrite bind_ok by reflexivity.
  erewrite bind_ok by reflexivity.
  erewrite bind_ok by reflexivity.
  cbn [instantiate self key heap].
  set (b := fresh (dom h0)).
  set (w1 := {| self := {| key := k; _box := Some b; _hash := None |}; heap := h0 |}).
  destruct (initial_box_ok (len k)) as [Hlen0 Hbytes0].
  rewrite Z.max_l in Hlen0 by lia.
  destruct (for_each_schedule w1 b (py_range 0 (len k)) eq_refl
              ltac:(intros i Hi; apply in_py_range in Hi; exact Hi)
              0 _ Hlen0 Hbytes0) as (Hrun & Hlen & Hbytes).
  change (for_each (py_range 0 (len k)) schedule_body 0
            (upd w1 b ((fun i => i mod 256) <$> py_range 0 (len k))))
    with (for_each (py_range 0 (len k)) schedule_body 0
            {| self := {| key := k; _box := Some b; _hash := None |};
               heap := <[b := (fun i => i mod 256) <$> py_range 0 (len k)]> h0 |})
    in Hrun.
  erewrite bind_ok by exact Hrun.
  erewrite bind_ok by reflexivity.
  cbn [key self w1] in *.
  fold (scheduled_box k). unfold set_hash, upd. cbn [self heap key _box _hash].
  reflexivity.
Qed.

(** *** Parts of the class that leave the store as it is *)

Lemma keeps_bind {A B} (m : M A) (f : A -> M B) :
  keeps_store m -> (forall a, keeps_store (f a)) -> keeps_store (bind m f).
Proof.
  intros Hm Hf w. unfold bind. specialize (Hm w).
  destruct (m w) as [[a|e] w']; cbn [snd] in Hm; subst w'; [apply Hf | reflexivity].
Qed.

Lemma keeps_lift {A} (r : result A) : keeps_store (lift r).
Proof. intros w. reflexivity. Qed.

Lemma keeps_get_key : keeps_store get_key.
Proof. intros w. reflexivity. Qed.

Lemma keeps_key_length : keeps_store key_length.
Proof. intros w. reflexivity. Qed.

Lemma keeps_hash : keeps_store hash.
Proof. intros w. unfold hash. destruct (_hash (self w)); reflexivity. Qed.

Lemma keeps_for_each {S} (indices : list Z) (body : Z -> S -> M S) :
  (forall i s, keeps_store (body i s)) ->
  forall s, keeps_store (for_each indices body s).
Proof.
  intros Hbody. induction indices as [|i rest IH]; intros s.
  - intros w. reflexivity.
  - cbn [for_each]. apply keeps_bind; [apply Hbody | exact IH].
Qed.

Lemma keeps_get_segment_skip (v : Z) : keeps_store (_get_segment_skip v).
Proof.
  unfold _get_segment_skip.
  repeat (apply keeps_bind; [first [apply keeps_get_key | apply keeps_key_length
                                   | apply keeps_hash | apply keeps_lift] | intros ?]).
  apply keeps_lift.
Qed.

Lemma keeps_enc_1st_segment (buf : list Z) (off : Z) :
  keeps_store (_enc_1st_segment buf off).
Proof.
  unfold _enc_1st_segment. apply keeps_for_each. intros i s.
  unfold first_segment_body.
  apply keeps_bind; [apply keeps_lift | intros a].
  apply keeps_bind; [apply keeps_get_key | intros ky].
  apply keeps_bind; [apply keeps_get_segment_skip | intros sk].
  apply keeps_bind; [apply keeps_lift | intros x].
  apply keeps_lift.
Qed.

(** *** A zero seed *)

Lemma get_segment_skip_zero_seed (w : world) (h v : Z) :
  _hash (self w) = Some h ->
  zth (key (self w)) (v mod len (key (self w))) = 0 ->
  _get_segment_skip v w = (Raise ZeroDivisionError, w).
Proof.
  intros Hh Hseed. unfold _get_segment_skip, bind, get_key, key_length, lift, hash.
  cbv beta. set (k := key (self w)) in *.
  destruct (len k =? 0) eqn:Hn.
  - unfold py_mod. rewrite Hn. reflexivity.
  - rewrite py_mod_ok by lia. cbn [rbind].
    rewrite py_getitem_zth by (apply Z.mod_pos_bound; unfold len in *; lia).
    rewrite Hseed, Hh. cbv beta iota.
    unfold py_truediv. rewrite Z.mul_0_r. reflexivity.
Qed.

Lemma enc_1st_segment_zero_seed (w : world) (h off b : Z) (rest : list Z) :
  _hash (self w) = Some h ->
  zth (key (self w)) (off mod len (key (self w))) = 0 ->
  fst (_enc_1st_segment (b :: rest) off w) = Raise ZeroDivisionError.
Proof.
  intros Hh Hseed. unfold _enc_1st_segment.
  rewrite py_range_cons by (unfold len; simpl; lia).
  cbn [for_each]. unfold bind at 1. unfold first_segment_body.
  unfold bind at 1. unfold lift at 1. cbn [py_getitem].
  change (py_getitem (b :: rest) 0) with (Ok b : result Z). cbv beta iota.
  unfold bind at 1. unfold get_key at 1. cbv beta iota.
  unfold bind at 1.
  rewrite (get_segment_skip_zero_seed w h (off + 0) Hh)
    by (rewrite Z.add_0_r; exact Hseed).
  reflexivity.
Qed.

Lemma enc_another_segment_zero_seed (k bx : list Z) (h : Z) (w : world)
      (buf : list Z) (off : Z) :
  ready k bx h w ->
  zth k ((off / 5120) mod len k) = 0 ->
  fst (_enc_another_segment buf off w) = Raise ZeroDivisionError.
Proof.
  intros (Hk & Hh & b & Hb & Hbx) Hseed. unfold _enc_another_segment.
  erewrite bind_ok by (unfold box; rewrite Hb; reflexivity).
  erewrite bind_ok by (unfold bytearray_copy; rewrite Hbx; reflexivity).
  erewrite bind_ok by (apply lift_ok, py_mod_ok; lia).
  erewrite bind_ok by (apply lift_ok; reflexivity).
  unfold bind at 1.
  erewrite get_segment_skip_zero_seed; [reflexivity | exact Hh |].
  cbn [self key]. rewrite Hk. exact Hseed.
Qed.

End RC4More.

(** X15: [QMCv2_RC4Cipher.decrypt], with a key without zero bytes, returns
    as many bytes as it got; byte [i] is the byte [i] of the input XORed
    with a keystream byte that depends on the key and on the position
    [offset + i] alone, and the instance is left as construction left
    it: same key, same hash, the box with the same bytes. *)
Theorem rc4_decrypt_bytes (k buf : list Z) (off : Z) (fuel : nat) :
  good_key k -> bytes_ok buf -> 0 <= off ->
  len buf / 5120 <= Z.of_nat fuel ->
  exists out w',
    QMCv2_RC4Cipher.decrypt fuel buf off (rc4_instance k) = (Ok out, w')
    /\ length out = length buf
    /\ bytes_ok out
    /\ (forall (i : nat) (b : Z), buf !! i = Some b ->
          out !! i
          = Some (Z.lxor b (rc4_keystream k (scheduled_box k)
                              (QMCv2_RC4Cipher.hash_loop k 1) (off + Z.of_nat i))))
    /\ ready k (scheduled_box k) (QMCv2_RC4Cipher.hash_loop k 1) w'.
Proof.
  intros Hgood Hbuf Hoff Hfuel.
  destruct (rc4_instance_ready k (proj1 Hgood)) as (_ & Hready & Hbox & Hhash).
  destruct (rc4_decrypt_eq k _ _ Hgood Hbox Hhash fuel _ buf off Hready Hbuf Hoff Hfuel)
    as (w' & Hrun & Hready').
  eexists _, w'. split; [exact Hrun|].
  split; [apply xor_keystream_length|].
  split.
  { apply xor_keystream_bytes_ok; [|exact Hbuf].
    intros p. eapply rc4_keystream_byte; eassumption. }
  split; [|exact Hready'].
  intros i b Hb. rewrite xor_keystream_lookup, Hb. reflexivity.
Qed.

Lemma rc4_decrypt_bytes_witness :
  good_key [5; 6; 7] /\ bytes_ok [1; 2] /\ 0 <= 127
  /\ len [1; 2] / 5120 <= Z.of_nat 0
  /\ exists out w',
       QMCv2_RC4Cipher.decrypt 0 [1; 2] 127 (rc4_instance [5; 6; 7]) = (Ok out, w')
       /\ length out = 2%nat.
Proof.
  assert (Hg : good_key [5; 6; 7]) by (split; [discriminate | repeat constructor; lia]).
  assert (Hb : bytes_ok [1; 2]) by (repeat constructor; lia).
  assert (Ho : 0 <= 127) by lia.
  assert (Hf : len [1; 2] / 5120 <= Z.of_nat 0) by (vm_compute; discriminate).
  split; [exact Hg|]. split; [exact Hb|]. split; [exact Ho|]. split; [exact Hf|].
  destruct (rc4_decrypt_bytes [5; 6; 7] [1; 2] 127 0 Hg Hb Ho Hf)
    as (out & w' & Hrun & Hlen & _).
  exists out, w'. split; [exact Hrun | exact Hlen].
Defined.

Lemma static_decrypt_involutive_witness :
  bytes_ok [1; 2; 3]
  /\ exists out, QMCv1_StaticMapCipher.decrypt [1; 2; 3] 32766 = Ok out
                 /\ QMCv1_StaticMapCipher.decrypt out 32766 = Ok [1; 2; 3].
Proof.
  assert (Hb : bytes_ok [1; 2; 3]) by (repeat constructor; lia).
  split; [exact Hb|]. exact (static_decrypt_involutive [1; 2; 3] 32766 Hb).
Defined.

Lemma dynamic_decrypt_involutive_witness :
  let self := {| QMCv2_DynamicMapCipher.key := [1; 2; 3] |} in
  QMCv2_DynamicMapCipher.key self <> [] /\ bytes_ok [1; 2; 3]
  /\ exists out, QMCv2_DynamicMapCipher.decrypt self [1; 2; 3] 5 = Ok out
                 /\ QMCv2_DynamicMapCipher.decrypt self out 5 = Ok [1; 2; 3].
Proof.
  intros self.
  assert (Hk : QMCv2_DynamicMapCipher.key self <> []) by discriminate.
  assert (Hb : bytes_ok [1; 2; 3]) by (repeat constructor; lia).
  split; [exact Hk|]. split; [exact Hb|].
  exact (dynamic_decrypt_involutive self [1; 2; 3] 5 Hk Hb).
Defined.

Lemma rc4_decrypt_involutive_witness :
  good_key [5; 6; 7] /\ bytes_ok [1; 2] /\ 0 <= 127
  /\ len [1; 2] / 5120 <= Z.of_nat 0
  /\ exists out w' w'',
       QMCv2_RC4Cipher.decrypt 0 [1; 2] 127 (rc4_instance [5; 6; 7]) = (Ok out, w')
       /\ QMCv2_RC4Cipher.decrypt 0 out 127 w' = (Ok [1; 2], w'').
Proof.
  assert (Hg : good_key [5; 6; 7]) by (split; [discriminate | repeat constructor; lia]).
  assert (Hb : bytes_ok [1; 2]) by (repeat constructor; lia).
  assert (Ho : 0 <= 127) by lia.
  assert (Hf : len [1; 2] / 5120 <= Z.of_nat 0) by (vm_compute; discriminate).
  split; [exact Hg|]. split; [exact Hb|]. split; [exact Ho|]. split; [exact Hf|].
  exact (rc4_decrypt_involutive [5; 6; 7] [1; 2] 127 0 Hg Hb Ho Hf).
Defined.

Lemma rc4_position_purity_witness :
  good_key [5; 6; 7] /\ Forall bytes_ok [[1]; [2; 3]] /\ 0 <= 127
  /\ len (concat [[1]; [2; 3]]) / 5120 <= Z.of_nat 0
  /\ exists out,
       fst (QMCv2_RC4Cipher.decrypt 0 (concat [[1]; [2; 3]]) 127 (rc4_instance [5; 6; 7]))
       = Ok out
       /\ fst (decrypt_parts 0 [[1]; [2; 3]] 127 (rc4_instance [5; 6; 7])) = Ok out.
Proof.
  assert (Hg : good_key [5; 6; 7]) by (split; [discriminate | repeat constructor; lia]).
  assert (Hb : Forall bytes_ok [[1]; [2; 3]]) by (repeat constructor; lia).
  assert (Ho : 0 <= 127) by lia.
  assert (Hf : len (concat [[1]; [2; 3]]) / 5120 <= Z.of_nat 0)
    by (vm_compute; discriminate).
  split; [exact Hg|]. split; [exact Hb|]. split; [exact Ho|]. split; [exact Hf|].
  exact (rc4_position_purity [5; 6; 7] [[1]; [2; 3]] 127 0 Hg Hb Ho Hf).
Defined.

(** X18: what [QMCv2_RC4Cipher(key)] does.  The empty key is refused with
    [CipherGenerationError], and nothing is set or created.  Any other
    key is taken: the box is one new object, the objects there were are
    as they were, the box holds the bytes [i % 256] for [i] below the
    key length in some order, and the hash is at least 1 and fits 32
    bits. *)
Theorem rc4_init_outcomes (k : list Z) (h0 : gmap loc (list Z)) :
  match k with
  | [] =>
      QMCv2_RC4Cipher.__init__ (QMCv2_RC4Cipher.instantiate k h0)
      = (Raise CipherGenerationError, QMCv2_RC4Cipher.instantiate k h0)
  | _ :: _ =>
      exists bx h,
        QMCv2_RC4Cipher.__init__ (QMCv2_RC4Cipher.instantiate k h0)
        = (Ok tt,
           {| QMCv2_RC4Cipher.self :=
                {| QMCv2_RC4Cipher.key := k;
                   QMCv2_RC4Cipher._box := Some (fresh (dom h0));
                   QMCv2_RC4Cipher._hash := Some h |};
              QMCv2_RC4Cipher.heap := <[fresh (dom h0) := bx]> h0 |})
        /\ h0 !! fresh (dom h0) = None
        /\ bx ≡ₚ (fun i => i mod 256) <$> py_range 0 (len k)
        /\ 1 <= h < 2 ^ 32
  end.
Proof.
  destruct k as [|b rest]; [reflexivity|].
  set (k := b :: rest).
  exists (scheduled_box k), (QMCv2_RC4Cipher.hash_loop k 1).
  split; [apply init_world; discriminate|].
  split.
  { apply not_elem_of_dom, is_fresh. }
  split.
  - unfold scheduled_box. rewrite schedule_perm; [reflexivity | |].
    + intros i Hi. apply in_py_range in Hi. exact Hi.
    + cbn [snd]. destruct (initial_box_ok (len k)) as [Hlen _].
      rewrite Hlen. unfold len. lia.
  - apply hash_loop_range. lia.
Qed.

(** X19: what [QMCv2_RC4Cipher._get_segment_skip(v)] does on a constructed
    instance, for [v >= 0]: when the key byte [key[v % key_length]] is
    zero it raises [ZeroDivisionError]; otherwise it returns an index
    into the key.  It changes nothing. *)
Theorem rc4_segment_skip_outcomes (k bx : list Z) (h : Z)
        (w : QMCv2_RC4Cipher.world) (v : Z) :
  ready k bx h w -> k <> [] -> bytes_ok k -> 1 <= h < 2 ^ 32 -> 0 <= v ->
  if zth k (v mod len k) =? 0
  then QMCv2_RC4Cipher._get_segment_skip v w = (Raise ZeroDivisionError, w)
  else exists s, QMCv2_RC4Cipher._get_segment_skip v w = (Ok s, w)
                 /\ 0 <= s < len k.
Proof.
  intros (Hk & Hh & _) Hne Hbytes Hhash Hv.
  assert (Hn : 0 < len k) by (unfold len; destruct k; [congruence | simpl; lia]).
  assert (Hr : 0 <= v mod len k < len k) by (apply Z.mod_pos_bound; exact Hn).
  destruct (zth k (v mod len k) =? 0) eqn:Hseed.
  - apply Z.eqb_eq in Hseed.
    apply (get_segment_skip_zero_seed w h v Hh). rewrite Hk. exact Hseed.
  - apply Z.eqb_neq in Hseed.
    pose proof (zth_byte k _ Hbytes Hr) as Hb.
    destruct (skip_index_total h ((v + 1) * zth k (v mod len k)) Hhash)
      as (idx & Hidx); [assert (1 <= zth k (v mod len k)) by lia; nia|].
    exists (idx mod len k). split; [|apply Z.mod_pos_bound; exact Hn].
    unfold QMCv2_RC4Cipher._get_segment_skip, QMCv2_RC4Cipher.bind,
      QMCv2_RC4Cipher.get_key, QMCv2_RC4Cipher.key_length,
      QMCv2_RC4Cipher.lift, QMCv2_RC4Cipher.hash.
    cbv beta. rewrite Hk, Hh.
    rewrite py_mod_ok by lia. cbn [rbind].
    rewrite py_getitem_zth by exact Hr. cbv beta iota.
    rewrite Hidx. cbv beta iota. rewrite ?Hk. rewrite py_mod_ok by lia. reflexivity.
Qed.

Lemma rc4_segment_skip_outcomes_witness :
  ready [5; 0; 7] (scheduled_box [5; 0; 7]) 35 (rc4_instance [5; 0; 7])
  /\ [5; 0; 7] <> ([] : list Z) /\ bytes_ok [5; 0; 7] /\ 1 <= 35 < 2 ^ 32
  /\ QMCv2_RC4Cipher._get_segment_skip 4 (rc4_instance [5; 0; 7])
     = (Raise ZeroDivisionError, rc4_instance [5; 0; 7])
  /\ exists s, QMCv2_RC4Cipher._get_segment_skip 3 (rc4_instance [5; 0; 7])
               = (Ok s, rc4_instance [5; 0; 7])
               /\ 0 <= s < len [5; 0; 7].
Proof.
  assert (Hready : ready [5; 0; 7] (scheduled_box [5; 0; 7]) 35
                     (rc4_instance [5; 0; 7])).
  { split; [vm_compute; reflexivity|]. split; [vm_compute; reflexivity|].
    eexists. split; [reflexivity|]. vm_compute. reflexivity. }
  assert (Hne : [5; 0; 7] <> ([] : list Z)) by discriminate.
  assert (Hb : bytes_ok [5; 0; 7]) by (repeat constructor; lia).
  assert (Hhash : 1 <= 35 < 2 ^ 32) by lia.
  split; [exact Hready|]. split; [exact Hne|]. split; [exact Hb|].
  split; [exact Hhash|]. split.
  - exact (rc4_segment_skip_outcomes _ _ _ _ 4 Hready Hne Hb Hhash ltac:(lia)).
  - exact (rc4_segment_skip_outcomes _ _ _ _ 3 Hready Hne Hb Hhash ltac:(lia)).
Defined.

(** X20: a zero byte in the key makes [QMCv2_RC4Cipher.decrypt] fail.
    On a constructed instance and a buffer that is not empty, [decrypt]
    raises [ZeroDivisionError] when the key byte chosen by the first
    position is zero: the byte [key[offset % key_length]] for an offset
    below 128, the byte [key[(offset // 5120) % key_length]] from 128
    on. *)
Theorem rc4_decrypt_zero_seed_raises (k bx : list Z) (h : Z)
        (w : QMCv2_RC4Cipher.world) (buf : list Z) (off : Z) (fuel : nat) :
  ready k bx h w -> buf <> [] -> (1 <= fuel)%nat ->
  zth k ((if off <? 128 then off else off / 5120) mod len k) = 0 ->
  fst (QMCv2_RC4Cipher.decrypt fuel buf off w) = Raise ZeroDivisionError.
Proof.
  intros Hready Hbuf Hfuel Hseed.
  destruct buf as [|b rest]; [congruence|].
  assert (Hlen : 0 < len (b :: rest)) by (unfold len; simpl; lia).
  unfold QMCv2_RC4Cipher.decrypt. unfold QMCv2_RC4Cipher.bind at 1.
  unfold QMCv2_RC4Cipher.decrypt_first.
  cbn [QMCv2_RC4Cipher.offset QMCv2_RC4Cipher.pending QMCv2_RC4Cipher.src
       QMCv2_RC4Cipher.done].
  destruct (off <? 128) eqn:H128.
  - apply Z.ltb_lt in H128.
    set (blksize := if len (b :: rest) >? 128 - off then 128 - off
                    else len (b :: rest)).
    assert (Hblk : 0 < blksize) by (unfold blksize; destruct (_ >? _); lia).
    assert (Hslice : exists rest', py_slice (b :: rest) 0 blksize = b :: rest').
    { unfold py_slice. cbn [Z.to_nat drop]. rewrite Nat.sub_0_r.
      destruct (Z.to_nat blksize) as [|n] eqn:Hn; [lia|].
      eexists. reflexivity. }
    destruct Hslice as (rest' & ->).
    destruct Hready as (Hk & Hh & _).
    unfold QMCv2_RC4Cipher.bind at 1.
    pose proof (enc_1st_segment_zero_seed w h off b rest' Hh
                  ltac:(rewrite Hk; exact Hseed)) as Hrun.
    destruct (QMCv2_RC4Cipher._enc_1st_segment (b :: rest') off w) as [[r|e] w'];
      cbn [fst] in Hrun; [discriminate|].
    rewrite Hrun. reflexivity.
  - apply Z.ltb_ge in H128.
    unfold QMCv2_RC4Cipher.ret at 1. cbv beta iota.
    unfold QMCv2_RC4Cipher.bind at 1. unfold QMCv2_RC4Cipher.decrypt_unaligned.
    cbn [QMCv2_RC4Cipher.offset QMCv2_RC4Cipher.pending QMCv2_RC4Cipher.src
         QMCv2_RC4Cipher.done].
    destruct (off mod 5120 =? 0) eqn:Hal; cbn [negb].
    + unfold QMCv2_RC4Cipher.ret at 1. cbv beta iota.
      unfold QMCv2_RC4Cipher.bind at 1.
      destruct fuel as [|fuel]; [lia|].
      cbn [QMCv2_RC4Cipher.while QMCv2_RC4Cipher.pending].
      destruct (len (b :: rest) >? 5120) eqn:Hbig.
      * unfold QMCv2_RC4Cipher.bind at 1.
        unfold QMCv2_RC4Cipher.decrypt_whole_segment.
        unfold QMCv2_RC4Cipher.bind at 1.
        pose proof (enc_another_segment_zero_seed k bx h w
                      (py_slice (b :: rest) 0 (0 + 5120)) off Hready Hseed) as Hrun.
        cbn [QMCv2_RC4Cipher.offset QMCv2_RC4Cipher.pending QMCv2_RC4Cipher.src
             QMCv2_RC4Cipher.done].
        destruct (QMCv2_RC4Cipher._enc_another_segment _ off w) as [[r|e] w'];
          cbn [fst] in Hrun; [discriminate|].
        rewrite Hrun. reflexivity.
      * unfold QMCv2_RC4Cipher.ret at 1. cbv beta iota.
        unfold QMCv2_RC4Cipher.decrypt_tail.
        cbn [QMCv2_RC4Cipher.offset QMCv2_RC4Cipher.pending QMCv2_RC4Cipher.src
             QMCv2_RC4Cipher.done].
        destruct (len (b :: rest) >? 0) eqn:Hpos; [|lia].
        unfold QMCv2_RC4Cipher.bind at 1.
        pose proof (enc_another_segment_zero_seed k bx h w
                      (drop (Z.to_nat 0) (b :: rest)) off Hready Hseed) as Hrun.
        destruct (QMCv2_RC4Cipher._enc_another_segment _ off w) as [[r|e] w'];
          cbn [fst] in Hrun; [discriminate|].
        rewrite Hrun. reflexivity.
    + unfold QMCv2_RC4Cipher.bind at 1.
      match goal with
      | |- context [QMCv2_RC4Cipher._enc_another_segment ?s off w] =>
          pose proof (enc_another_segment_zero_seed k bx h w s off Hready Hseed) as Hrun;
          destruct (QMCv2_RC4Cipher._enc_another_segment s off w) as [[r|e] w']
      end; cbn [fst] in Hrun; [discriminate|].
      rewrite Hrun. reflexivity.
Qed.

Lemma rc4_decrypt_zero_seed_raises_witness :
  ready [5; 0; 7] (scheduled_box [5; 0; 7]) 35 (rc4_instance [5; 0; 7])
  /\ [9; 9] <> ([] : list Z)
  /\ fst (QMCv2_RC4Cipher.decrypt 1 [9; 9] 4 (rc4_instance [5; 0; 7]))
     = Raise ZeroDivisionError
  /\ fst (QMCv2_RC4Cipher.decrypt 1 [9; 9] 5130 (rc4_instance [5; 0; 7]))
     = Raise ZeroDivisionError.
Proof.
  assert (Hready : ready [5; 0; 7] (scheduled_box [5; 0; 7]) 35
                     (rc4_instance [5; 0; 7])).
  { split; [vm_compute; reflexivity|]. split; [vm_compute; reflexivity|].
    eexists. split; [reflexivity|]. vm_compute. reflexivity. }
  assert (Hbuf : [9; 9] <> ([] : list Z)) by discriminate.
  split; [exact Hready|]. split; [exact Hbuf|]. split.
  - exact (rc4_decrypt_zero_seed_raises _ _ _ _ [9; 9] 4 1 Hready Hbuf (le_n 1) eq_refl).
  - exact (rc4_decrypt_zero_seed_raises _ _ _ _ [9; 9] 5130 1 Hready Hbuf (le_n 1)
             eq_refl).
Defined.

(** X21: [QMCv2_RC4Cipher.decrypt] of a buffer that lies within the first
    128 positions leaves the instance and every object as they are,
    whatever it returns or raises: the box is neither copied nor
    written. *)
Theorem rc4_decrypt_first_segment_keeps_store (w : QMCv2_RC4Cipher.world)
        (buf : list Z) (off : Z) (fuel : nat) :
  off < 128 -> off + len buf <= 128 ->
  snd (QMCv2_RC4Cipher.decrypt fuel buf off w) = w.
Proof.
  intros H128 Hend.
  unfold QMCv2_RC4Cipher.decrypt. unfold QMCv2_RC4Cipher.bind at 1.
  unfold QMCv2_RC4Cipher.decrypt_first.
  cbn [QMCv2_RC4Cipher.offset QMCv2_RC4Cipher.pending QMCv2_RC4Cipher.src
       QMCv2_RC4Cipher.done].
  destruct (off <? 128) eqn:Hlt; [|lia].
  destruct (len buf >? 128 - off) eqn:Hbig; [lia|].
  unfold QMCv2_RC4Cipher.bind at 1.
  pose proof (keeps_enc_1st_segment (py_slice buf 0 (len buf)) off w) as Hw.
  destruct (QMCv2_RC4Cipher._enc_1st_segment _ off w) as [[r|e] w'];
    cbn [snd] in Hw; subst w'; [|reflexivity].
  unfold QMCv2_RC4Cipher.ret, QMCv2_RC4Cipher.mark_process.
  cbn [QMCv2_RC4Cipher.pending]. rewrite Z.sub_diag. reflexivity.
Qed.

Lemma rc4_decrypt_first_segment_keeps_store_witness :
  3 < 128 /\ 3 + len [1; 2] <= 128
  /\ snd (QMCv2_RC4Cipher.decrypt 0 [1; 2] 3 (rc4_instance [5; 6; 7]))
     = rc4_instance [5; 6; 7].
Proof.
  assert (H1 : 3 < 128) by lia.
  assert (H2 : 3 + len [1; 2] <= 128) by (vm_compute; discriminate).
  split; [exact H1|]. split; [exact H2|].
  exact (rc4_decrypt_first_segment_keeps_store (rc4_instance [5; 6; 7]) [1; 2] 3 0 H1 H2).
Defined.

(** ** The TEA block cipher: rounds, and the block function of the envelope *)

Lemma init_fields_tea key rounds magic_number self :
  QMC_TEACipher.__init__ key rounds magic_number = Ok self ->
  self = {| QMC_TEACipher._key := key; QMC_TEACipher._delta := magic_number;
            QMC_TEACipher._rounds := rounds |}
  /\ len key = 16 /\ Z.even rounds = true.
Proof.
  unfold QMC_TEACipher.__init__, QMC_TEACipher.key_length.
  cbn [QMC_TEACipher._key].
  destruct (len key =? 16) eqn:Hk; [|discriminate]. cbn [negb].
  destruct (Z.land rounds 1 =? 0) eqn:Hr; [|discriminate]. cbn [negb].
  intros [= <-]. split; [reflexivity|]. split; [apply Z.eqb_eq, Hk|].
  apply Z.eqb_eq in Hr. change 1 with (Z.ones 1) in Hr.
  rewrite Z.land_ones in Hr by lia. change (2 ^ 1) with 2 in Hr.
  rewrite Zeven_mod. apply Z.eqb_eq. exact Hr.
Qed.

(** X22: [QMC_TEACipher(key, rounds=...)] accepts every even number of
    rounds, also zero and the negative ones, and with those the cipher
    does nothing: [encrypt] and [decrypt] return the block they got. *)
Theorem tea_no_rounds_is_identity
        (key x : list Z) (rounds magic_number : Z) (self : QMC_TEACipher.t) :
  QMC_TEACipher.__init__ key rounds magic_number = Ok self ->
  rounds <= 0 ->
  length x = 8%nat ->
  bytes_ok x ->
  QMC_TEACipher.encrypt self x = Ok x /\ QMC_TEACipher.decrypt self x = Ok x.
Proof.
  intros Hinit Hr Hlen Hx.
  destruct (key_words self (init_key_length _ _ _ _ Hinit))
    as (k0 & k1 & k2 & k3 & Hvals).
  destruct (init_fields_tea _ _ _ _ Hinit) as (Hself & _ & _).
  assert (Hrounds : QMC_TEACipher._rounds self = rounds) by (rewrite Hself; reflexivity).
  destruct x as [|b0 [|b1 [|b2 [|b3 [|b4 [|b5 [|b6 [|b7 [|? ?]]]]]]]]];
    try discriminate.
  assert (Hhi : bytes_ok [b0; b1; b2; b3]).
  { rewrite !bytes_ok_cons in *. intuition (auto; constructor). }
  assert (Hlo : bytes_ok [b4; b5; b6; b7]).
  { rewrite !bytes_ok_cons in *. intuition. }
  assert (Hn : Z.to_nat (rounds / 2) = 0%nat).
  { assert (rounds / 2 <= 0) by (apply Z.div_le_upper_bound; lia). lia. }
  unfold QMC_TEACipher.decrypt, QMC_TEACipher.encrypt.
  rewrite Hvals, Hrounds, Hn.
  change (BE_Uint32_unpack (py_slice [b0; b1; b2; b3; b4; b5; b6; b7] 0 4))
    with (Ok (((b0 * 256 + b1) * 256 + b2) * 256 + b3)).
  change (BE_Uint32_unpack (py_slice [b0; b1; b2; b3; b4; b5; b6; b7] 4 8))
    with (Ok (((b4 * 256 + b5) * 256 + b6) * 256 + b7)).
  cbv beta iota delta [rbind repeat_n].
  rewrite (put_unpack b0 b1 b2 b3 Hhi), (put_unpack b4 b5 b6 b7 Hlo).
  split; reflexivity.
Qed.

Lemma tea_no_rounds_is_identity_witness :
  let self := {| QMC_TEACipher._key := zero_key; QMC_TEACipher._delta := 0x9e3779b9;
                 QMC_TEACipher._rounds := -2 |} in
  QMC_TEACipher.__init__ zero_key (-2) 0x9e3779b9 = Ok self
  /\ -2 <= 0
  /\ QMC_TEACipher.encrypt self [1; 2; 3; 4; 5; 6; 7; 8] = Ok [1; 2; 3; 4; 5; 6; 7; 8]
  /\ QMC_TEACipher.decrypt self [1; 2; 3; 4; 5; 6; 7; 8] = Ok [1; 2; 3; 4; 5; 6; 7; 8].
Proof.
  intros self.
  assert (Hinit : QMC_TEACipher.__init__ zero_key (-2) 0x9e3779b9 = Ok self)
    by reflexivity.
  assert (Hr : -2 <= 0) by lia.
  assert (Hb : bytes_ok [1; 2; 3; 4; 5; 6; 7; 8]) by (repeat constructor; lia).
  split; [exact Hinit|]. split; [exact Hr|].
  exact (tea_no_rounds_is_identity zero_key [1; 2; 3; 4; 5; 6; 7; 8] (-2) 0x9e3779b9
           self Hinit Hr eq_refl Hb).
Defined.

(** X23: [QMC_TEACipher] and [TC_TEACipher] take the same keys and
    rounds, and the block function of the envelope,
    [TC_TEACipher.original_tea_decrypt], is [QMC_TEACipher.decrypt]
    under the same key, rounds and constant: the two return the same on
    every input, and the first takes back every block of 8 bytes that
    [QMC_TEACipher.encrypt] returns. *)
Theorem envelope_block_decrypt_is_tea_decrypt
        (key : list Z) (rounds magic_number : Z) (q : QMC_TEACipher.t) :
  QMC_TEACipher.__init__ key rounds magic_number = Ok q ->
  exists tc,
    TC_TEACipher.__init__ key rounds magic_number = Ok tc
    /\ (forall src, TC_TEACipher.original_tea_decrypt tc src
                    = QMC_TEACipher.decrypt q src)
    /\ (forall x, length x = 8%nat -> bytes_ok x ->
          exists y, QMC_TEACipher.encrypt q x = Ok y
                    /\ TC_TEACipher.original_tea_decrypt tc y = Ok x).
Proof.
  intros Hinit.
  destruct (init_fields_tea _ _ _ _ Hinit) as (Hself & Hlen & Heven).
  assert (Hland : (Z.land rounds 1 =? 0) = true).
  { unfold QMC_TEACipher.__init__ in Hinit.
    destruct (negb (QMC_TEACipher.key_length _ =? 16)); [discriminate|].
    destruct (Z.land rounds 1 =? 0); [reflexivity | discriminate]. }
  eexists. split.
  { unfold TC_TEACipher.__init__, TC_TEACipher.key_length.
    cbn [TC_TEACipher._key]. rewrite Hlen, Hland. reflexivity. }
  assert (Hsame : forall src,
    TC_TEACipher.original_tea_decrypt
      {| TC_TEACipher._key := key; TC_TEACipher._delta := magic_number;
         TC_TEACipher._rounds := rounds; TC_TEACipher._salt_len := 2;
         TC_TEACipher._zero_len := 7 |} src
    = QMC_TEACipher.decrypt q src).
  { intros src. rewrite Hself. reflexivity. }
  split; [exact Hsame|].
  intros x Hx Hbytes.
  destruct (encrypt_then_decrypt q x (init_key_length _ _ _ _ Hinit) Hx Hbytes)
    as (y & Henc & Hdec).
  exists y. split; [exact Henc|]. rewrite Hsame. exact Hdec.
Qed.

Lemma envelope_block_decrypt_is_tea_decrypt_witness :
  QMC_TEACipher.__init__ zero_key 64 0x9e3779b9 = Ok tea0
  /\ exists tc,
       TC_TEACipher.__init__ zero_key 64 0x9e3779b9 = Ok tc
       /\ (forall src, TC_TEACipher.original_tea_decrypt tc src
                       = QMC_TEACipher.decrypt tea0 src).
Proof.
  assert (Hinit : QMC_TEACipher.__init__ zero_key 64 0x9e3779b9 = Ok tea0)
    by reflexivity.
  split; [exact Hinit|].
  destruct (envelope_block_decrypt_is_tea_decrypt zero_key 64 0x9e3779b9 tea0 Hinit)
    as (tc & Htc & Hsame & _).
  exists tc. split; [exact Htc | exact Hsame].
Defined.

(** ** The generator-style mask ciphers *)

Lemma xor_keystream_shift (ks : Z -> Z) (buf : list Z) (d a : Z) :
  xor_keystream (fun i => ks (d + i)) buf a = xor_keystream ks buf (d + a).
Proof.
  revert a. induction buf as [|b rest IH]; intros a; simpl; [reflexivity|].
  rewrite IH. do 2 f_equal. lia.
Qed.

(** [b1 ^ b2 for b1, b2 in zip(stream, buffer)], for the stream of the
    positions of the buffer. *)
Lemma zip_stream_xor (ks : Z -> Z) (buf : list Z) (a : Z) :
  zip_with Z.lxor (map ks (seqZ a (len buf))) buf = xor_keystream ks buf a.
Proof.
  revert a. induction buf as [|b rest IH]; intros a; [reflexivity|].
  rewrite seqZ_cons by (unfold len; simpl; lia).
  cbn [map zip_with xor_keystream]. rewrite Z.lxor_comm. f_equal.
  replace (Z.pred (len (b :: rest))) with (len rest)
    by (unfold len; simpl length; lia).
  replace (Z.succ a) with (a + 1) by lia. apply IH.
Qed.

Lemma lookup_map {A B} (g : A -> B) (l : list A) (i : nat) :
  map g l !! i = g <$> l !! i.
Proof.
  revert i. induction l as [|x l IH]; intros [|i]; simpl; try reflexivity. apply IH.
Qed.

Lemma stream_lookup (g : Z -> Z) (a n : Z) (i : nat) (m : Z) :
  map g (seqZ a n) !! i = Some m -> m = g (a + Z.of_nat i).
Proof.
  rewrite lookup_map. destruct (seqZ a n !! i) as [x|] eqn:Hx; [|discriminate].
  apply lookup_seqZ in Hx as [-> _]. intros [= <-]. reflexivity.
Qed.

(** The stream of a mask function that cannot fail. *)
Lemma mask_stream (mask : Z -> result Z) (n offset : Z) :
  (forall p, exists m, mask p = Ok m /\ 0 <= m < 256) ->
  0 <= n ->
  py_bytes_of mask (py_range offset (offset + n))
  = Ok (map (mask_of mask) (seqZ offset n)).
Proof.
  intros Hmask Hn. unfold py_range.
  replace (offset + n - offset) with n by lia.
  apply py_bytes_of_map. intros i _.
  destruct (Hmask i) as (m & Hm & Hb). unfold mask_of. rewrite Hm. auto.
Qed.

(** X24: the stream that [QMCv1_ImprovedStaticMapCipher.decrypt] builds
    for a source, [bytes(self._yield_mask(len(src), offset))], has the
    length of the source, its byte [i] is what
    [QMCv1_StaticMapCipher._get_mask(offset + i)] returns, and XORed onto
    the source, byte by byte, it gives what
    [QMCv1_StaticMapCipher.decrypt(src, offset)] returns. *)
Theorem improved_static_stream (src : list Z) (offset : Z) :
  bytes_ok src ->
  exists stream,
    QMCv1_ImprovedStaticMapCipher._yield_mask (len src) offset = Ok stream
    /\ length stream = length src
    /\ (forall (i : nat) (m : Z), stream !! i = Some m ->
          QMCv1_StaticMapCipher._get_mask (offset + Z.of_nat i) = Ok m)
    /\ QMCv1_StaticMapCipher.decrypt src offset = Ok (zip_with Z.lxor stream src).
Proof.
  intros Hsrc.
  exists (map (mask_of QMCv1_StaticMapCipher._get_mask) (seqZ offset (len src))).
  split.
  { apply (mask_stream QMCv1_StaticMapCipher._get_mask);
      [apply static_mask_total | unfold len; lia]. }
  split.
  { rewrite length_map, length_seqZ. unfold len. lia. }
  split.
  { intros i m Hi. apply stream_lookup in Hi. subst m.
    destruct (static_mask_total (offset + Z.of_nat i)) as (m & Hm & _).
    unfold mask_of. rewrite Hm. reflexivity. }
  rewrite zip_stream_xor. apply static_decrypt_spec, Hsrc.
Qed.

Lemma improved_static_stream_witness :
  bytes_ok [0; 0; 0; 0]
  /\ exists stream,
       QMCv1_ImprovedStaticMapCipher._yield_mask (len [0; 0; 0; 0]) 0 = Ok stream
       /\ QMCv1_StaticMapCipher.decrypt [0; 0; 0; 0] 0
          = Ok (zip_with Z.lxor stream [0; 0; 0; 0]).
Proof.
  assert (Hb : bytes_ok [0; 0; 0; 0]) by (repeat constructor; lia).
  split; [exact Hb|].
  destruct (improved_static_stream [0; 0; 0; 0] 0 Hb) as (stream & Hs & _ & _ & Hd).
  exists stream. split; [exact Hs | exact Hd].
Defined.

(** X25: [QMCv2_ImprovedDynamicMapCipher] and [QMCv2_DynamicMapCipher]
    built from one key.  When the key is not empty, the stream that
    [QMCv2_ImprovedDynamicMapCipher.decrypt] builds for a source,
    [bytes(self._yield_mask(len(src), offset))], has the length of the
    source, its byte [i] is what
    [QMCv2_DynamicMapCipher._get_mask(offset + i)] returns, and XORed
    onto the source, byte by byte, it gives what
    [QMCv2_DynamicMapCipher.decrypt(src, offset)] returns.  With the
    empty key, which both constructors take, the stream for a source
    that is not empty cannot be built: [ZeroDivisionError]. *)
Theorem improved_dynamic_stream (key src : list Z) (offset : Z) :
  bytes_ok src ->
  let improved := {| QMCv2_ImprovedDynamicMapCipher.key := key |} in
  let self := {| QMCv2_DynamicMapCipher.key := key |} in
  QMCv2_ImprovedDynamicMapCipher.__init__ key = Ok improved
  /\ QMCv2_DynamicMapCipher.__init__ key = Ok self
  /\ (key <> [] ->
      exists stream,
        QMCv2_ImprovedDynamicMapCipher._yield_mask improved (len src) offset
        = Ok stream
        /\ length stream = length src
        /\ (forall (i : nat) (m : Z), stream !! i = Some m ->
              QMCv2_DynamicMapCipher._get_mask self (offset + Z.of_nat i) = Ok m)
        /\ QMCv2_DynamicMapCipher.decrypt self src offset
           = Ok (zip_with Z.lxor stream src))
  /\ (key = [] -> src <> [] ->
      QMCv2_ImprovedDynamicMapCipher._yield_mask improved (len src) offset
      = Raise ZeroDivisionError).
Proof.
  intros Hsrc improved self.
  split; [reflexivity|]. split; [reflexivity|]. split.
  - intros Hkey.
    assert (Htotal : forall p, exists m,
               QMCv2_DynamicMapCipher._get_mask self p = Ok m /\ 0 <= m < 256)
      by (intros p; apply dynamic_mask_total; exact Hkey).
    exists (map (mask_of (QMCv2_DynamicMapCipher._get_mask self))
                (seqZ offset (len src))).
    split.
    { apply (mask_stream (QMCv2_DynamicMapCipher._get_mask self));
        [exact Htotal | unfold len; lia]. }
    split.
    { rewrite length_map, length_seqZ. unfold len. lia. }
    split.
    { intros i m Hi. apply stream_lookup in Hi. subst m.
      destruct (Htotal (offset + Z.of_nat i)) as (m & Hm & _).
      unfold mask_of. rewrite Hm. reflexivity. }
    rewrite zip_stream_xor. apply dynamic_decrypt_spec; assumption.
  - intros Hkey Hne. destruct src as [|b rest]; [congruence|].
    unfold QMCv2_ImprovedDynamicMapCipher._yield_mask.
    rewrite py_range_cons by (unfold len; simpl length; lia).
    subst improved. rewrite Hkey. reflexivity.
Qed.

Lemma improved_dynamic_stream_witness :
  bytes_ok [9; 9]
  /\ (exists stream,
        QMCv2_ImprovedDynamicMapCipher._yield_mask
          {| QMCv2_ImprovedDynamicMapCipher.key := [1; 2; 3] |} (len [9; 9]) 5
        = Ok stream
        /\ QMCv2_DynamicMapCipher.decrypt {| QMCv2_DynamicMapCipher.key := [1; 2; 3] |}
             [9; 9] 5
           = Ok (zip_with Z.lxor stream [9; 9]))
  /\ QMCv2_ImprovedDynamicMapCipher._yield_mask
       {| QMCv2_ImprovedDynamicMapCipher.key := [] |} (len [9; 9]) 5
     = Raise ZeroDivisionError.
Proof.
  assert (Hb : bytes_ok [9; 9]) by (repeat constructor; lia).
  split; [exact Hb|]. split.
  - destruct (improved_dynamic_stream [1; 2; 3] [9; 9] 5 Hb) as (_ & _ & H & _).
    destruct (H ltac:(discriminate)) as (stream & Hs & _ & _ & Hd).
    exists stream. split; [exact Hs | exact Hd].
  - destruct (improved_dynamic_stream [] [9; 9] 5 Hb) as (_ & _ & _ & H).
    exact (H eq_refl ltac:(discriminate)).
Defined.

(** ** QMCv2_ImprovedRC4Cipher *)

Lemma walk_stream_app (n : Z) (is1 is2 : list Z) (st : Z * Z * list Z)
      (stream : list Z) :
  walk_stream n (is1 ++ is2) st stream
  = walk_stream n is2 (fst (walk_stream n is1 st stream))
                (snd (walk_stream n is1 st stream)).
Proof.
  revert st stream. induction is1 as [|i rest IH]; intros st stream; simpl;
    [reflexivity|].
  apply IH.
Qed.

(** Passes with a negative index only advance the walk. *)
Lemma walk_stream_discard (n : Z) (indices : list Z) (st : Z * Z * list Z)
      (stream : list Z) :
  (forall i, In i indices -> i < 0) ->
  walk_stream n indices st stream
  = (repeat_n (length indices) (rc4_step n) st, stream).
Proof.
  revert st. induction indices as [|i rest IH]; intros st Hneg; simpl; [reflexivity|].
  destruct (0 <=? i) eqn:Hi.
  - specialize (Hneg i (or_introl eq_refl)). lia.
  - apply IH. intros i' Hi'. apply Hneg. right. exact Hi'.
Qed.

(** The other passes add to the stream the bytes the walk emits. *)
Lemma walk_stream_emitted (n : Z) (indices : list Z) (st : Z * Z * list Z)
      (stream : list Z) :
  (forall i, In i indices -> 0 <= i) ->
  walk_stream n indices st stream
  = (repeat_n (length indices) (rc4_step n) st,
     stream ++ emitted n (length indices) st).
Proof.
  revert st stream. induction indices as [|i rest IH]; intros st stream Hpos.
  - simpl. rewrite app_nil_r. reflexivity.
  - cbn [walk_stream length repeat_n emitted].
    assert (Hi : (0 <=? i) = true)
      by (apply Z.leb_le, Hpos; left; reflexivity).
    rewrite Hi, IH by (intros i' Hi'; apply Hpos; right; exact Hi').
    rewrite <- app_assoc. reflexivity.
Qed.

Lemma zip_emitted (n : Z) (buf : list Z) (st : Z * Z * list Z) :
  zip_with Z.lxor (emitted n (length buf) st) buf = emit n st buf.
Proof.
  revert st. induction buf as [|b rest IH]; intros st; [reflexivity|].
  cbn [length emitted zip_with emit]. rewrite Z.lxor_comm, IH. reflexivity.
Qed.

Lemma emitted_bytes (n : Z) (m : nat) (st : Z * Z * list Z) :
  0 < n -> box_ok n st -> bytes_ok (emitted n m st).
Proof.
  intros Hn. revert st. induction m as [|m IH]; intros st Hst; [constructor|].
  cbn [emitted]. pose proof (rc4_step_ok n st Hn Hst) as Hst'.
  apply bytes_ok_cons. split; [apply rc4_out_byte; assumption | apply IH, Hst'].
Qed.

Section ImprovedWalk.

Import QMCv2_RC4Cipher.
Import QMCv2_ImprovedRC4Cipher.

Lemma bytearray_of_items_ok (items : list Z) :
  bytes_ok items -> bytearray_of_items items = Ok items.
Proof.
  intros Hb. unfold bytearray_of_items.
  replace (forallb is_byte items) with true; [reflexivity|].
  symmetry. apply forallb_forall. intros x Hx.
  unfold bytes_ok in Hb. rewrite Forall_forall in Hb.
  apply list_elem_of_In, Hb in Hx. unfold is_byte.
  apply andb_true_iff. split; [apply Z.leb_le | apply Z.ltb_lt]; lia.
Qed.

Lemma improved_get_segment_skip_eq (k : list Z) (h : Z) (w : world) (v : Z) :
  key (self w) = k -> _hash (self w) = Some h ->
  QMCv2_ImprovedRC4Cipher._get_segment_skip v w = (segment_skip k h v, w).
Proof.
  intros Hk Hh. unfold QMCv2_ImprovedRC4Cipher._get_segment_skip, segment_skip,
    bind, get_key, key_length, lift, hash.
  cbv beta. rewrite Hk, Hh. cbv beta iota.
  destruct (let* r := py_mod v (len k) in py_getitem k r) as [seed|e];
    [|reflexivity]. cbn [rbind]. cbv beta iota.
  destruct (let* q := py_truediv h ((v + 1) * seed) in
            py_int (py_float_mul_int q 100)) as [idx|e]; reflexivity.
Qed.

Lemma bytes_of_map (f : Z -> M Z) (g : Z -> Z) (indices : list Z) (w : world) :
  (forall i, In i indices -> f i w = (Ok (g i), w) /\ 0 <= g i < 256) ->
  bytes_of f indices w = (Ok (map g indices), w).
Proof.
  induction indices as [|i rest IH]; intros H; [reflexivity|].
  cbn [bytes_of map]. destruct (H i (or_introl eq_refl)) as [Hf Hb].
  erewrite bind_ok by exact Hf.
  replace (is_byte (g i)) with true
    by (symmetry; unfold is_byte; apply andb_true_iff;
        split; [apply Z.leb_le | apply Z.ltb_lt]; lia).
  erewrite bind_ok by (apply IH; intros i' Hi'; apply H; right; exact Hi').
  reflexivity.
Qed.

Lemma stream_body_eq (w : world) (box : loc) (i j k : Z) (bx stream : list Z) :
  let n := len (key (self w)) in
  0 < n -> box_ok n (j, k, bx) ->
  let st := rc4_step n (j, k, bx) in
  stream_body box n i (j, k, stream) (upd w box bx)
  = (Ok (fst (fst st), snd (fst st),
         if 0 <=? i then stream ++ [rc4_out n st] else stream),
     upd w box (snd st)).
Proof.
  intros n Hn [Hlen Hb] st. simpl in Hlen, Hb.
  pose proof (rc4_step_ok n (j, k, bx) Hn (conj Hlen Hb)) as [Hlen' Hb'].
  pose proof (rc4_out_byte n _ Hn (rc4_step_ok n (j, k, bx) Hn (conj Hlen Hb))) as Hout.
  fold st in Hlen', Hb', Hout. subst st. unfold rc4_step, rc4_out in *.
  simpl in Hlen', Hb', Hout |- *.
  set (j1 := (j + 1) mod n) in *.
  set (k1 := (zth bx j1 + k) mod n) in *.
  assert (Hj1 : 0 <= j1 < len bx) by (rewrite Hlen; apply Z.mod_pos_bound; exact Hn).
  assert (Hk1 : 0 <= k1 < len bx) by (rewrite Hlen; apply Z.mod_pos_bound; exact Hn).
  set (bx1 := <[Z.to_nat j1 := zth bx k1]> bx) in *.
  set (bx2 := <[Z.to_nat k1 := zth bx j1]> bx1) in *.
  unfold stream_body.
  erewrite bind_ok by (apply lift_ok, py_mod_ok; lia). fold j1.
  erewrite bind_ok by (apply getitem_upd; exact Hj1).
  erewrite bind_ok by (apply lift_ok, py_mod_ok; lia). fold k1.
  erewrite bind_ok by (apply getitem_upd; exact Hk1).
  erewrite bind_ok by (apply getitem_upd; exact Hj1).
  erewrite bind_ok by (apply setitem_upd; [exact Hj1 | apply zth_byte; assumption]).
  fold bx1.
  erewrite bind_ok
    by (apply setitem_upd; [unfold bx1; rewrite len_insert; exact Hk1
                           | apply zth_byte; assumption]).
  fold bx2.
  destruct (0 <=? i) eqn:Hi0; [|reflexivity].
  erewrite bind_ok by (apply getitem_upd; rewrite Hlen', <- Hlen; exact Hj1).
  erewrite bind_ok by (apply getitem_upd; rewrite Hlen', <- Hlen; exact Hk1).
  erewrite bind_ok by (apply lift_ok, py_mod_ok; lia).
  erewrite bind_ok
    by (apply getitem_upd; rewrite Hlen'; apply Z.mod_pos_bound; exact Hn).
  replace (is_byte (zth bx2 ((zth bx2 j1 + zth bx2 k1) mod n))) with true
    by (symmetry; unfold is_byte; apply andb_true_iff;
        split; [apply Z.leb_le | apply Z.ltb_lt]; lia).
  reflexivity.
Qed.

Lemma for_each_stream (w : world) (box : loc) (indices : list Z) :
  let n := len (key (self w)) in
  0 < n ->
  forall j k bx stream,
    box_ok n (j, k, bx) ->
    for_each indices (stream_body box n) (j, k, stream) (upd w box bx)
    = (Ok (fst (fst (fst (walk_stream n indices (j, k, bx) stream))),
           snd (fst (fst (walk_stream n indices (j, k, bx) stream))),
           snd (walk_stream n indices (j, k, bx) stream)),
       upd w box (snd (fst (walk_stream n indices (j, k, bx) stream)))).
Proof.
  intros n Hn. induction indices as [|i rest IH]; intros j k bx stream Hbox.
  - reflexivity.
  - cbn [for_each walk_stream].
    erewrite bind_ok by (apply (stream_body_eq w box i j k bx stream Hn Hbox)).
    pose proof (rc4_step_ok n (j, k, bx) Hn Hbox) as Hbox'.
    fold n. destruct (rc4_step n (j, k, bx)) as [[j' k'] bx'] eqn:Hstep.
    cbn [fst snd].
    apply IH. exact Hbox'.
Qed.

End ImprovedWalk.

Section ImprovedSegments.

Import QMCv2_RC4Cipher.
Import QMCv2_ImprovedRC4Cipher.

Variables (k bx : list Z) (h : Z).
Hypothesis key_bytes : Forall (fun b => 1 <= b < 256) k.
Hypothesis key_nonempty : k <> [].
Hypothesis scheduled : box_ok (len k) (0, 0, bx).
Hypothesis hash_range : 1 <= h < 2 ^ 32.

Local Abbreviation ks := (rc4_keystream k bx h).

Lemma ks_byte (p : Z) : 0 <= ks p < 256.
Proof. apply rc4_keystream_byte; try assumption. split; assumption. Qed.

(** The values of [_yield_1st_segment], for a buffer that ends in the
    first segment. *)
Lemma yield_1st_segment_eq (w : world) (buf : list Z) (off : Z) :
  key (self w) = k -> _hash (self w) = Some h ->
  0 <= off -> off + len buf <= 128 ->
  _yield_1st_segment buf off w = (Ok (xor_keystream ks buf off), w).
Proof.
  intros Hk Hh Hoff Hend. unfold _yield_1st_segment.
  erewrite bind_ok by reflexivity.
  erewrite bind_ok.
  2:{ apply (bytes_of_map _ (fun i => zth k (skip_of k h (off + i)))).
      intros i Hi. apply in_py_range in Hi.
      destruct (segment_skip_total k bx h key_bytes key_nonempty scheduled
                  hash_range (off + i) ltac:(lia)) as [Hs Hrange].
      pose proof (key_byte_pos k key_bytes _ Hrange) as Hb.
      split; [|lia].
      erewrite bind_ok
        by (rewrite (improved_get_segment_skip_eq k h) by assumption;
            rewrite Hs; reflexivity).
      rewrite Hk. apply lift_ok, py_getitem_zth. exact Hrange. }
  unfold ret, xor_zip, py_range. rewrite Z.sub_0_r.
  rewrite (zip_stream_xor (fun i => zth k (skip_of k h (off + i)))).
  rewrite (xor_keystream_shift (fun p => zth k (skip_of k h p))).
  rewrite Z.add_0_r. do 2 f_equal.
  apply xor_keystream_ext. intros p Hp. unfold rc4_keystream.
  destruct (p <? 128) eqn:H128; [reflexivity | lia].
Qed.

(** The values of [_yield_another_segment], for a buffer that starts
    past the first segment and ends in the segment it starts in. *)
Lemma yield_another_segment_eq (w : world) (buf : list Z) (off : Z) :
  ready k bx h w ->
  128 <= off -> off mod 5120 + len buf <= 5120 ->
  exists bx',
    _yield_another_segment buf off w
    = (Ok (xor_keystream ks buf off), upd w (fresh (dom (heap w))) bx').
Proof.
  intros (Hk & Hh & b & Hb & Hbx) Hoff Hend.
  pose proof (key_length_pos k bx key_bytes key_nonempty scheduled) as Hn.
  unfold _yield_another_segment, _rc4_segment_size.
  erewrite bind_ok by (unfold box; rewrite Hb; reflexivity).
  erewrite bind_ok by (unfold bytearray_copy; rewrite Hbx; reflexivity).
  fold (upd w (fresh (dom (heap w))) bx).
  set (copy := fresh (dom (heap w))).
  erewrite bind_ok by apply key_length_upd.
  erewrite bind_ok by (apply lift_ok, py_mod_ok; lia).
  erewrite bind_ok by (apply lift_ok; reflexivity).
  assert (Hseg : 0 <= off / 5120) by (apply Z.div_pos; lia).
  destruct (segment_skip_total k bx h key_bytes key_nonempty scheduled
              hash_range (off / 5120) Hseg) as [Hs Hrange].
  erewrite bind_ok
    by (rewrite (improved_get_segment_skip_eq k h) by assumption;
        rewrite Hs; reflexivity).
  set (s := skip_of k h (off / 5120)) in *.
  assert (Hm : 0 <= off mod 5120 < 5120) by (apply Z.mod_pos_bound; lia).
  assert (Hwk : 0 < len (key (self w))) by (rewrite Hk; exact Hn).
  erewrite bind_ok.
  2:{ apply (for_each_stream w copy _ Hwk 0 0 bx []).
      rewrite Hk. exact scheduled. }
  rewrite Hk.
  rewrite py_range_split by (unfold len; lia).
  rewrite walk_stream_app.
  rewrite (walk_stream_discard (len k)
             (seqZ (- (off mod 5120 + s)) (off mod 5120 + s)))
    by (intros i Hi; apply list_elem_of_In, elem_of_seqZ in Hi; lia).
  cbn [fst snd].
  rewrite walk_stream_emitted
    by (intros i Hi; apply list_elem_of_In, elem_of_seqZ in Hi; lia).
  cbn [fst snd app]. eexists. unfold ret, xor_zip. do 2 f_equal.
  rewrite !length_seqZ.
  replace (Z.to_nat (len buf)) with (length buf) by (unfold len; lia).
  rewrite zip_emitted.
  apply emit_keystream. intros p Hp. unfold rc4_keystream.
  destruct (p <? 128) eqn:H128; [lia|].
  destruct (same_segment off (p - off)) as [Hmod Hdiv]; [lia | lia |].
  replace (off + (p - off)) with p in * by lia.
  rewrite Hmod, Hdiv. fold s. do 2 f_equal. lia.
Qed.

(** *** The parts of [decrypt] *)

Ltac splits := repeat match goal with |- _ /\ _ => split end.

Variables (buf : list Z) (offset0 : Z).
Hypothesis buf_bytes : bytes_ok buf.
Hypothesis offset0_nonneg : 0 <= offset0.

Lemma assigned_ok (chunk : list Z) (off : Z) (w : world) :
  bytes_ok chunk ->
  lift (bytearray_of_items (xor_keystream ks chunk off)) w
  = (Ok (xor_keystream ks chunk off), w).
Proof.
  intros Hc. apply lift_ok, bytearray_of_items_ok.
  apply xor_keystream_bytes_ok; [apply ks_byte | exact Hc].
Qed.

Lemma improved_decrypt_first_eq (w : world) :
  ready k bx h w ->
  let s := {| src := buf; offset := offset0; pending := len buf; done := 0 |} in
  exists s' fin,
    QMCv2_ImprovedRC4Cipher.decrypt_first s w = (Ok (s', fin), w)
    /\ progress ks buf offset0 s'
    /\ (fin = true -> src s' = xor_keystream ks buf offset0)
    /\ (fin = false -> 128 <= QMCv2_RC4Cipher.offset s').
Proof.
  intros Hready s. pose proof (progress_start ks buf offset0) as Hs. fold s in Hs.
  destruct Hready as (Hk & Hh & _).
  unfold QMCv2_ImprovedRC4Cipher.decrypt_first, _rc4_1st_segment_size.
  cbn [QMCv2_RC4Cipher.offset pending src s].
  destruct (offset0 <? 128) eqn:H128.
  - set (blksize := if len buf >? 128 - offset0 then 128 - offset0 else len buf).
    assert (Hblk : 0 <= blksize <= pending s).
    { unfold blksize. cbn [pending s]. destruct (_ >? _) eqn:Hc; unfold len in *; lia. }
    pose proof (progress_chunk ks buf offset0 s blksize Hs Hblk) as Hchunk.
    pose proof (progress_step ks buf offset0 s blksize Hs Hblk) as Hstep.
    pose proof (len_chunk ks buf offset0 s blksize Hs Hblk) as Hlen.
    cbn [src done QMCv2_RC4Cipher.offset s] in Hchunk, Hstep, Hlen.
    rewrite Z.add_0_l in Hchunk, Hstep. rewrite Hchunk.
    erewrite bind_ok.
    2:{ apply (yield_1st_segment_eq w); try assumption.
        rewrite Hlen. unfold blksize. destruct (_ >? _) eqn:Hc; lia. }
    erewrite bind_ok by (apply assigned_ok, bytes_ok_chunk, buf_bytes).
    unfold ret. do 2 eexists. split; [reflexivity|].
    fold s. split; [exact Hstep|]. split.
    + intros Hfin. apply (progress_finished ks buf offset0 _ Hstep).
      cbn [mark_process snd fst pending] in Hfin |- *.
      apply Z.eqb_eq in Hfin. exact Hfin.
    + intros Hfin. cbn [mark_process snd fst pending QMCv2_RC4Cipher.offset s] in Hfin |- *.
      apply Z.eqb_neq in Hfin. apply Z.ltb_lt in H128.
      unfold s in Hfin. cbn [pending] in Hfin.
      unfold blksize in *. destruct (len buf >? 128 - offset0) eqn:Hc.
      * lia.
      * lia.
  - unfold ret. exists s, false. splits; auto.
    + discriminate.
    + intros _. simpl. lia.
Qed.

Lemma improved_decrypt_unaligned_eq (w : world) (s : locals) :
  ready k bx h w -> progress ks buf offset0 s ->
  128 <= QMCv2_RC4Cipher.offset s ->
  exists s' fin w',
    QMCv2_ImprovedRC4Cipher.decrypt_unaligned s w = (Ok (s', fin), w')
    /\ ready k bx h w'
    /\ progress ks buf offset0 s'
    /\ (fin = true -> src s' = xor_keystream ks buf offset0)
    /\ (fin = false -> QMCv2_RC4Cipher.offset s' mod 5120 = 0
                       /\ 128 <= QMCv2_RC4Cipher.offset s').
Proof.
  intros Hready Hs H128.
  unfold QMCv2_ImprovedRC4Cipher.decrypt_unaligned, _rc4_segment_size.
  assert (Hm : 0 <= QMCv2_RC4Cipher.offset s mod 5120 < 5120)
    by (apply Z.mod_pos_bound; lia).
  destruct (QMCv2_RC4Cipher.offset s mod 5120 =? 0) eqn:Hal; cbn [negb].
  - unfold ret. exists s, false, w. splits; auto; try discriminate.
    intros _. split; lia.
  - set (blksize := if pending s >? 5120 - QMCv2_RC4Cipher.offset s mod 5120
                    then 5120 - QMCv2_RC4Cipher.offset s mod 5120 else pending s).
    assert (Hp : 0 <= pending s) by (destruct Hs as (? & ? & ? & ?); lia).
    assert (Hblk : 0 <= blksize <= pending s).
    { unfold blksize. destruct (_ >? _) eqn:Hc; lia. }
    pose proof (progress_chunk ks buf offset0 s blksize Hs Hblk) as Hchunk.
    pose proof (progress_step ks buf offset0 s blksize Hs Hblk) as Hstep.
    pose proof (len_chunk ks buf offset0 s blksize Hs Hblk) as Hlen.
    rewrite Hchunk.
    destruct (yield_another_segment_eq w
                (take (Z.to_nat blksize) (drop (Z.to_nat (done s)) buf))
                (QMCv2_RC4Cipher.offset s) Hready) as (bx' & Henc).
    { exact H128. }
    { rewrite Hlen. unfold blksize. destruct (_ >? _) eqn:Hc; lia. }
    erewrite bind_ok by exact Henc.
    erewrite bind_ok by (apply assigned_ok, bytes_ok_chunk, buf_bytes).
    unfold ret. do 3 eexists. split; [reflexivity|].
    split; [apply ready_upd_fresh, Hready|].
    split; [exact Hstep|]. split.
    + intros Hfin. apply (progress_finished ks buf offset0 _ Hstep).
      cbn [mark_process snd fst pending] in Hfin |- *.
      apply Z.eqb_eq in Hfin. exact Hfin.
    + intros Hfin. cbn [mark_process snd fst pending QMCv2_RC4Cipher.offset] in Hfin |- *.
      apply Z.eqb_neq in Hfin.
      assert (Hb : blksize = 5120 - QMCv2_RC4Cipher.offset s mod 5120).
      { unfold blksize in *. destruct (_ >? _) eqn:Hc; lia. }
      split; [|lia]. rewrite Hb.
      replace (QMCv2_RC4Cipher.offset s + (5120 - QMCv2_RC4Cipher.offset s mod 5120))
        with (5120 * (QMCv2_RC4Cipher.offset s / 5120 + 1))
        by (pose proof (Z.div_mod (QMCv2_RC4Cipher.offset s) 5120 ltac:(lia)); lia).
      rewrite Z.mul_comm. apply Z.mod_mul. lia.
Qed.

Lemma improved_decrypt_whole_segment_eq (w : world) (s : locals) :
  ready k bx h w -> progress ks buf offset0 s ->
  QMCv2_RC4Cipher.offset s mod 5120 = 0 -> 128 <= QMCv2_RC4Cipher.offset s ->
  5120 < pending s ->
  exists s' w',
    QMCv2_ImprovedRC4Cipher.decrypt_whole_segment s w = (Ok s', w')
    /\ ready k bx h w'
    /\ progress ks buf offset0 s'
    /\ QMCv2_RC4Cipher.offset s' mod 5120 = 0
    /\ 128 <= QMCv2_RC4Cipher.offset s'
    /\ pending s' = pending s - 5120.
Proof.
  intros Hready Hs Hal H128 Hp.
  unfold QMCv2_ImprovedRC4Cipher.decrypt_whole_segment, _rc4_segment_size.
  assert (Hblk : 0 <= 5120 <= pending s) by lia.
  pose proof (progress_chunk ks buf offset0 s 5120 Hs Hblk) as Hchunk.
  pose proof (progress_step ks buf offset0 s 5120 Hs Hblk) as Hstep.
  pose proof (len_chunk ks buf offset0 s 5120 Hs Hblk) as Hlen.
  rewrite Hchunk.
  destruct (yield_another_segment_eq w
              (take (Z.to_nat 5120) (drop (Z.to_nat (done s)) buf))
              (QMCv2_RC4Cipher.offset s) Hready) as (bx' & Henc).
  { exact H128. }
  { rewrite Hlen, Hal. lia. }
  erewrite bind_ok by exact Henc.
  erewrite bind_ok by (apply assigned_ok, bytes_ok_chunk, buf_bytes).
  unfold ret. do 2 eexists. split; [reflexivity|].
  split; [apply ready_upd_fresh, Hready|].
  split; [exact Hstep|].
  cbn [mark_process snd fst pending QMCv2_RC4Cipher.offset].
  splits; try lia.
  rewrite <- Zplus_mod_idemp_l, Hal. reflexivity.
Qed.

Lemma improved_decrypt_while_eq (fuel : nat) (w : world) (s : locals) :
  ready k bx h w -> progress ks buf offset0 s ->
  QMCv2_RC4Cipher.offset s mod 5120 = 0 -> 128 <= QMCv2_RC4Cipher.offset s ->
  pending s / 5120 <= Z.of_nat fuel ->
  exists s' w',
    while fuel (fun s => pending s >? 5120)
          QMCv2_ImprovedRC4Cipher.decrypt_whole_segment s w = (Ok s', w')
    /\ ready k bx h w'
    /\ progress ks buf offset0 s'
    /\ QMCv2_RC4Cipher.offset s' mod 5120 = 0
    /\ 128 <= QMCv2_RC4Cipher.offset s'
    /\ pending s' <= 5120.
Proof.
  revert w s. induction fuel as [|fuel IH]; intros w s Hready Hs Hal H128 Hfuel.
  - cbn [while]. destruct (pending s >? 5120) eqn:Hc.
    + exfalso. assert (1 <= pending s / 5120) by (apply Z.div_le_lower_bound; lia). lia.
    + unfold ret. exists s, w. splits; auto. lia.
  - cbn [while]. destruct (pending s >? 5120) eqn:Hc.
    + destruct (improved_decrypt_whole_segment_eq w s Hready Hs Hal H128 ltac:(lia))
        as (s1 & w1 & Hrun & Hready1 & Hs1 & Hal1 & H1281 & Hp1).
      erewrite bind_ok by exact Hrun.
      apply IH; try assumption.
      rewrite Hp1.
      replace (pending s - 5120) with (pending s + (-1) * 5120) by lia.
      rewrite Z.div_add by lia. lia.
    + unfold ret. exists s, w. splits; auto. lia.
Qed.

Lemma improved_decrypt_tail_eq (w : world) (s : locals) :
  ready k bx h w -> progress ks buf offset0 s ->
  QMCv2_RC4Cipher.offset s mod 5120 = 0 -> 128 <= QMCv2_RC4Cipher.offset s ->
  pending s <= 5120 ->
  exists w',
    QMCv2_ImprovedRC4Cipher.decrypt_tail s w = (Ok (xor_keystream ks buf offset0), w')
    /\ ready k bx h w'.
Proof.
  intros Hready Hs Hal H128 Hp. unfold QMCv2_ImprovedRC4Cipher.decrypt_tail.
  destruct (pending s >? 0) eqn:Hc.
  - destruct (progress_tail ks buf offset0 s Hs) as [Hjoin Hrest].
    rewrite Hrest.
    destruct (yield_another_segment_eq w (drop (Z.to_nat (done s)) buf)
                (QMCv2_RC4Cipher.offset s) Hready) as (bx' & Henc).
    { exact H128. }
    { destruct Hs as (Hd & Ho & Hpd & _). unfold len in *.
      rewrite length_drop, Hal. lia. }
    erewrite bind_ok by exact Henc.
    erewrite bind_ok
      by (apply assigned_ok; unfold bytes_ok; apply Forall_drop, buf_bytes).
    unfold ret. rewrite Hjoin. eexists. split; [reflexivity|].
    apply ready_upd_fresh, Hready.
  - unfold ret. exists w. split; [|exact Hready].
    rewrite (progress_finished ks buf offset0 s Hs); [reflexivity|].
    destruct Hs as (? & ? & ? & ?). lia.
Qed.

(** [QMCv2_ImprovedRC4Cipher.decrypt] XORs the buffer with the
    keystream of its positions. *)
Lemma improved_decrypt_eq (fuel : nat) (w : world) :
  ready k bx h w -> len buf / 5120 <= Z.of_nat fuel ->
  exists w',
    QMCv2_ImprovedRC4Cipher.decrypt fuel buf offset0 w
    = (Ok (xor_keystream ks buf offset0), w')
    /\ ready k bx h w'.
Proof.
  intros Hready Hfuel. unfold QMCv2_ImprovedRC4Cipher.decrypt, _rc4_segment_size.
  destruct (improved_decrypt_first_eq w Hready)
    as (s1 & fin1 & Hrun1 & Hs1 & Hfin1 & Hnot1).
  erewrite bind_ok by exact Hrun1. cbv beta iota.
  destruct fin1.
  { unfold ret. rewrite Hfin1 by reflexivity. eauto. }
  destruct (improved_decrypt_unaligned_eq w s1 Hready Hs1 (Hnot1 eq_refl))
    as (s2 & fin2 & w2 & Hrun2 & Hready2 & Hs2 & Hfin2 & Hnot2).
  erewrite bind_ok by exact Hrun2. cbv beta iota.
  destruct fin2.
  { unfold ret. rewrite Hfin2 by reflexivity. eauto. }
  destruct (Hnot2 eq_refl) as [Hal2 H1282].
  destruct (improved_decrypt_while_eq fuel w2 s2 Hready2 Hs2 Hal2 H1282)
    as (s3 & w3 & Hrun3 & Hready3 & Hs3 & Hal3 & H1283 & Hp3).
  { destruct Hs2 as (Hd & _ & Hpd & _).
    assert (pending s2 / 5120 <= len buf / 5120) by (apply Z.div_le_mono; lia). lia. }
  erewrite bind_ok by exact Hrun3.
  apply improved_decrypt_tail_eq; assumption.
Qed.

End ImprovedSegments.

(** ** QMCv2_ImprovedRC4Cipher and QMCv2_RC4Cipher *)

Section ImprovedMore.

Import QMCv2_RC4Cipher.
Import QMCv2_ImprovedRC4Cipher.

(** On a key that is not empty the two constructors do the same. *)
Lemma improved_init_same (k : list Z) (h0 : gmap loc (list Z)) :
  k <> [] ->
  QMCv2_ImprovedRC4Cipher.__init__ (instantiate k h0)
  = QMCv2_RC4Cipher.__init__ (instantiate k h0).
Proof.
  intros Hk.
  assert (Hn : (len k =? 0) = false)
    by (apply Z.eqb_neq; unfold len; destruct k; [congruence | simpl; lia]).
  unfold QMCv2_ImprovedRC4Cipher.__init__, QMCv2_RC4Cipher.__init__.
  unfold bind at 1. unfold key_length at 1. cbv beta iota.
  symmetry. unfold bind at 1. unfold key_length at 1. cbv beta iota.
  cbn [instantiate self key]. rewrite Hn. reflexivity.
Qed.

Lemma improved_get_segment_skip_zero_seed (w : world) (h v : Z) :
  _hash (self w) = Some h ->
  zth (key (self w)) (v mod len (key (self w))) = 0 ->
  QMCv2_ImprovedRC4Cipher._get_segment_skip v w = (Raise ZeroDivisionError, w).
Proof.
  intros Hh Hseed.
  unfold QMCv2_ImprovedRC4Cipher._get_segment_skip, bind, get_key, key_length,
    lift, hash.
  cbv beta. rewrite Hh. cbv beta iota. set (k := key (self w)) in *.
  destruct (len k =? 0) eqn:Hn.
  - unfold py_mod. rewrite Hn. reflexivity.
  - rewrite py_mod_ok by lia. cbn [rbind].
    rewrite py_getitem_zth by (apply Z.mod_pos_bound; unfold len in *; lia).
    rewrite Hseed. cbv beta iota.
    unfold py_truediv. rewrite Z.mul_0_r. reflexivity.
Qed.

Lemma yield_1st_segment_zero_seed (w : world) (h off b : Z) (rest : list Z) :
  _hash (self w) = Some h ->
  zth (key (self w)) (off mod len (key (self w))) = 0 ->
  fst (_yield_1st_segment (b :: rest) off w) = Raise ZeroDivisionError.
Proof.
  intros Hh Hseed. unfold _yield_1st_segment.
  erewrite bind_ok by reflexivity.
  rewrite py_range_cons by (unfold len; simpl; lia).
  cbn [bytes_of]. unfold bind at 1. unfold bind at 1. unfold bind at 1.
  rewrite (improved_get_segment_skip_zero_seed w h (off + 0) Hh)
    by (rewrite Z.add_0_r; exact Hseed).
  reflexivity.
Qed.

Lemma yield_another_segment_zero_seed (k bx : list Z) (h : Z) (w : world)
      (buf : list Z) (off : Z) :
  ready k bx h w ->
  zth k ((off / 5120) mod len k) = 0 ->
  fst (_yield_another_segment buf off w) = Raise ZeroDivisionError.
Proof.
  intros (Hk & Hh & b & Hb & Hbx) Hseed.
  unfold _yield_another_segment, _rc4_segment_size.
  erewrite bind_ok by (unfold box; rewrite Hb; reflexivity).
  erewrite bind_ok by (unfold bytearray_copy; rewrite Hbx; reflexivity).
  erewrite bind_ok by reflexivity.
  erewrite bind_ok by (apply lift_ok, py_mod_ok; lia).
  erewrite bind_ok by (apply lift_ok; reflexivity).
  unfold bind at 1.
  erewrite improved_get_segment_skip_zero_seed; [reflexivity | exact Hh |].
  cbn [self key]. rewrite Hk. exact Hseed.
Qed.

End ImprovedMore.

(** X26: [QMCv2_ImprovedRC4Cipher(key)] and [QMCv2_RC4Cipher(key)] differ
    on the empty key alone.  On any other key the two constructors leave
    the same instance and the same store.  The empty key, which
    [QMCv2_RC4Cipher] refuses with [CipherGenerationError], is taken by
    [QMCv2_ImprovedRC4Cipher]: the box is a new, empty [bytearray] and
    the hash is 1. *)
Theorem improved_rc4_init_outcomes (k : list Z) (h0 : gmap loc (list Z)) :
  match k with
  | [] =>
      QMCv2_ImprovedRC4Cipher.__init__ (QMCv2_RC4Cipher.instantiate k h0)
      = (Ok tt,
         {| QMCv2_RC4Cipher.self :=
              {| QMCv2_RC4Cipher.key := [];
                 QMCv2_RC4Cipher._box := Some (fresh (dom h0));
                 QMCv2_RC4Cipher._hash := Some 1 |};
            QMCv2_RC4Cipher.heap := <[fresh (dom h0) := []]> h0 |})
      /\ QMCv2_RC4Cipher.__init__ (QMCv2_RC4Cipher.instantiate k h0)
         = (Raise CipherGenerationError, QMCv2_RC4Cipher.instantiate k h0)
  | _ :: _ =>
      QMCv2_ImprovedRC4Cipher.__init__ (QMCv2_RC4Cipher.instantiate k h0)
      = QMCv2_RC4Cipher.__init__ (QMCv2_RC4Cipher.instantiate k h0)
  end.
Proof.
  destruct k as [|b rest].
  - split; reflexivity.
  - apply improved_init_same. discriminate.
Qed.

(** X27: with a key without zero bytes, [QMCv2_ImprovedRC4Cipher.decrypt]
    returns what [QMCv2_RC4Cipher.decrypt] returns, for every buffer and
    every offset that is not negative. *)
Theorem improved_rc4_decrypt_agrees (k buf : list Z) (off : Z) (fuel : nat) :
  good_key k -> bytes_ok buf -> 0 <= off ->
  len buf / 5120 <= Z.of_nat fuel ->
  exists out,
    fst (QMCv2_ImprovedRC4Cipher.decrypt fuel buf off (improved_rc4_instance k))
    = Ok out
    /\ fst (QMCv2_RC4Cipher.decrypt fuel buf off (rc4_instance k)) = Ok out.
Proof.
  intros Hgood Hbuf Hoff Hfuel.
  destruct (rc4_instance_ready k (proj1 Hgood)) as (_ & Hready & Hbox & Hhash).
  assert (Hsame : improved_rc4_instance k = rc4_instance k).
  { unfold improved_rc4_instance, rc4_instance.
    rewrite improved_init_same by exact (proj1 Hgood). reflexivity. }
  destruct (rc4_decrypt_eq k _ _ Hgood Hbox Hhash fuel _ buf off Hready Hbuf Hoff Hfuel)
    as (w1 & Hrun1 & _).
  destruct (improved_decrypt_eq k _ _ (proj2 Hgood) (proj1 Hgood) Hbox Hhash
              buf off Hbuf Hoff fuel _ Hready Hfuel) as (w2 & Hrun2 & _).
  rewrite Hsame, Hrun1, Hrun2. eauto.
Qed.

Lemma improved_rc4_decrypt_agrees_witness :
  good_key [5; 6; 7] /\ bytes_ok [1; 2] /\ 0 <= 127
  /\ len [1; 2] / 5120 <= Z.of_nat 0
  /\ exists out,
       fst (QMCv2_ImprovedRC4Cipher.decrypt 0 [1; 2] 127 (improved_rc4_instance [5; 6; 7]))
       = Ok out
       /\ fst (QMCv2_RC4Cipher.decrypt 0 [1; 2] 127 (rc4_instance [5; 6; 7])) = Ok out.
Proof.
  assert (Hg : good_key [5; 6; 7]) by (split; [discriminate | repeat constructor; lia]).
  assert (Hb : bytes_ok [1; 2]) by (repeat constructor; lia).
  assert (Ho : 0 <= 127) by lia.
  assert (Hf : len [1; 2] / 5120 <= Z.of_nat 0) by (vm_compute; discriminate).
  split; [exact Hg|]. split; [exact Hb|]. split; [exact Ho|]. split; [exact Hf|].
  exact (improved_rc4_decrypt_agrees [5; 6; 7] [1; 2] 127 0 Hg Hb Ho Hf).
Defined.

(** X28: a zero byte in the key, or no byte at all, makes
    [QMCv2_ImprovedRC4Cipher.decrypt] fail.  On a constructed instance
    and a buffer that is not empty, [decrypt] raises
    [ZeroDivisionError] when the key byte chosen by the first position
    is zero or, the key being empty, is not there: the byte
    [key[offset % key_length]] for an offset below 128, the byte
    [key[(offset // 5120) % key_length]] from 128 on. *)
Theorem improved_rc4_decrypt_zero_seed_raises (k bx : list Z) (h : Z)
        (w : QMCv2_RC4Cipher.world) (buf : list Z) (off : Z) (fuel : nat) :
  ready k bx h w -> buf <> [] -> (1 <= fuel)%nat ->
  zth k ((if off <? 128 then off else off / 5120) mod len k) = 0 ->
  fst (QMCv2_ImprovedRC4Cipher.decrypt fuel buf off w) = Raise ZeroDivisionError.
Proof.
  intros Hready Hbuf Hfuel Hseed.
  destruct buf as [|b rest]; [congruence|].
  assert (Hlen : 0 < len (b :: rest)) by (unfold len; simpl; lia).
  unfold QMCv2_ImprovedRC4Cipher.decrypt,
    QMCv2_ImprovedRC4Cipher._rc4_segment_size.
  unfold QMCv2_RC4Cipher.bind at 1.
  unfold QMCv2_ImprovedRC4Cipher.decrypt_first,
    QMCv2_ImprovedRC4Cipher._rc4_1st_segment_size.
  cbn [QMCv2_RC4Cipher.offset QMCv2_RC4Cipher.pending QMCv2_RC4Cipher.src
       QMCv2_RC4Cipher.done].
  destruct (off <? 128) eqn:H128.
  - apply Z.ltb_lt in H128.
    set (blksize := if len (b :: rest) >? 128 - off then 128 - off
                    else len (b :: rest)).
    assert (Hblk : 0 < blksize) by (unfold blksize; destruct (_ >? _); lia).
    assert (Hslice : exists rest', py_slice (b :: rest) 0 blksize = b :: rest').
    { unfold py_slice. cbn [Z.to_nat drop]. rewrite Nat.sub_0_r.
      destruct (Z.to_nat blksize) as [|n] eqn:Hn; [lia|].
      eexists. reflexivity. }
    destruct Hslice as (rest' & ->).
    destruct Hready as (Hk & Hh & _).
    unfold QMCv2_RC4Cipher.bind at 1.
    pose proof (yield_1st_segment_zero_seed w h off b rest' Hh
                  ltac:(rewrite Hk; exact Hseed)) as Hrun.
    destruct (QMCv2_ImprovedRC4Cipher._yield_1st_segment (b :: rest') off w)
      as [[r|e] w']; cbn [fst] in Hrun; [discriminate|].
    rewrite Hrun. reflexivity.
  - apply Z.ltb_ge in H128.
    unfold QMCv2_RC4Cipher.ret at 1. cbv beta iota.
    unfold QMCv2_RC4Cipher.bind at 1.
    unfold QMCv2_ImprovedRC4Cipher.decrypt_unaligned,
      QMCv2_ImprovedRC4Cipher._rc4_segment_size.
    cbn [QMCv2_RC4Cipher.offset QMCv2_RC4Cipher.pending QMCv2_RC4Cipher.src
         QMCv2_RC4Cipher.done].
    destruct (off mod 5120 =? 0) eqn:Hal; cbn [negb].
    + unfold QMCv2_RC4Cipher.ret at 1. cbv beta iota.
      unfold QMCv2_RC4Cipher.bind at 1.
      destruct fuel as [|fuel]; [lia|].
      cbn [QMCv2_RC4Cipher.while QMCv2_RC4Cipher.pending].
      destruct (len (b :: rest) >? 5120) eqn:Hbig.
      * unfold QMCv2_RC4Cipher.bind at 1.
        unfold QMCv2_ImprovedRC4Cipher.decrypt_whole_segment,
          QMCv2_ImprovedRC4Cipher._rc4_segment_size.
        unfold QMCv2_RC4Cipher.bind at 1.
        cbn [QMCv2_RC4Cipher.offset QMCv2_RC4Cipher.pending QMCv2_RC4Cipher.src
             QMCv2_RC4Cipher.done].
        match goal with
        | |- context [QMCv2_ImprovedRC4Cipher._yield_another_segment ?s off w] =>
            pose proof (yield_another_segment_zero_seed k bx h w s off Hready Hseed)
              as Hrun;
            destruct (QMCv2_ImprovedRC4Cipher._yield_another_segment s off w)
              as [[r|e] w']
        end; cbn [fst] in Hrun; [discriminate|].
        rewrite Hrun. reflexivity.
      * unfold QMCv2_RC4Cipher.ret at 1. cbv beta iota.
        unfold QMCv2_ImprovedRC4Cipher.decrypt_tail.
        cbn [QMCv2_RC4Cipher.offset QMCv2_RC4Cipher.pending QMCv2_RC4Cipher.src
             QMCv2_RC4Cipher.done].
        destruct (len (b :: rest) >? 0) eqn:Hpos; [|lia].
        unfold QMCv2_RC4Cipher.bind at 1.
        match goal with
        | |- context [QMCv2_ImprovedRC4Cipher._yield_another_segment ?s off w] =>
            pose proof (yield_another_segment_zero_seed k bx h w s off Hready Hseed)
              as Hrun;
            destruct (QMCv2_ImprovedRC4Cipher._yield_another_segment s off w)
              as [[r|e] w']
        end; cbn [fst] in Hrun; [discriminate|].
        rewrite Hrun. reflexivity.
    + unfold QMCv2_RC4Cipher.bind at 1.
      match goal with
      | |- context [QMCv2_ImprovedRC4Cipher._yield_another_segment ?s off w] =>
          pose proof (yield_another_segment_zero_seed k bx h w s off Hready Hseed)
            as Hrun;
          destruct (QMCv2_ImprovedRC4Cipher._yield_another_segment s off w)
            as [[r|e] w']
      end; cbn [fst] in Hrun; [discriminate|].
      rewrite Hrun. reflexivity.
Qed.

Lemma improved_rc4_decrypt_zero_seed_raises_witness :
  ready [] [] 1 (improved_rc4_instance [])
  /\ fst (QMCv2_ImprovedRC4Cipher.decrypt 1 [9; 9] 4 (improved_rc4_instance []))
     = Raise ZeroDivisionError
  /\ fst (QMCv2_ImprovedRC4Cipher.decrypt 1 [9; 9] 5130 (improved_rc4_instance []))
     = Raise ZeroDivisionError.
Proof.
  assert (Hready : ready [] [] 1 (improved_rc4_instance [])).
  { split; [reflexivity|]. split; [reflexivity|].
    eexists. split; [reflexivity|]. vm_compute. reflexivity. }
  assert (Hbuf : [9; 9] <> ([] : list Z)) by discriminate.
  split; [exact Hready|]. split.
  - exact (improved_rc4_decrypt_zero_seed_raises _ _ _ _ [9; 9] 4 1 Hready Hbuf
             (le_n 1) eq_refl).
  - exact (improved_rc4_decrypt_zero_seed_raises _ _ _ _ [9; 9] 5130 1 Hready Hbuf
             (le_n 1) eq_refl).
Defined.
